(** * Record store backend: catalog aggregation and cart handlers

    A shallow embedding of [backend/db/db.go], [backend/models/models.go] and
    the catalog, cart and admin handlers of [backend/handlers/handlers.go].

    The storage engine (SQLite behind [database/sql]) is modelled by a record
    of tables in storage order together with the [sqlite_sequence] counters;
    each SQL statement a handler issues is a function on that record which
    enforces the constraints declared by [createTables] (primary keys,
    UNIQUE, CHECK, foreign keys with their ON DELETE rules).  Handlers are
    functions from the decoded request and the store to the response, the new
    store and the lines written with [log.Printf]. *)

From Stdlib Require Import ZArith String Ascii List Lia.
From Stdlib Require Import PrimFloat.
From stdpp Require Import gmap strings list.

Local Open Scope string_scope.
Local Open Scope list_scope.
Local Open Scope Z_scope.

(** ** Machine values *)

(** Go's [int] and SQLite's INTEGER are 64-bit two's complement. *)
Definition max_int64 : Z := 9223372036854775807.
Definition min_int64 : Z := -9223372036854775808.

Definition is_int64 (z : Z) : bool := (min_int64 <=? z) && (z <=? max_int64).

(** Go's [float64]; prices are only carried through. *)
Definition float64 : Type := PrimFloat.float.

(** The double quote character, which a Go raw string literal may contain. *)
Definition dquote : ascii := "034"%char.

(** A cell of the [quantity] column.  [quantity + excluded.quantity] is
    computed by SQLite on 64-bit integers; when the sum leaves the range the
    engine continues in floating point and the stored cell is a REAL, whose
    value is not tracked here. *)
Inductive SqlInteger : Type :=
| IntegerCell (z : Z)
| RealCell.

Definition sqlite_add (c : SqlInteger) (z : Z) : SqlInteger :=
  match c with
  | IntegerCell q => if is_int64 (q + z) then IntegerCell (q + z) else RealCell
  | RealCell => RealCell
  end.

(** ** [strings] package *)

(** [strings.TrimSpace] removes the leading and trailing runes for which
    [unicode.IsSpace] holds.  A Go string is a sequence of bytes; the white
    space runes are the six ASCII ones, U+0085 and U+00A0, and U+1680,
    U+2000 to U+200A, U+2028, U+2029, U+202F, U+205F and U+3000, met here
    in their UTF-8 encoding. *)
Definition asciiSpace (c : ascii) : bool :=
  match nat_of_ascii c with
  | 9%nat | 10%nat | 11%nat | 12%nat | 13%nat | 32%nat => true
  | _ => false
  end.

Definition is_byte (c : ascii) (n : N) : bool := N.eqb (N_of_ascii c) n.

(** U+0085 is C2 85, U+00A0 is C2 A0. *)
Definition space2 (b0 b1 : ascii) : bool :=
  is_byte b0 0xC2 && (is_byte b1 0x85 || is_byte b1 0xA0).

(** U+1680 is E1 9A 80; U+2000 to U+200A are E2 80 80 to E2 80 8A; U+2028,
    U+2029 and U+202F are E2 80 A8, E2 80 A9 and E2 80 AF; U+205F is
    E2 81 9F; U+3000 is E3 80 80. *)
Definition space3 (b0 b1 b2 : ascii) : bool :=
  (is_byte b0 0xE1 && is_byte b1 0x9A && is_byte b2 0x80)
  || (is_byte b0 0xE2 && is_byte b1 0x80
      && ((N.leb 0x80 (N_of_ascii b2) && N.leb (N_of_ascii b2) 0x8A)
          || is_byte b2 0xA8 || is_byte b2 0xA9 || is_byte b2 0xAF))
  || (is_byte b0 0xE2 && is_byte b1 0x81 && is_byte b2 0x9F)
  || (is_byte b0 0xE3 && is_byte b1 0x80 && is_byte b2 0x80).

Fixpoint trimLeft (s : string) : string :=
  match s with
  | EmptyString => EmptyString
  | String b0 s1 =>
      if asciiSpace b0 then trimLeft s1
      else match s1 with
           | EmptyString => s
           | String b1 s2 =>
               if space2 b0 b1 then trimLeft s2
               else match s2 with
                    | EmptyString => s
                    | String b2 s3 => if space3 b0 b1 b2 then trimLeft s3 else s
                    end
           end
  end.

(** The same from the end, on the bytes in reverse order. *)
Fixpoint trim_reversed (l : list ascii) : list ascii :=
  match l with
  | [] => []
  | b2 :: l1 =>
      if asciiSpace b2 then trim_reversed l1
      else match l1 with
           | [] => l
           | b1 :: l2 =>
               if space2 b1 b2 then trim_reversed l2
               else match l2 with
                    | [] => l
                    | b0 :: l3 => if space3 b0 b1 b2 then trim_reversed l3 else l
                    end
           end
  end.

Definition trimRight (s : string) : string :=
  string_of_list_ascii (rev (trim_reversed (rev (list_ascii_of_string s)))).

Definition TrimSpace (s : string) : string := trimRight (trimLeft s).

(** [strings.Repeat s count] panics on a negative count. *)
Fixpoint repeat_string (s : string) (n : nat) : string :=
  match n with
  | O => EmptyString
  | S n' => s +:+ repeat_string s n'
  end.

Definition Repeat (s : string) (count : Z) : option string :=
  if count <? 0 then None else Some (repeat_string s (Z.to_nat count)).

(** [len] of a slice, as a Go [int]. *)
Definition len {A} (l : list A) : Z := Z.of_nat (length l).

(** ** models/models.go *)

Record Track : Type := mkTrack {
  Track_ID : Z;
  Track_Name : string;
  Track_Duration : Z;
  Track_MusicianID : option Z;
  Track_EnsembleID : option Z;
  Track_MusicianName : string;
  Track_EnsembleName : string
}.

(** [Record_Tracks] is a slice: [None] is the nil slice a freshly scanned row
    carries (JSON [null]), [Some nil] is [[]models.Track{}]. *)
Record Record_ : Type := mkRecord {
  Record_ID : Z;
  Record_Title : string;
  Record_Label : string;
  Record_WholesaleAddress : string;
  Record_WholesalePrice : float64;
  Record_RetailPrice : float64;
  Record_ReleaseDate : string;
  Record_SoldLastYear : Z;
  Record_SoldCurrentYear : Z;
  Record_Stock : Z;
  Record_Tracks : option (list Track)
}.

Record CartItem : Type := mkCartItem {
  CartItem_UserID : Z;
  CartItem_RecordID : Z;
  CartItem_Quantity : Z;
  CartItem_Record : option Record_
}.

Record AddTrackRequest : Type := mkAddTrackRequest {
  AddTrack_Name : string;
  AddTrack_Duration : Z
}.

Record AddMusicianRequest : Type := mkAddMusicianRequest {
  AddMusician_FirstName : string;
  AddMusician_LastName : string;
  AddMusician_Role : string;
  AddMusician_EnsembleID : option Z;
  AddMusician_Tracks : list AddTrackRequest
}.

Record AddEnsembleRequest : Type := mkAddEnsembleRequest {
  AddEnsemble_Name : string;
  AddEnsemble_Type : string;
  AddEnsemble_Tracks : list AddTrackRequest
}.

Record AddRecordRequest : Type := mkAddRecordRequest {
  AddRecord_Title : string;
  AddRecord_Label : string;
  AddRecord_WholesaleAddress : string;
  AddRecord_WholesalePrice : float64;
  AddRecord_RetailPrice : float64;
  AddRecord_ReleaseDate : string;
  AddRecord_Stock : Z;
  AddRecord_TrackIDs : list Z
}.

(** ** db/db.go: the tables of [createTables]

    A row type has one field per column.  Nullable columns the handlers
    branch on are options; the text and number columns of [records] hold what
    [AddRecordHandler] and [UpdateRecordHandler] write, which is never NULL. *)

Record UserRow : Type := mkUserRow {
  user_id : Z;
  user_first_name : string;
  user_last_name : string;
  user_username : string;
  user_email : string;
  user_password_hash : string;
  user_city : option string;
  user_role : string
}.

Record EnsembleRow : Type := mkEnsembleRow {
  ensemble_id : Z;
  ensemble_name : string;
  ensemble_type : option string
}.

Record MusicianRow : Type := mkMusicianRow {
  musician_id : Z;
  musician_first_name : string;
  musician_last_name : string;
  musician_role : option string;
  musician_ensemble_id : option Z
}.

Record TrackRow : Type := mkTrackRow {
  track_id : Z;
  track_name : string;
  track_duration : Z;
  track_musician_id : option Z;
  track_ensemble_id : option Z
}.

Record RecordTrackRow : Type := mkRecordTrackRow {
  rt_record_id : Z;
  rt_track_id : Z
}.

Record CartItemRow : Type := mkCartItemRow {
  cart_user_id : Z;
  cart_record_id : Z;
  cart_quantity : SqlInteger
}.

Record RecordRow : Type := mkRecordRow {
  record_id : Z;
  record_title : string;
  record_label : string;
  record_wholesale_address : string;
  record_wholesale_price : float64;
  record_retail_price : float64;
  record_release_date : string;
  record_sold_last_year : Z;
  record_sold_current_year : Z;
  record_stock : Z
}.

Record Store : Type := mkStore {
  users : list UserRow;
  ensembles : list EnsembleRow;
  musicians : list MusicianRow;
  tracks : list TrackRow;
  records : list RecordRow;
  record_tracks : list RecordTrackRow;
  cart_items : list CartItemRow;
  sqlite_sequence : gmap string Z
}.

Definition empty_store : Store :=
  mkStore [] [] [] [] [] [] [] ∅.

(** ** The storage engine *)

Inductive SqlError : Type :=
| ErrSyntax         (* prepare: near "...": syntax error *)
| ErrNotEnoughArgs  (* driver: not enough args to execute query *)
| ErrUnique         (* UNIQUE constraint failed: ... *)
| ErrForeignKey     (* FOREIGN KEY constraint failed *)
| ErrCheck          (* CHECK constraint failed: ... *)
| ErrFull           (* database or disk is full: no rowid left *)
| ErrScan           (* Scan: converting driver.Value type float64 to a int *)
| ErrStorage.       (* a failure the tables do not determine: I/O, busy, closed *)

Inductive SqlResult (A : Type) : Type :=
| SqlOk (a : A)
| SqlErr (e : SqlError).
Arguments SqlOk {A} a.
Arguments SqlErr {A} e.

(** [strings.Contains(err.Error(), "UNIQUE constraint failed")] *)
Definition is_unique_violation (e : SqlError) : bool :=
  match e with
  | ErrUnique => true
  | _ => false
  end.

(** What the environment does to one call of the engine: nothing, fail the
    call itself, or fail the iteration of its rows ([rows.Err()]). *)
Inductive Fault : Type :=
| NoFault
| FailCall
| FailRows.

(** The faults of one request, indexed by the position of the call. *)
Definition Faults : Type := nat -> Fault.

Definition healthy : Faults := fun _ => NoFault.

(** The rows of a query and the value of [rows.Err()] after the loop; an
    iteration that fails does so before its first row. *)
Definition Rows (A : Type) : Type := (list A * option SqlError)%type.

Definition deliver {A} (f : Fault) (rows : list A) : SqlResult (Rows A) :=
  match f with
  | NoFault => SqlOk (rows, None)
  | FailCall => SqlErr ErrStorage
  | FailRows => SqlOk ([], Some ErrStorage)
  end.

(** *** Statement preparation: the list after IN

    The handlers assemble the operand list of an IN clause as text.  The
    engine splits it into tokens (a double-quoted run is an identifier, a
    doubled quote inside it stands for one quote) and accepts a parenthesised,
    comma-separated list of bind parameters; an operand directly followed by
    another operand is a syntax error. *)

Inductive Token : Type :=
| TK_LP
| TK_RP
| TK_COMMA
| TK_VARIABLE
| TK_ID
| TK_ILLEGAL.

Fixpoint tokenize (quoted : bool) (s : string) : list Token :=
  match s with
  | EmptyString => if quoted then [TK_ILLEGAL] else []
  | String c s' =>
      if quoted then
        if Ascii.eqb c dquote then
          match s' with
          | String c' s'' =>
              if Ascii.eqb c' dquote then tokenize true s''
              else TK_ID :: tokenize false s'
          | EmptyString => [TK_ID]
          end
        else tokenize true s'
      else if Ascii.eqb c "("%char then TK_LP :: tokenize false s'
      else if Ascii.eqb c ")"%char then TK_RP :: tokenize false s'
      else if Ascii.eqb c ","%char then TK_COMMA :: tokenize false s'
      else if Ascii.eqb c "?"%char then TK_VARIABLE :: tokenize false s'
      else if asciiSpace c then tokenize false s'
      else if Ascii.eqb c dquote then tokenize true s'
      else TK_ILLEGAL :: tokenize false s'
  end.

Fixpoint more_parameters (ts : list Token) (n : nat) : option nat :=
  match ts with
  | [TK_RP] => Some n
  | TK_COMMA :: TK_VARIABLE :: ts' => more_parameters ts' (S n)
  | _ => None
  end.

(** The number of bind parameters of a well-formed list, [None] otherwise. *)
Definition bind_parameters (in_list : string) : option nat :=
  match tokenize false in_list with
  | TK_LP :: TK_VARIABLE :: ts => more_parameters ts 1
  | _ => None
  end.

(** The driver binds the first arguments to the parameters and rejects a
    call with fewer arguments than parameters. *)
Definition bind (in_list : string) (args : list Z) : SqlResult (list Z) :=
  match bind_parameters in_list with
  | None => SqlErr ErrSyntax
  | Some n =>
      if (n <=? length args)%nat then SqlOk (take n args)
      else SqlErr ErrNotEnoughArgs
  end.

Definition mem (x : Z) (l : list Z) : bool := existsb (Z.eqb x) l.

(** *** Lookups *)

Definition user_exists (id : Z) (db : Store) : bool :=
  existsb (fun u => user_id u =? id) (users db).

Definition ensemble_exists (id : Z) (db : Store) : bool :=
  existsb (fun e => ensemble_id e =? id) (ensembles db).

Definition musician_exists (id : Z) (db : Store) : bool :=
  existsb (fun m => musician_id m =? id) (musicians db).

Definition track_exists (id : Z) (db : Store) : bool :=
  existsb (fun t => track_id t =? id) (tracks db).

Definition record_exists (id : Z) (db : Store) : bool :=
  existsb (fun r => record_id r =? id) (records db).

Definition find_track (id : Z) (db : Store) : option TrackRow :=
  find (fun t => track_id t =? id) (tracks db).

Definition find_record (id : Z) (db : Store) : option RecordRow :=
  find (fun r => record_id r =? id) (records db).

Definition in_cart (u r : Z) (row : CartItemRow) : bool :=
  (cart_user_id row =? u) && (cart_record_id row =? r).

Definition find_cart_item (u r : Z) (db : Store) : option CartItemRow :=
  find (in_cart u r) (cart_items db).

(** Modelled from the spec: whether the connection enforces foreign keys is
    decided by the data source name, which [main] reads from the environment
    variable DATABASE_URL and which is not in the sources.  Section 6 of the
    specification describes the engine as one with foreign keys and their
    cascade and set-null rules, and the comments of [createTables] and of
    [DeleteRecordHandler] rely on them: enforcement is on. *)
Definition foreign_keys : bool := true.

(** A nullable reference is satisfied when it is NULL or its target exists. *)
Definition reference_ok (exists_ : Z -> Store -> bool) (ref : option Z) (db : Store) : bool :=
  match ref with
  | None => true
  | Some id => negb foreign_keys || exists_ id db
  end.

(** The rows left in a child table when parents are deleted: with
    enforcement the rows that reference a deleted parent go as well. *)
Definition cascade {A} (references_deleted : A -> bool) (rows : list A) : list A :=
  if foreign_keys
  then List.filter (fun row => negb (references_deleted row)) rows
  else rows.

(** *** AUTOINCREMENT

    The new rowid is one more than the largest rowid the table has ever
    held, which [sqlite_sequence] remembers; the insert fails when no larger
    rowid exists. *)

Definition largest_rowid (table : string) (ids : list Z) (db : Store) : Z :=
  fold_right Z.max (default 0 (sqlite_sequence db !! table)) ids.

Definition new_rowid (table : string) (ids : list Z) (db : Store) : option Z :=
  let m := largest_rowid table ids db in
  if max_int64 <=? m then None else Some (m + 1).

(** *** Table updates *)

Definition with_ensembles (db : Store) (es : list EnsembleRow) (seq : gmap string Z) : Store :=
  mkStore (users db) es (musicians db) (tracks db) (records db)
          (record_tracks db) (cart_items db) seq.

Definition with_musicians (db : Store) (ms : list MusicianRow) (seq : gmap string Z) : Store :=
  mkStore (users db) (ensembles db) ms (tracks db) (records db)
          (record_tracks db) (cart_items db) seq.

Definition with_tracks (db : Store) (ts : list TrackRow) (seq : gmap string Z) : Store :=
  mkStore (users db) (ensembles db) (musicians db) ts (records db)
          (record_tracks db) (cart_items db) seq.

Definition with_records (db : Store) (rs : list RecordRow) (seq : gmap string Z) : Store :=
  mkStore (users db) (ensembles db) (musicians db) (tracks db) rs
          (record_tracks db) (cart_items db) seq.

Definition with_record_tracks (db : Store) (rts : list RecordTrackRow) : Store :=
  mkStore (users db) (ensembles db) (musicians db) (tracks db) (records db)
          rts (cart_items db) (sqlite_sequence db).

Definition with_cart_items (db : Store) (cs : list CartItemRow) : Store :=
  mkStore (users db) (ensembles db) (musicians db) (tracks db) (records db)
          (record_tracks db) cs (sqlite_sequence db).

(** A call that yields one result fails on any fault. *)
Definition faulty (f : Fault) : bool :=
  match f with
  | NoFault => false
  | _ => true
  end.

(** *** INSERT statements of the admin handlers *)

(** [INSERT INTO ensembles (name, type) VALUES (?, ?)]; [name] is UNIQUE. *)
Definition InsertEnsemble (f : Fault) (name type : string) (db : Store)
  : SqlResult (Store * Z) :=
  if faulty f then SqlErr ErrStorage
  else match new_rowid "ensembles" (map ensemble_id (ensembles db)) db with
       | None => SqlErr ErrFull
       | Some id =>
           if existsb (fun e => String.eqb (ensemble_name e) name) (ensembles db)
           then SqlErr ErrUnique
           else SqlOk (with_ensembles db
                         (ensembles db ++ [mkEnsembleRow id name (Some type)])
                         (<["ensembles" := id]> (sqlite_sequence db)), id)
       end.

(** [INSERT INTO musicians (first_name, last_name, role, ensemble_id)
     VALUES (?, ?, ?, ?)]; [ensemble_id] references [ensembles]. *)
Definition InsertMusician (f : Fault) (first last role : string)
    (ensembleID : option Z) (db : Store) : SqlResult (Store * Z) :=
  if faulty f then SqlErr ErrStorage
  else match new_rowid "musicians" (map musician_id (musicians db)) db with
       | None => SqlErr ErrFull
       | Some id =>
           if reference_ok ensemble_exists ensembleID db
           then SqlOk (with_musicians db
                         (musicians db ++ [mkMusicianRow id first last (Some role) ensembleID])
                         (<["musicians" := id]> (sqlite_sequence db)), id)
           else SqlErr ErrForeignKey
       end.

(** [CHECK ((musician_id IS NULL AND ensemble_id IS NOT NULL) OR
            (musician_id IS NOT NULL AND ensemble_id IS NULL))] *)
Definition owner_check (musicianID ensembleID : option Z) : bool :=
  match musicianID, ensembleID with
  | None, Some _ => true
  | Some _, None => true
  | _, _ => false
  end.

(** [INSERT INTO tracks (name, duration, musician_id, ensemble_id)
     VALUES (?, ?, ?, ?)] with either owner possibly the literal NULL. *)
Definition InsertTrack (f : Fault) (name : string) (duration : Z)
    (musicianID ensembleID : option Z) (db : Store) : SqlResult (Store * Z) :=
  if faulty f then SqlErr ErrStorage
  else match new_rowid "tracks" (map track_id (tracks db)) db with
       | None => SqlErr ErrFull
       | Some id =>
           if negb (owner_check musicianID ensembleID) then SqlErr ErrCheck
           else if reference_ok musician_exists musicianID db
                   && reference_ok ensemble_exists ensembleID db
           then SqlOk (with_tracks db
                         (tracks db ++ [mkTrackRow id name duration musicianID ensembleID])
                         (<["tracks" := id]> (sqlite_sequence db)), id)
           else SqlErr ErrForeignKey
       end.

(** [INSERT INTO records (title, label, wholesale_address, wholesale_price,
     retail_price, release_date, stock, sold_last_year, sold_current_year)
     VALUES (?, ?, ?, ?, ?, ?, ?, 0, 0)] *)
Definition InsertRecord (f : Fault) (req : AddRecordRequest) (db : Store)
  : SqlResult (Store * Z) :=
  if faulty f then SqlErr ErrStorage
  else match new_rowid "records" (map record_id (records db)) db with
       | None => SqlErr ErrFull
       | Some id =>
           SqlOk (with_records db
                    (records db ++
                       [mkRecordRow id (AddRecord_Title req) (AddRecord_Label req)
                          (AddRecord_WholesaleAddress req) (AddRecord_WholesalePrice req)
                          (AddRecord_RetailPrice req) (AddRecord_ReleaseDate req)
                          0 0 (AddRecord_Stock req)])
                    (<["records" := id]> (sqlite_sequence db)), id)
       end.

(** [INSERT INTO record_tracks (record_id, track_id) VALUES (?, ?)]; the pair
    is the primary key and both columns are references. *)
Definition InsertRecordTrack (f : Fault) (recordID trackID : Z) (db : Store)
  : SqlResult Store :=
  if faulty f then SqlErr ErrStorage
  else if existsb (fun rt => (rt_record_id rt =? recordID) && (rt_track_id rt =? trackID))
                  (record_tracks db)
  then SqlErr ErrUnique
  else if negb foreign_keys || (record_exists recordID db && track_exists trackID db)
  then SqlOk (with_record_tracks db (record_tracks db ++ [mkRecordTrackRow recordID trackID]))
  else SqlErr ErrForeignKey.

(** *** DELETE statements on the parents, with the ON DELETE rules *)

(** [DELETE FROM records WHERE id = ?]: the rows of [record_tracks] and
    [cart_items] that reference a deleted record go with it.  The second
    component is [RowsAffected]. *)
Definition DeleteRecord (f : Fault) (id : Z) (db : Store) : SqlResult (Store * Z) :=
  if faulty f then SqlErr ErrStorage
  else if record_exists id db
  then SqlOk (mkStore (users db) (ensembles db) (musicians db) (tracks db)
                (List.filter (fun r => negb (record_id r =? id)) (records db))
                (cascade (fun rt => rt_record_id rt =? id) (record_tracks db))
                (cascade (fun c => cart_record_id c =? id) (cart_items db))
                (sqlite_sequence db),
              len (List.filter (fun r => record_id r =? id) (records db)))
  else SqlOk (db, 0).

Definition owned_by_musician (id : Z) (t : TrackRow) : bool :=
  match track_musician_id t with
  | Some m => m =? id
  | None => false
  end.

Definition owned_by_ensemble (id : Z) (t : TrackRow) : bool :=
  match track_ensemble_id t with
  | Some e => e =? id
  | None => false
  end.

(** The tracks of a deleted owner go with it, and take their rows of
    [record_tracks] along. *)
Definition delete_tracks (gone : TrackRow -> bool) (db : Store) : Store :=
  let ids := map track_id (List.filter gone (tracks db)) in
  mkStore (users db) (ensembles db) (musicians db)
    (cascade gone (tracks db))
    (records db)
    (cascade (fun rt => mem (rt_track_id rt) ids) (record_tracks db))
    (cart_items db) (sqlite_sequence db).

(** [DELETE FROM musicians WHERE id = ?]: [tracks.musician_id] is
    ON DELETE CASCADE. *)
Definition DeleteMusician (f : Fault) (id : Z) (db : Store) : SqlResult (Store * Z) :=
  if faulty f then SqlErr ErrStorage
  else if musician_exists id db
  then let db' := delete_tracks (owned_by_musician id) db in
       SqlOk (with_musicians db'
                (List.filter (fun m => negb (musician_id m =? id)) (musicians db'))
                (sqlite_sequence db'),
              len (List.filter (fun m => musician_id m =? id) (musicians db)))
  else SqlOk (db, 0).

Definition leave_ensemble (id : Z) (m : MusicianRow) : MusicianRow :=
  match musician_ensemble_id m with
  | Some e =>
      if e =? id
      then mkMusicianRow (musician_id m) (musician_first_name m) (musician_last_name m)
             (musician_role m) None
      else m
  | None => m
  end.

(** [DELETE FROM ensembles WHERE id = ?]: [musicians.ensemble_id] is
    ON DELETE SET NULL, [tracks.ensemble_id] is ON DELETE CASCADE. *)
Definition DeleteEnsemble (f : Fault) (id : Z) (db : Store) : SqlResult (Store * Z) :=
  if faulty f then SqlErr ErrStorage
  else if ensemble_exists id db
  then let db' := delete_tracks (owned_by_ensemble id) db in
       SqlOk (mkStore (users db')
                (List.filter (fun e => negb (ensemble_id e =? id)) (ensembles db'))
                (if foreign_keys then map (leave_ensemble id) (musicians db')
                 else musicians db')
                (tracks db') (records db') (record_tracks db') (cart_items db')
                (sqlite_sequence db'),
              len (List.filter (fun e => ensemble_id e =? id) (ensembles db)))
  else SqlOk (db, 0).

(** *** Statements on [cart_items] *)

Definition add_quantity (u r q : Z) (row : CartItemRow) : CartItemRow :=
  if in_cart u r row
  then mkCartItemRow (cart_user_id row) (cart_record_id row) (sqlite_add (cart_quantity row) q)
  else row.

Definition set_quantity (u r q : Z) (row : CartItemRow) : CartItemRow :=
  if in_cart u r row
  then mkCartItemRow (cart_user_id row) (cart_record_id row) (IntegerCell q)
  else row.

(** [INSERT INTO cart_items (user_id, record_id, quantity) VALUES (?, ?, ?)
     ON CONFLICT (user_id, record_id)
     DO UPDATE SET quantity = quantity + excluded.quantity] *)
Definition UpsertCartItem (f : Fault) (u r q : Z) (db : Store) : SqlResult Store :=
  if faulty f then SqlErr ErrStorage
  else if existsb (in_cart u r) (cart_items db)
  then SqlOk (with_cart_items db (map (add_quantity u r q) (cart_items db)))
  else if negb foreign_keys || (user_exists u db && record_exists r db)
  then SqlOk (with_cart_items db (cart_items db ++ [mkCartItemRow u r (IntegerCell q)]))
  else SqlErr ErrForeignKey.

(** [DELETE FROM cart_items WHERE user_id = ? AND record_id = ?] *)
Definition DeleteCartItem (f : Fault) (u r : Z) (db : Store) : SqlResult (Store * Z) :=
  if faulty f then SqlErr ErrStorage
  else SqlOk (with_cart_items db
                (List.filter (fun c => negb (in_cart u r c)) (cart_items db)),
              len (List.filter (in_cart u r) (cart_items db))).

(** [UPDATE cart_items SET quantity = ? WHERE user_id = ? AND record_id = ?] *)
Definition UpdateCartItem (f : Fault) (q u r : Z) (db : Store) : SqlResult (Store * Z) :=
  if faulty f then SqlErr ErrStorage
  else SqlOk (with_cart_items db (map (set_quantity u r q) (cart_items db)),
              len (List.filter (in_cart u r) (cart_items db))).

(** *** Queries *)

(** [SELECT EXISTS(SELECT 1 FROM records WHERE id = ?)] *)
Definition QueryRecordExists (f : Fault) (id : Z) (db : Store) : SqlResult bool :=
  if faulty f then SqlErr ErrStorage else SqlOk (record_exists id db).

(** [SELECT EXISTS(SELECT 1 FROM tracks WHERE id = ?)] *)
Definition QueryTrackExists (f : Fault) (id : Z) (db : Store) : SqlResult bool :=
  if faulty f then SqlErr ErrStorage else SqlOk (track_exists id db).

(** [SELECT stock FROM records WHERE id = ?]; [None] is [sql.ErrNoRows]. *)
Definition QueryRecordStock (f : Fault) (id : Z) (db : Store) : SqlResult (option Z) :=
  if faulty f then SqlErr ErrStorage
  else SqlOk (record_stock <$> find_record id db).

(** [SELECT id, title, ..., stock FROM records] *)
Definition QueryRecords (f : Fault) (db : Store) : SqlResult (Rows RecordRow) :=
  deliver f (records db).

(** The queries that end with an IN list.  [db.Query] first obtains a
    connection, then the driver prepares the text and binds the arguments:
    a call the environment fails (the database is closed, no connection can
    be opened) returns its error before the text is looked at, as it does
    for the other statements; a failure of the iteration comes after the
    statement was prepared. *)

(** [SELECT id, title, ..., stock FROM records WHERE id IN] followed by the
    given list. *)
Definition QueryRecordsIn (f : Fault) (in_list : string) (args : list Z) (db : Store)
  : SqlResult (Rows RecordRow) :=
  match f with
  | FailCall => SqlErr ErrStorage
  | _ =>
      match bind in_list args with
      | SqlErr e => SqlErr e
      | SqlOk ids => deliver f (List.filter (fun r => mem (record_id r) ids) (records db))
      end
  end.

(** [SELECT record_id, track_id FROM record_tracks WHERE record_id IN]
    followed by the given list. *)
Definition QueryRecordTracksIn (f : Fault) (in_list : string) (args : list Z) (db : Store)
  : SqlResult (Rows RecordTrackRow) :=
  match f with
  | FailCall => SqlErr ErrStorage
  | _ =>
      match bind in_list args with
      | SqlErr e => SqlErr e
      | SqlOk ids =>
          deliver f (List.filter (fun rt => mem (rt_record_id rt) ids) (record_tracks db))
      end
  end.

(** A row of the tracks query: the track and, through the two LEFT JOINs,
    the names of its musician and its ensemble. *)
Record TrackOwnerRow : Type := mkTrackOwnerRow {
  row_id : Z;
  row_name : string;
  row_duration : Z;
  row_musician_id : option Z;
  row_ensemble_id : option Z;
  row_first_name : option string;
  row_last_name : option string;
  row_ensemble_name : option string
}.

Definition join_owners (db : Store) (t : TrackRow) : TrackOwnerRow :=
  let m := id ← track_musician_id t;
           find (fun m => musician_id m =? id) (musicians db) in
  let e := id ← track_ensemble_id t;
           find (fun e => ensemble_id e =? id) (ensembles db) in
  mkTrackOwnerRow (track_id t) (track_name t) (track_duration t)
    (track_musician_id t) (track_ensemble_id t)
    (musician_first_name <$> m) (musician_last_name <$> m) (ensemble_name <$> e).

(** [SELECT t.id, t.name, t.duration, t.musician_id, t.ensemble_id,
            m.first_name, m.last_name, e.name
     FROM tracks t
     LEFT JOIN musicians m ON t.musician_id = m.id
     LEFT JOIN ensembles e ON t.ensemble_id = e.id
     WHERE t.id IN] followed by the given list. *)
Definition QueryTracksIn (f : Fault) (in_list : string) (args : list Z) (db : Store)
  : SqlResult (Rows TrackOwnerRow) :=
  match f with
  | FailCall => SqlErr ErrStorage
  | _ =>
      match bind in_list args with
      | SqlErr e => SqlErr e
      | SqlOk ids =>
          deliver f (map (join_owners db)
                       (List.filter (fun t => mem (track_id t) ids) (tracks db)))
      end
  end.

(** The same query without the WHERE clause. *)
Definition QueryTracks (f : Fault) (db : Store) : SqlResult (Rows TrackOwnerRow) :=
  deliver f (map (join_owners db) (tracks db)).

(** [SELECT user_id, record_id, quantity FROM cart_items WHERE user_id = ?]
    The statement has no ORDER BY, which leaves the order of the rows to the
    engine (SQLite walks the index of the primary key).  The rows are listed
    here as [cart_items] holds them; what is proved of the list
    [GetCartHandler] answers with is stated up to the order of its items. *)
Definition QueryCartItems (f : Fault) (u : Z) (db : Store) : SqlResult (Rows CartItemRow) :=
  deliver f (List.filter (fun c => cart_user_id c =? u) (cart_items db)).

(** ** Responses and the log *)

Definition StatusOK : Z := 200.
Definition StatusCreated : Z := 201.
Definition StatusBadRequest : Z := 400.
Definition StatusNotFound : Z := 404.
Definition StatusConflict : Z := 409.
Definition StatusInternalServerError : Z := 500.

(** What a handler writes to the client; [panicked] is a run-time panic of
    the handler, which sends nothing. *)
Inductive Response (A : Type) : Type :=
| respondWithError (code : Z) (message : string)
| respondWithJSON (code : Z) (payload : A)
| panicked.
Arguments respondWithError {A} code message.
Arguments respondWithJSON {A} code payload.
Arguments panicked {A}.

Inductive LogArg : Type :=
| ArgInt (z : Z)
| ArgString (s : string)
| ArgError (e : SqlError).

(** One call of [log.Printf]: the format and its arguments. *)
Record LogLine : Type := Printf {
  log_format : string;
  log_args : list LogArg
}.

(** The outcome of a handler outside a transaction. *)
Record Outcome (A : Type) : Type := mkOutcome {
  response : Response A;
  store : Store;
  logged : list LogLine
}.
Arguments mkOutcome {A} response store logged.
Arguments response {A} o.
Arguments store {A} o.
Arguments logged {A} o.

(** ** handlers/handlers.go: the loops the read handlers share

    [GetRecordsHandler], [GetCartHandler] and the report handlers repeat the
    same statements over differently named variables; each repeated block is
    one definition here. *)

(** The Go expression ["(?" + strings.Repeat(",?", n-1) + ")"] that ends
    the queries built in an interpreted string literal. *)
Definition placeholders (n : Z) : option string :=
  s ← Repeat ",?" (n - 1); Some ("(?" +:+ s +:+ ")").

(** The end of the tracks query.  That query is written in a raw string
    literal which is closed only after the final parenthesis, so the text
    sent to the engine ends with the characters
    [(?" + strings.Repeat(",?", len(ids)-1) + ")] whatever the slice [ids]
    holds; [ids] is the name of the slice in the handler. *)
Definition raw_placeholders (ids : string) : string :=
  "(?" +:+ String dquote " + strings.Repeat(" +:+ String dquote ",?"
       +:+ String dquote (", len(" +:+ ids +:+ ")-1) + ") +:+ String dquote ")".

(** [rows.Scan] into a [models.Record]; [Tracks] stays the nil slice. *)
Definition scan_record (row : RecordRow) : Record_ :=
  mkRecord (record_id row) (record_title row) (record_label row)
    (record_wholesale_address row) (record_wholesale_price row)
    (record_retail_price row) (record_release_date row)
    (record_sold_last_year row) (record_sold_current_year row)
    (record_stock row) None.

Definition set_Tracks (rec : Record_) (ts : option (list Track)) : Record_ :=
  mkRecord (Record_ID rec) (Record_Title rec) (Record_Label rec)
    (Record_WholesaleAddress rec) (Record_WholesalePrice rec)
    (Record_RetailPrice rec) (Record_ReleaseDate rec)
    (Record_SoldLastYear rec) (Record_SoldCurrentYear rec)
    (Record_Stock rec) ts.

(** The variables of the loop over the rows of [record_tracks]. *)
Record Links : Type := mkLinks {
  recordTrackLinks : gmap Z (list Z);
  trackIDs : list Z;
  trackIDSet : gmap Z bool
}.

Definition link_row (st : Links) (row : RecordTrackRow) : Links :=
  let recordID := rt_record_id row in
  let trackID := rt_track_id row in
  let links := <[recordID := default [] (recordTrackLinks st !! recordID) ++ [trackID]]>
                 (recordTrackLinks st) in
  match trackIDSet st !! trackID with
  | Some _ => mkLinks links (trackIDs st) (trackIDSet st)
  | None => mkLinks links (trackIDs st ++ [trackID]) (<[trackID := true]> (trackIDSet st))
  end.

Definition link_rows (rows : list RecordTrackRow) : Links :=
  foldl link_row (mkLinks ∅ [] ∅) rows.

(** [sql.NullString]: [Valid] and [String]. *)
Definition Valid {A} (n : option A) : bool :=
  match n with
  | Some _ => true
  | None => false
  end.

Definition String_ (n : option string) : string := default "" n.

Definition UnknownMusician : string := "Unknown Musician".
Definition UnknownEnsemble : string := "Unknown Ensemble".

(** The body of the loop over the rows of the tracks query, after [Scan]. *)
Definition scan_track (row : TrackOwnerRow) : Track :=
  let musicianName :=
    match row_musician_id row with
    | Some _ =>
        if Valid (row_first_name row) || Valid (row_last_name row)
        then TrimSpace (String_ (row_first_name row) +:+ " " +:+ String_ (row_last_name row))
        else UnknownMusician
    | None => ""
    end in
  let ensembleName :=
    match row_ensemble_id row with
    | Some _ =>
        if Valid (row_ensemble_name row)
        then String_ (row_ensemble_name row)
        else UnknownEnsemble
    | None => ""
    end in
  mkTrack (row_id row) (row_name row) (row_duration row)
    (row_musician_id row) (row_ensemble_id row) musicianName ensembleName.

Definition track_rows (rows : list TrackOwnerRow) : gmap Z Track :=
  foldl (fun tracksMap row => let t := scan_track row in <[Track_ID t := t]> tracksMap)
        ∅ rows.

(** The inner loop of the assembly: the tracks found in [tracksMap] are
    appended, a linked id that is not there is reported. *)
Fixpoint append_linked (place : string) (tracksMap : gmap Z Track) (recordID : Z)
    (linkedTrackIDs : list Z) (Tracks : list Track) : list Track * list LogLine :=
  match linkedTrackIDs with
  | [] => (Tracks, [])
  | trackID :: rest =>
      match tracksMap !! trackID with
      | Some track => append_linked place tracksMap recordID rest (Tracks ++ [track])
      | None =>
          let '(ts, lg) := append_linked place tracksMap recordID rest Tracks in
          (ts, Printf ("Warning: Linked track ID %d for record %d not found in " +:+ place)
                      [ArgInt trackID; ArgInt recordID] :: lg)
      end
  end.

(** One round of the assembly loop on a record: [Tracks] becomes the empty
    slice, then the linked tracks are appended. *)
Definition attach_tracks (place : string) (links : gmap Z (list Z))
    (tracksMap : gmap Z Track) (rec : Record_) : Record_ * list LogLine :=
  match links !! Record_ID rec with
  | None => (set_Tracks rec (Some []), [])
  | Some linkedTrackIDs =>
      let '(ts, lg) := append_linked place tracksMap (Record_ID rec) linkedTrackIDs [] in
      (set_Tracks rec (Some ts), lg)
  end.

Fixpoint attach_all (place : string) (links : gmap Z (list Z))
    (tracksMap : gmap Z Track) (records : list Record_) : list Record_ * list LogLine :=
  match records with
  | [] => ([], [])
  | rec :: rest =>
      let '(rec', lg) := attach_tracks place links tracksMap rec in
      let '(rest', lg') := attach_all place links tracksMap rest in
      (rec' :: rest', lg ++ lg')
  end.

(** The loop taken when no track is linked at all. *)
Definition no_tracks (records : list Record_) : list Record_ :=
  map (fun rec => set_Tracks rec (Some [])) records.

(** ** GetRecordsHandler *)

(** What the handler does with the outcome of the tracks query: the two
    error exits of step 3, and steps 4 and 5. *)
Definition tracks_fetched (db : Store) (records : list Record_) (st : Links)
    (result : SqlResult (Rows TrackOwnerRow)) : Outcome (list Record_) :=
  match result with
  | SqlErr e =>
      mkOutcome (respondWithError StatusInternalServerError "Database error fetching tracks")
        db [Printf "Error querying tracks: %v" [ArgError e]]
  | SqlOk (trackRows, Some e) =>
      mkOutcome (respondWithError StatusInternalServerError "Database error processing tracks")
        db [Printf "Error after iterating tracks rows: %v" [ArgError e]]
  | SqlOk (trackRows, None) =>
      let tracksMap := track_rows trackRows in
      (* 4 *)
      let '(records', lg) :=
        attach_all "fetched tracks map" (recordTrackLinks st) tracksMap records in
      (* 5 *)
      mkOutcome (respondWithJSON StatusOK records') db lg
  end.

Definition GetRecordsHandler (io : Faults) (db : Store) : Outcome (list Record_) :=
  let fail msg lg := mkOutcome (respondWithError StatusInternalServerError msg) db lg in
  (* 1 *)
  match QueryRecords (io 0%nat) db with
  | SqlErr e =>
      fail "Database error fetching records" [Printf "Error querying records: %v" [ArgError e]]
  | SqlOk (rows, Some e) =>
      fail "Database error processing records"
           [Printf "Error after iterating records rows: %v" [ArgError e]]
  | SqlOk (rows, None) =>
      let records := map scan_record rows in
      let recordIDs := map Record_ID records in
      if len records =? 0 then mkOutcome (respondWithJSON StatusOK records) db []
      else
      (* 2 *)
      match placeholders (len recordIDs) with
      | None => mkOutcome panicked db []
      | Some in_list =>
      match QueryRecordTracksIn (io 1%nat) in_list recordIDs db with
      | SqlErr e =>
          fail "Database error fetching record tracks links"
               [Printf "Error querying record_tracks: %v" [ArgError e]]
      | SqlOk (linkRows, Some e) =>
          fail "Database error processing record tracks links"
               [Printf "Error after iterating record_tracks rows: %v" [ArgError e]]
      | SqlOk (linkRows, None) =>
          let st := link_rows linkRows in
          if len (trackIDs st) =? 0
          then mkOutcome (respondWithJSON StatusOK (no_tracks records)) db []
          else
          (* 3 *)
          tracks_fetched db records st
            (QueryTracksIn (io 2%nat) (raw_placeholders "trackIDs") (trackIDs st) db)
      end
      end
  end.

(** ** Cart handlers

    [userID] is the [UserID] of the claims the authentication middleware put
    into the request context.  A number of the request that does not fit a Go
    [int] is refused by [decoder.Decode] and by [strconv.Atoi]. *)

Record CartRequest : Type := mkCartRequest {
  RecordID : Z;
  Quantity : Z
}.

Definition AddToCartHandler (io : Faults) (userID : Z) (req : CartRequest) (db : Store)
  : Outcome string :=
  if negb (is_int64 (RecordID req) && is_int64 (Quantity req))
  then mkOutcome (respondWithError StatusBadRequest "Invalid request payload") db []
  else if (RecordID req <=? 0) || (Quantity req <=? 0)
  then mkOutcome (respondWithError StatusBadRequest
                    "Valid record ID and quantity (>= 1) are required") db []
  else
    match QueryRecordExists (io 0%nat) (RecordID req) db with
    | SqlErr e =>
        mkOutcome (respondWithError StatusInternalServerError "Database error") db
          [Printf "Database error checking record existence: %v" [ArgError e]]
    | SqlOk false =>
        mkOutcome (respondWithError StatusNotFound "Record not found") db []
    | SqlOk true =>
        match UpsertCartItem (io 1%nat) userID (RecordID req) (Quantity req) db with
        | SqlErr e =>
            mkOutcome (respondWithError StatusInternalServerError
                         "Failed to add item to cart") db
              [Printf "Database error adding/updating cart item: %v" [ArgError e]]
        | SqlOk db' =>
            mkOutcome (respondWithJSON StatusOK "Item added to cart") db' []
        end
    end.

Definition UpdateCartHandler (io : Faults) (userID : Z) (recordID : Z) (quantity : Z)
    (db : Store) : Outcome string :=
  if negb (is_int64 recordID) || (recordID <=? 0)
  then mkOutcome (respondWithError StatusBadRequest "Invalid record ID in URL") db []
  else if negb (is_int64 quantity)
  then mkOutcome (respondWithError StatusBadRequest "Invalid request payload") db []
  else if quantity <? 0
  then mkOutcome (respondWithError StatusBadRequest "Quantity cannot be negative") db []
  else if quantity =? 0
  then
    match DeleteCartItem (io 0%nat) userID recordID db with
    | SqlErr e =>
        mkOutcome (respondWithError StatusInternalServerError
                     "Failed to remove item from cart") db
          [Printf "Database error deleting cart item: %v" [ArgError e]]
    | SqlOk (db', rowsAffected) =>
        if rowsAffected =? 0
        then mkOutcome (respondWithError StatusNotFound "Item not found in cart") db' []
        else mkOutcome (respondWithJSON StatusOK "Item removed from cart") db' []
    end
  else
    match QueryRecordStock (io 0%nat) recordID db with
    | SqlOk None =>
        mkOutcome (respondWithError StatusNotFound "Record not found") db []
    | SqlErr e =>
        mkOutcome (respondWithError StatusInternalServerError "Database error") db
          [Printf "Database error checking record stock for update: %v" [ArgError e]]
    | SqlOk (Some stock) =>
        match UpdateCartItem (io 1%nat) quantity userID recordID db with
        | SqlErr e =>
            mkOutcome (respondWithError StatusInternalServerError
                         "Failed to update item quantity in cart") db
              [Printf "Database error updating cart item: %v" [ArgError e]]
        | SqlOk (db', rowsAffected) =>
            if rowsAffected =? 0
            then mkOutcome (respondWithError StatusNotFound "Item not found in cart") db' []
            else mkOutcome (respondWithJSON StatusOK "Cart item quantity updated") db' []
        end
    end.

Definition RemoveFromCartHandler (io : Faults) (userID : Z) (recordID : Z) (db : Store)
  : Outcome string :=
  if negb (is_int64 recordID) || (recordID <=? 0)
  then mkOutcome (respondWithError StatusBadRequest "Invalid record ID in URL") db []
  else
    match DeleteCartItem (io 0%nat) userID recordID db with
    | SqlErr e =>
        mkOutcome (respondWithError StatusInternalServerError
                     "Failed to remove item from cart") db
          [Printf "Database error deleting cart item: %v" [ArgError e]]
    | SqlOk (db', rowsAffected) =>
        if rowsAffected =? 0
        then mkOutcome (respondWithError StatusNotFound "Item not found in cart") db' []
        else mkOutcome (respondWithJSON StatusOK "Item removed from cart") db' []
    end.

(** *** GetCartHandler *)

(** The variables of the loop over the rows of [cart_items]. *)
Record CartRows : Type := mkCartRows {
  cartItems : list CartItem;
  recordIDs : list Z;
  recordIDSet : gmap Z bool;
  scanLog : list LogLine
}.

(** [Scan] cannot store a REAL quantity into an [int]; the row is skipped. *)
Definition cart_row (st : CartRows) (row : CartItemRow) : CartRows :=
  match cart_quantity row with
  | RealCell =>
      mkCartRows (cartItems st) (recordIDs st) (recordIDSet st)
        (scanLog st ++ [Printf "Error scanning cart item row: %v" [ArgError ErrScan]])
  | IntegerCell q =>
      let item := mkCartItem (cart_user_id row) (cart_record_id row) q None in
      match recordIDSet st !! cart_record_id row with
      | Some _ =>
          mkCartRows (cartItems st ++ [item]) (recordIDs st) (recordIDSet st) (scanLog st)
      | None =>
          mkCartRows (cartItems st ++ [item]) (recordIDs st ++ [cart_record_id row])
            (<[cart_record_id row := true]> (recordIDSet st)) (scanLog st)
      end
  end.

Definition cart_rows (rows : list CartItemRow) : CartRows :=
  foldl cart_row (mkCartRows [] [] ∅ []) rows.

(** The variables of the loop over the rows of [records]. *)
Record RecordRows : Type := mkRecordRows {
  recordsMap : gmap Z Record_;
  fetchedRecordIDs : list Z;
  fetchedRecordIDSet : gmap Z bool
}.

Definition record_row (st : RecordRows) (row : RecordRow) : RecordRows :=
  let rec := scan_record row in
  let m := <[Record_ID rec := rec]> (recordsMap st) in
  match fetchedRecordIDSet st !! Record_ID rec with
  | Some _ => mkRecordRows m (fetchedRecordIDs st) (fetchedRecordIDSet st)
  | None =>
      mkRecordRows m (fetchedRecordIDs st ++ [Record_ID rec])
        (<[Record_ID rec := true]> (fetchedRecordIDSet st))
  end.

Definition record_rows (rows : list RecordRow) : RecordRows :=
  foldl record_row (mkRecordRows ∅ [] ∅) rows.

Definition set_Record (item : CartItem) (rec : option Record_) : CartItem :=
  mkCartItem (CartItem_UserID item) (CartItem_RecordID item) (CartItem_Quantity item) rec.

(** One round of the final loop: an item whose record is not in
    [recordsMap] keeps a nil [Record] and stays in the slice. *)
Definition attach_record (recordsMap : gmap Z Record_) (links : gmap Z (list Z))
    (cartTracksMap : gmap Z Track) (item : CartItem) : CartItem * list LogLine :=
  match recordsMap !! CartItem_RecordID item with
  | None =>
      (set_Record item None,
       [Printf "Warning: Record ID %d for cart item not found in fetched records map"
               [ArgInt (CartItem_RecordID item)]])
  | Some record =>
      let '(rec', lg) := attach_tracks "fetched cart tracks map" links cartTracksMap record in
      (set_Record item (Some rec'), lg)
  end.

Fixpoint attach_records (recordsMap : gmap Z Record_) (links : gmap Z (list Z))
    (cartTracksMap : gmap Z Track) (items : list CartItem) : list CartItem * list LogLine :=
  match items with
  | [] => ([], [])
  | item :: rest =>
      let '(item', lg) := attach_record recordsMap links cartTracksMap item in
      let '(rest', lg') := attach_records recordsMap links cartTracksMap rest in
      (item' :: rest', lg ++ lg')
  end.

Definition GetCartHandler (io : Faults) (userID : Z) (db : Store)
  : Outcome (list CartItem) :=
  let fail msg lg := mkOutcome (respondWithError StatusInternalServerError msg) db lg in
  (* 1 *)
  match QueryCartItems (io 0%nat) userID db with
  | SqlErr e =>
      fail "Database error fetching cart"
           [Printf "Database error fetching cart items: %v" [ArgError e]]
  | SqlOk (rows, Some e) =>
      fail "Database error processing cart items"
           (scanLog (cart_rows rows) ++
            [Printf "Error after iterating cart item rows: %v" [ArgError e]])
  | SqlOk (rows, None) =>
      let cart := cart_rows rows in
      if len (cartItems cart) =? 0
      then mkOutcome (respondWithJSON StatusOK (cartItems cart)) db (scanLog cart)
      else
      (* 2 *)
      match placeholders (len (recordIDs cart)) with
      | None => mkOutcome panicked db (scanLog cart)
      | Some in_list =>
      match QueryRecordsIn (io 1%nat) in_list (recordIDs cart) db with
      | SqlErr e =>
          fail "Database error fetching records for cart"
               (scanLog cart ++ [Printf "Error querying records for cart: %v" [ArgError e]])
      | SqlOk (recordRows, Some e) =>
          fail "Database error processing records for cart"
               (scanLog cart ++
                [Printf "Error after iterating record rows for cart: %v" [ArgError e]])
      | SqlOk (recordRows, None) =>
          let fetched := record_rows recordRows in
          if len (fetchedRecordIDs fetched) =? 0
          then mkOutcome (respondWithJSON StatusOK (cartItems cart)) db (scanLog cart)
          else
          (* 3 *)
          match placeholders (len (fetchedRecordIDs fetched)) with
          | None => mkOutcome panicked db (scanLog cart)
          | Some in_list' =>
          match QueryRecordTracksIn (io 2%nat) in_list' (fetchedRecordIDs fetched) db with
          | SqlErr e =>
              fail "Database error fetching record tracks links for cart"
                   (scanLog cart ++
                    [Printf "Error querying record_tracks for cart: %v" [ArgError e]])
          | SqlOk (linkRows, Some e) =>
              fail "Database error processing record tracks links for cart"
                   (scanLog cart ++
                    [Printf "Error after iterating record_tracks rows for cart: %v"
                            [ArgError e]])
          | SqlOk (linkRows, None) =>
              let st := link_rows linkRows in
              (* 4 *)
              let fetchTracks : SqlResult (Rows TrackOwnerRow) :=
                if 0 <? len (trackIDs st)
                then QueryTracksIn (io 3%nat) (raw_placeholders "cartTrackIDs") (trackIDs st) db
                else SqlOk ([], None) in
              match fetchTracks with
              | SqlErr e =>
                  fail "Database error fetching tracks for cart"
                       (scanLog cart ++
                        [Printf "Error querying tracks for cart: %v" [ArgError e]])
              | SqlOk (trackRows, Some e) =>
                  fail "Database error processing tracks for cart"
                       (scanLog cart ++
                        [Printf "Error after iterating tracks rows for cart: %v" [ArgError e]])
              | SqlOk (trackRows, None) =>
                  let cartTracksMap := track_rows trackRows in
                  (* 5 *)
                  let '(items, lg) :=
                    attach_records (recordsMap fetched) (recordTrackLinks st)
                                   cartTracksMap (cartItems cart) in
                  mkOutcome (respondWithJSON StatusOK items) db (scanLog cart ++ lg)
              end
          end
          end
      end
      end
  end.

(** ** Admin handlers

    The three creating handlers run their statements in a transaction.  The
    statements of an open transaction work on a pending copy of the store;
    [Commit] makes the copy the store, [Rollback] drops it.  Each handler
    defers a function that rolls back when the variable [err] of the
    function body is not nil at the return. *)

Inductive Tx : Type :=
| NoTx                      (* [db.Begin] was not reached or failed *)
| TxOpen (pending : Store)  (* begun, neither committed nor rolled back *)
| TxCommitted
| TxRolledBack.

(** What a handler body leaves at a [return]: the response sent, the value
    of the outer [err], the store, the transaction and the log. *)
Record Returned (A : Type) : Type := mkReturned {
  sent : Response A;
  err : option SqlError;
  committed : Store;
  tx : Tx;
  lines : list LogLine
}.
Arguments mkReturned {A} sent err committed tx lines.
Arguments sent {A} r.
Arguments err {A} r.
Arguments committed {A} r.
Arguments tx {A} r.
Arguments lines {A} r.

(** The deferred function: [tx.Rollback()] when [err != nil].  On a
    transaction that is already finished [Rollback] does nothing. *)
Definition deferred {A} (r : Returned A) : Returned A :=
  match err r, tx r with
  | Some _, TxOpen _ => mkReturned (sent r) (err r) (committed r) TxRolledBack (lines r)
  | _, _ => r
  end.

(** [tx.Commit()]: on success the pending copy becomes the store; when the
    commit fails the driver rolls the transaction back and it is finished. *)
Definition Commit {A} (f : Fault) (db work : Store) (created : Response A)
    (what : string) (lg : list LogLine) : Returned A :=
  if faulty f
  then mkReturned (respondWithError StatusInternalServerError
                     "Database error committing transaction")
         (Some ErrStorage) db TxRolledBack
         (lg ++ [Printf ("Failed to commit transaction for " +:+ what +:+ ": %v")
                        [ArgError ErrStorage]])
  else mkReturned created None work TxCommitted lg.

(** The result of a loop of statements: the error it stopped with, if any,
    the pending store, the position of the next call and the log. *)
Record Looped : Type := mkLooped {
  stopped : option SqlError;
  pending_store : Store;
  next_call : nat;
  loop_lines : list LogLine
}.

(** The loop over [req.Tracks]: a track without a name or with a
    non-positive duration is skipped.  [owner] is "musician" or "ensemble",
    [musicianID] and [ensembleID] are the owner columns of the statement, one
    of them the literal NULL. *)
Fixpoint insert_tracks (io : Faults) (k : nat) (owner : string) (ownerID : Z)
    (musicianID ensembleID : option Z) (reqs : list AddTrackRequest) (work : Store)
  : Looped :=
  match reqs with
  | [] => mkLooped None work k []
  | trackReq :: rest =>
      if String.eqb (AddTrack_Name trackReq) "" || (AddTrack_Duration trackReq <=? 0)
      then
        let r := insert_tracks io k owner ownerID musicianID ensembleID rest work in
        mkLooped (stopped r) (pending_store r) (next_call r)
          (Printf ("Skipping track with invalid data for " +:+ owner
                   +:+ " %d: Name='%s', Duration=%d")
                  [ArgInt ownerID; ArgString (AddTrack_Name trackReq);
                   ArgInt (AddTrack_Duration trackReq)] :: loop_lines r)
      else
        match InsertTrack (io k) (AddTrack_Name trackReq) (AddTrack_Duration trackReq)
                musicianID ensembleID work with
        | SqlErr e =>
            mkLooped (Some e) work (S k)
              [Printf ("Database error inserting track for " +:+ owner +:+ " %d: %v")
                      [ArgInt ownerID; ArgError e]]
        | SqlOk (work', _) =>
            insert_tracks io (S k) owner ownerID musicianID ensembleID rest work'
        end
  end.

Definition AddMusicianHandler (io : Faults) (req : AddMusicianRequest) (db : Store)
  : Returned (string * Z) :=
  if String.eqb (AddMusician_FirstName req) "" || String.eqb (AddMusician_LastName req) ""
  then mkReturned (respondWithError StatusBadRequest
                     "First name and last name are required for a musician")
         None db NoTx []
  else if faulty (io 0%nat)
  then mkReturned (respondWithError StatusInternalServerError
                     "Database error starting transaction")
         (Some ErrStorage) db NoTx
         [Printf "Failed to start transaction: %v" [ArgError ErrStorage]]
  else deferred
    (* 1 *)
    match InsertMusician (io 1%nat) (AddMusician_FirstName req) (AddMusician_LastName req)
            (AddMusician_Role req) (AddMusician_EnsembleID req) db with
    | SqlErr e =>
        mkReturned (respondWithError StatusInternalServerError "Failed to add musician")
          (Some e) db (TxOpen db)
          [Printf "Database error inserting musician: %v" [ArgError e]]
    | SqlOk (work, musicianID) =>
        (* 2 *)
        let r := insert_tracks io 2 "musician" musicianID (Some musicianID) None
                   (AddMusician_Tracks req) work in
        match stopped r with
        | Some e =>
            mkReturned (respondWithError StatusInternalServerError
                          "Failed to add musician's tracks")
              (Some e) db (TxOpen (pending_store r)) (loop_lines r)
        | None =>
            (* 3 *)
            Commit (io (next_call r)) db (pending_store r)
              (respondWithJSON StatusCreated ("Musician added successfully", musicianID))
              "musician" (loop_lines r)
        end
    end.

Definition AddEnsembleHandler (io : Faults) (req : AddEnsembleRequest) (db : Store)
  : Returned (string * Z) :=
  if String.eqb (AddEnsemble_Name req) ""
  then mkReturned (respondWithError StatusBadRequest "Name is required for an ensemble")
         None db NoTx []
  else if faulty (io 0%nat)
  then mkReturned (respondWithError StatusInternalServerError
                     "Database error starting transaction")
         (Some ErrStorage) db NoTx
         [Printf "Failed to start transaction: %v" [ArgError ErrStorage]]
  else deferred
    (* 1 *)
    match InsertEnsemble (io 1%nat) (AddEnsemble_Name req) (AddEnsemble_Type req) db with
    | SqlErr e =>
        if is_unique_violation e
        then (* err = nil *)
          mkReturned (respondWithError StatusConflict "Ensemble name already exists")
            None db (TxOpen db) []
        else
          mkReturned (respondWithError StatusInternalServerError "Failed to add ensemble")
            (Some e) db (TxOpen db)
            [Printf "Database error inserting ensemble: %v" [ArgError e]]
    | SqlOk (work, ensembleID) =>
        (* 2 *)
        let r := insert_tracks io 2 "ensemble" ensembleID None (Some ensembleID)
                   (AddEnsemble_Tracks req) work in
        match stopped r with
        | Some e =>
            mkReturned (respondWithError StatusInternalServerError
                          "Failed to add ensemble's tracks")
              (Some e) db (TxOpen (pending_store r)) (loop_lines r)
        | None =>
            (* 3 *)
            Commit (io (next_call r)) db (pending_store r)
              (respondWithJSON StatusCreated ("Ensemble added successfully", ensembleID))
              "ensemble" (loop_lines r)
        end
    end.

(** The loop over [req.TrackIDs].  The existence of the track is asked of
    [db], the connection pool, not of the transaction.  Inside the block
    [if len(req.TrackIDs) > 0] the name [err] is a new variable declared by
    [stmt, err := tx.Prepare(...)]: an error of [stmt.Exec] is stored
    there, and [stopped] is that inner variable. *)
Fixpoint link_tracks (io : Faults) (k : nat) (db : Store) (recordID : Z)
    (ids : list Z) (work : Store) : Looped :=
  match ids with
  | [] => mkLooped None work k []
  | trackID :: rest =>
      let skip (msg : string) (k' : nat) :=
        let r := link_tracks io k' db recordID rest work in
        mkLooped (stopped r) (pending_store r) (next_call r)
          (Printf msg [ArgInt trackID; ArgInt recordID] :: loop_lines r) in
      match QueryTrackExists (io k) trackID db with
      | SqlOk true =>
          match InsertRecordTrack (io (S k)) recordID trackID work with
          | SqlErr e =>
              if is_unique_violation e
              then skip "Warning: Duplicate track ID %d provided for record %d. Skipping."
                        (S (S k))
              else mkLooped (Some e) work (S (S k))
                     [Printf "Database error inserting record_track link for record %d, track %d: %v"
                             [ArgInt recordID; ArgInt trackID; ArgError e]]
          | SqlOk work' => link_tracks io (S (S k)) db recordID rest work'
          end
      | _ => skip "Warning: Track ID %d not found for record %d. Skipping link." (S k)
      end
  end.

Definition AddRecordHandler (io : Faults) (req : AddRecordRequest) (db : Store)
  : Returned (string * Z) :=
  if String.eqb (AddRecord_Title req) ""
  then mkReturned (respondWithError StatusBadRequest "Title is required for a record")
         None db NoTx []
  else if AddRecord_Stock req <? 0
  then mkReturned (respondWithError StatusBadRequest "Stock cannot be negative")
         None db NoTx []
  else if faulty (io 0%nat)
  then mkReturned (respondWithError StatusInternalServerError
                     "Database error starting transaction")
         (Some ErrStorage) db NoTx
         [Printf "Failed to start transaction: %v" [ArgError ErrStorage]]
  else deferred
    (* 1 *)
    match InsertRecord (io 1%nat) req db with
    | SqlErr e =>
        mkReturned (respondWithError StatusInternalServerError "Failed to add record")
          (Some e) db (TxOpen db)
          [Printf "Database error inserting record: %v" [ArgError e]]
    | SqlOk (work, recordID) =>
        let created := respondWithJSON StatusCreated ("Record added successfully", recordID) in
        (* 2 *)
        if 0 <? len (AddRecord_TrackIDs req)
        then
          if faulty (io 2%nat)
          then (* the inner err is set, the outer err is still nil *)
            mkReturned (respondWithError StatusInternalServerError
                          "Failed to add record tracks")
              None db (TxOpen work)
              [Printf "Failed to prepare statement for record_tracks: %v"
                      [ArgError ErrStorage]]
          else
            let r := link_tracks io 3 db recordID (AddRecord_TrackIDs req) work in
            match stopped r with
            | Some e => (* the inner err is set, the outer err is still nil *)
                mkReturned (respondWithError StatusInternalServerError
                              "Failed to link record tracks")
                  None db (TxOpen (pending_store r)) (loop_lines r)
            | None =>
                (* 3 *)
                Commit (io (next_call r)) db (pending_store r) created "record"
                  (loop_lines r)
            end
        else
          (* 3 *)
          Commit (io 2%nat) db work created "record" []
    end.

(** [GetAllTracksHandler]: every track with the name of its owner, by the
    loop body the other read handlers use. *)
Definition GetAllTracksHandler (io : Faults) (db : Store) : Outcome (list Track) :=
  match QueryTracks (io 0%nat) db with
  | SqlErr e =>
      mkOutcome (respondWithError StatusInternalServerError "Database error fetching tracks")
        db [Printf "Database error fetching tracks: %v" [ArgError e]]
  | SqlOk (rows, Some e) =>
      mkOutcome (respondWithError StatusInternalServerError "Database error processing tracks")
        db [Printf "Error after iterating track rows: %v" [ArgError e]]
  | SqlOk (rows, None) =>
      mkOutcome (respondWithJSON StatusOK (map scan_track rows)) db []
  end.

(** [DeleteRecordHandler]: one statement, no transaction. *)
Definition DeleteRecordHandler (io : Faults) (recordID : Z) (db : Store) : Outcome string :=
  if negb (is_int64 recordID) || (recordID <=? 0)
  then mkOutcome (respondWithError StatusBadRequest "Invalid record ID in URL") db []
  else
    match DeleteRecord (io 0%nat) recordID db with
    | SqlErr e =>
        mkOutcome (respondWithError StatusInternalServerError "Failed to delete record") db
          [Printf "Database error deleting record %d: %v" [ArgInt recordID; ArgError e]]
    | SqlOk (db', rowsAffected) =>
        if rowsAffected =? 0
        then mkOutcome (respondWithError StatusNotFound "Record not found") db' []
        else mkOutcome (respondWithJSON StatusOK "Record deleted successfully") db' []
    end.


(** ** UpdateRecordHandler *)

(** The row [UPDATE records SET title = ?, label = ?, wholesale_address = ?,
    wholesale_price = ?, retail_price = ?, release_date = ?, stock = ?]
    leaves behind: the id and the two sales counters are not assigned. *)
Definition update_record (req : AddRecordRequest) (id : Z) (row : RecordRow) : RecordRow :=
  if record_id row =? id
  then mkRecordRow (record_id row) (AddRecord_Title req) (AddRecord_Label req)
         (AddRecord_WholesaleAddress req) (AddRecord_WholesalePrice req)
         (AddRecord_RetailPrice req) (AddRecord_ReleaseDate req)
         (record_sold_last_year row) (record_sold_current_year row)
         (AddRecord_Stock req)
  else row.

(** The statement with [WHERE id = ?]; the second component is
    [RowsAffected], the number of rows the WHERE clause selects. *)
Definition UpdateRecord (f : Fault) (req : AddRecordRequest) (id : Z) (db : Store)
  : SqlResult (Store * Z) :=
  if faulty f then SqlErr ErrStorage
  else SqlOk (with_records db (map (update_record req id) (records db)) (sqlite_sequence db),
              len (List.filter (fun r => record_id r =? id) (records db))).

Definition UpdateRecordHandler (io : Faults) (recordID : Z) (req : AddRecordRequest)
    (db : Store) : Outcome string :=
  if negb (is_int64 recordID) || (recordID <=? 0)
  then mkOutcome (respondWithError StatusBadRequest "Invalid record ID in URL") db []
  else if String.eqb (AddRecord_Title req) ""
  then mkOutcome (respondWithError StatusBadRequest "Title cannot be empty") db []
  else if AddRecord_Stock req <? 0
  then mkOutcome (respondWithError StatusBadRequest "Stock cannot be negative") db []
  else
    match UpdateRecord (io 0%nat) req recordID db with
    | SqlErr e =>
        mkOutcome (respondWithError StatusInternalServerError "Failed to update record") db
          [Printf "Database error updating record %d: %v" [ArgInt recordID; ArgError e]]
    | SqlOk (db', rowsAffected) =>
        if rowsAffected =? 0
        then mkOutcome (respondWithError StatusNotFound "Record not found") db' []
        else mkOutcome (respondWithJSON StatusOK "Record updated successfully") db' []
    end.

(** ** GetEnsemblesHandler *)

Record Ensemble : Type := mkEnsemble {
  Ensemble_ID : Z;
  Ensemble_Name : string;
  Ensemble_Type : string
}.

(** [SELECT id, name, type FROM ensembles] *)
Definition QueryEnsembles (f : Fault) (db : Store) : SqlResult (Rows EnsembleRow) :=
  deliver f (ensembles db).

(** The loop over the rows: [Scan] cannot store a NULL [type] into a
    [string]; such a row is reported and skipped. *)
Fixpoint ensemble_rows (rows : list EnsembleRow) : list Ensemble * list LogLine :=
  match rows with
  | [] => ([], [])
  | row :: rest =>
      let '(es, lg) := ensemble_rows rest in
      match ensemble_type row with
      | Some type => (mkEnsemble (ensemble_id row) (ensemble_name row) type :: es, lg)
      | None => (es, Printf "Error scanning ensemble row: %v" [ArgError ErrScan] :: lg)
      end
  end.

Definition GetEnsemblesHandler (io : Faults) (db : Store) : Outcome (list Ensemble) :=
  match QueryEnsembles (io 0%nat) db with
  | SqlErr e =>
      mkOutcome (respondWithError StatusInternalServerError "Database error fetching ensembles")
        db [Printf "Database error fetching ensembles: %v" [ArgError e]]
  | SqlOk (rows, Some e) =>
      mkOutcome (respondWithError StatusInternalServerError "Database error processing ensembles")
        db (snd (ensemble_rows rows)
            ++ [Printf "Error after iterating ensemble rows: %v" [ArgError e]])
  | SqlOk (rows, None) =>
      mkOutcome (respondWithJSON StatusOK (fst (ensemble_rows rows))) db
        (snd (ensemble_rows rows))
  end.

(** ** Report handlers *)

(** [SELECT EXISTS(SELECT 1 FROM ensembles WHERE id = ?)] *)
Definition QueryEnsembleExists (f : Fault) (id : Z) (db : Store) : SqlResult bool :=
  if faulty f then SqlErr ErrStorage else SqlOk (ensemble_exists id db).

(** [SELECT COUNT( * ) FROM tracks WHERE ensemble_id = ?] *)
Definition QueryTrackCount (f : Fault) (id : Z) (db : Store) : SqlResult Z :=
  if faulty f then SqlErr ErrStorage
  else SqlOk (len (List.filter (owned_by_ensemble id) (tracks db))).

(** The payload is the pair of [ensembleId] and [trackCount]. *)
Definition GetEnsembleTrackCountHandler (io : Faults) (ensembleID : Z) (db : Store)
  : Outcome (Z * Z) :=
  if negb (is_int64 ensembleID) || (ensembleID <=? 0)
  then mkOutcome (respondWithError StatusBadRequest "Invalid ensemble ID in URL") db []
  else
    match QueryEnsembleExists (io 0%nat) ensembleID db with
    | SqlErr e =>
        mkOutcome (respondWithError StatusInternalServerError "Database error") db
          [Printf "Database error checking ensemble existence for track count: %v"
                  [ArgError e]]
    | SqlOk false =>
        mkOutcome (respondWithError StatusNotFound "Ensemble not found") db []
    | SqlOk true =>
        match QueryTrackCount (io 1%nat) ensembleID db with
        | SqlErr e =>
            mkOutcome (respondWithError StatusInternalServerError
                         "Database error fetching track count") db
              [Printf "Database error counting tracks for ensemble %d: %v"
                      [ArgInt ensembleID; ArgError e]]
        | SqlOk trackCount =>
            mkOutcome (respondWithJSON StatusOK (ensembleID, trackCount)) db []
        end
    end.

(** [SELECT id FROM tracks WHERE ensemble_id = ?] *)
Definition QueryEnsembleTrackIDs (f : Fault) (id : Z) (db : Store) : SqlResult (Rows Z) :=
  deliver f (map track_id (List.filter (owned_by_ensemble id) (tracks db))).

(** The loop that keeps the first occurrence of each id, with the slice
    and the set it maintains. *)
Record IDRows : Type := mkIDRows {
  idsSeen : list Z;
  idSet : gmap Z bool
}.

Definition id_row (st : IDRows) (id : Z) : IDRows :=
  match idSet st !! id with
  | Some _ => st
  | None => mkIDRows (idsSeen st ++ [id]) (<[id := true]> (idSet st))
  end.

Definition id_rows (ids : list Z) : IDRows := foldl id_row (mkIDRows [] ∅) ids.

Section Engine.

(** SQL leaves the order of rows to the engine where the statement does not
    fix it: the order in which [SELECT DISTINCT] yields the distinct values
    of a column, and the order among rows that compare equal under
    [ORDER BY].  The two functions stand for what the engine does. *)
Variable select_distinct : list Z -> list Z.
Variable order_by_sold_current_year_desc : list RecordRow -> list RecordRow.

(** [SELECT DISTINCT record_id FROM record_tracks WHERE track_id IN]
    followed by the given list. *)
Definition QueryRecordIDsOfTracks (f : Fault) (in_list : string) (args : list Z)
    (db : Store) : SqlResult (Rows Z) :=
  match f with
  | FailCall => SqlErr ErrStorage
  | _ =>
      match bind in_list args with
      | SqlErr e => SqlErr e
      | SqlOk ids =>
          deliver f (select_distinct
                       (map rt_record_id
                          (List.filter (fun rt => mem (rt_track_id rt) ids)
                             (record_tracks db))))
      end
  end.

(** [SELECT id, title, ..., stock FROM records
     ORDER BY sold_current_year DESC] *)
Definition QueryBestSellers (f : Fault) (db : Store) : SqlResult (Rows RecordRow) :=
  deliver f (order_by_sold_current_year_desc (records db)).

(** Steps 4 and 5 of the two reports, from the links on: the tracks query is
    sent only when some track is linked, and the assembly loop runs in
    either case.  [k] is the position of the tracks query, [ids] the name of
    its slice, [what] and [whose] the words the messages differ in. *)
Definition report_tracks (io : Faults) (k : nat) (ids what whose place : string)
    (db : Store) (records : list Record_) (st : Links) : Outcome (list Record_) :=
  let fail msg lg := mkOutcome (respondWithError StatusInternalServerError msg) db lg in
  let fetchTracks : SqlResult (Rows TrackOwnerRow) :=
    if 0 <? len (trackIDs st)
    then QueryTracksIn (io k) (raw_placeholders ids) (trackIDs st) db
    else SqlOk ([], None) in
  match fetchTracks with
  | SqlErr e =>
      fail ("Database error fetching tracks for " +:+ whose)
           [Printf ("Error querying tracks for " +:+ what +:+ ": %v") [ArgError e]]
  | SqlOk (trackRows, Some e) =>
      fail ("Database error processing tracks for " +:+ whose)
           [Printf ("Error after iterating tracks rows for " +:+ whose +:+ ": %v")
                   [ArgError e]]
  | SqlOk (trackRows, None) =>
      let '(records', lg) :=
        attach_all place (recordTrackLinks st) (track_rows trackRows) records in
      mkOutcome (respondWithJSON StatusOK records') db lg
  end.

Definition GetRecordsByEnsembleHandler (io : Faults) (ensembleID : Z) (db : Store)
  : Outcome (list Record_) :=
  let fail msg lg := mkOutcome (respondWithError StatusInternalServerError msg) db lg in
  if negb (is_int64 ensembleID) || (ensembleID <=? 0)
  then mkOutcome (respondWithError StatusBadRequest "Invalid ensemble ID in URL") db []
  else
    match QueryEnsembleExists (io 0%nat) ensembleID db with
    | SqlErr e =>
        fail "Database error"
             [Printf "Database error checking ensemble existence for records: %v"
                     [ArgError e]]
    | SqlOk false =>
        mkOutcome (respondWithError StatusNotFound "Ensemble not found") db []
    | SqlOk true =>
    (* 1 *)
    match QueryEnsembleTrackIDs (io 1%nat) ensembleID db with
    | SqlErr e =>
        fail "Database error fetching ensemble tracks"
             [Printf "Database error fetching track IDs for ensemble %d: %v"
                     [ArgInt ensembleID; ArgError e]]
    | SqlOk (trackIDsForEnsemble, Some e) =>
        fail "Database error processing ensemble track IDs"
             [Printf "Error after iterating track ID rows for ensemble: %v" [ArgError e]]
    | SqlOk (trackIDsForEnsemble, None) =>
        if len trackIDsForEnsemble =? 0
        then mkOutcome (respondWithJSON StatusOK []) db []
        else
        (* 2 *)
        match placeholders (len trackIDsForEnsemble) with
        | None => mkOutcome panicked db []
        | Some in_list =>
        match QueryRecordIDsOfTracks (io 2%nat) in_list trackIDsForEnsemble db with
        | SqlErr e =>
            fail "Database error fetching record IDs"
                 [Printf "Database error fetching record IDs from record_tracks: %v"
                         [ArgError e]]
        | SqlOk (recordIDRows, Some e) =>
            fail "Database error processing record IDs"
                 [Printf "Error after iterating record ID rows from record_tracks: %v"
                         [ArgError e]]
        | SqlOk (recordIDRows, None) =>
            let recordIDsWithEnsembleTracks := idsSeen (id_rows recordIDRows) in
            if len recordIDsWithEnsembleTracks =? 0
            then mkOutcome (respondWithJSON StatusOK []) db []
            else
            (* 3 *)
            match placeholders (len recordIDsWithEnsembleTracks) with
            | None => mkOutcome panicked db []
            | Some in_list' =>
            match QueryRecordsIn (io 3%nat) in_list' recordIDsWithEnsembleTracks db with
            | SqlErr e =>
                fail "Database error fetching records for report"
                     [Printf "Error querying records for ensemble report: %v" [ArgError e]]
            | SqlOk (recordRows, Some e) =>
                fail "Database error processing records for report"
                     [Printf "Error after iterating record rows for ensemble report: %v"
                             [ArgError e]]
            | SqlOk (recordRows, None) =>
                let records := map scan_record recordRows in
                let actualFetchedRecordIDs := map Record_ID records in
                if len records =? 0
                then mkOutcome (respondWithJSON StatusOK records) db []
                else
                (* 4 *)
                match placeholders (len actualFetchedRecordIDs) with
                | None => mkOutcome panicked db []
                | Some in_list'' =>
                match QueryRecordTracksIn (io 4%nat) in_list'' actualFetchedRecordIDs db with
                | SqlErr e =>
                    fail "Database error fetching record tracks links for report"
                         [Printf "Error querying record_tracks for ensemble report tracks: %v"
                                 [ArgError e]]
                | SqlOk (linkRows, Some e) =>
                    fail "Database error processing record tracks links for report"
                         [Printf "Error after iterating record_tracks rows for report tracks: %v"
                                 [ArgError e]]
                | SqlOk (linkRows, None) =>
                    (* 4, the tracks, and 5 *)
                    report_tracks io 5 "reportTrackIDs" "ensemble report" "report"
                      "fetched report tracks map" db records (link_rows linkRows)
                end
                end
            end
            end
        end
        end
    end
    end.

Definition GetBestSellersHandler (io : Faults) (db : Store) : Outcome (list Record_) :=
  let fail msg lg := mkOutcome (respondWithError StatusInternalServerError msg) db lg in
  (* 1 *)
  match QueryBestSellers (io 0%nat) db with
  | SqlErr e =>
      fail "Database error fetching bestsellers"
           [Printf "Database error fetching bestsellers: %v" [ArgError e]]
  | SqlOk (rows, Some e) =>
      fail "Database error processing bestsellers"
           [Printf "Error after iterating bestseller record rows: %v" [ArgError e]]
  | SqlOk (rows, None) =>
      let records := map scan_record rows in
      let recordIDs := map Record_ID records in
      if len records =? 0 then mkOutcome (respondWithJSON StatusOK records) db []
      else
      (* 2 *)
      match placeholders (len recordIDs) with
      | None => mkOutcome panicked db []
      | Some in_list =>
      match QueryRecordTracksIn (io 1%nat) in_list recordIDs db with
      | SqlErr e =>
          fail "Database error fetching record tracks links for bestsellers"
               [Printf "Error querying record_tracks for bestsellers: %v" [ArgError e]]
      | SqlOk (linkRows, Some e) =>
          fail "Database error processing record tracks links for bestsellers"
               [Printf "Error after iterating record_tracks rows for bestsellers: %v"
                       [ArgError e]]
      | SqlOk (linkRows, None) =>
          (* 2, the tracks, and 3 *)
          report_tracks io 2 "bestsellerTrackIDs" "bestsellers" "bestsellers"
            "fetched bestsellers tracks map" db records (link_rows linkRows)
      end
      end
  end.

End Engine.

(** ** Users: RegisterHandler, the profile handlers and
    [auth.RegisterAdminUser] *)

Record User : Type := mkUser {
  User_ID : Z;
  User_FirstName : string;
  User_LastName : string;
  User_Username : string;
  User_Email : string;
  User_PasswordHash : string;
  User_City : string;
  User_Role : string
}.

Record RegisterRequest : Type := mkRegisterRequest {
  Register_FirstName : string;
  Register_LastName : string;
  Register_Username : string;
  Register_Email : string;
  Register_Password : string;
  Register_City : string
}.

Definition with_users (db : Store) (us : list UserRow) (seq : gmap string Z) : Store :=
  mkStore us (ensembles db) (musicians db) (tracks db) (records db)
          (record_tracks db) (cart_items db) seq.

(** [CHECK (role IN ('user', 'admin'))] *)
Definition role_check (role : string) : bool :=
  String.eqb role "user" || String.eqb role "admin".

(** [SELECT EXISTS(SELECT 1 FROM users WHERE username = ? OR email = ?)] *)
Definition QueryUserExists (f : Fault) (username email : string) (db : Store)
  : SqlResult bool :=
  if faulty f then SqlErr ErrStorage
  else SqlOk (existsb (fun u => String.eqb (user_username u) username
                                || String.eqb (user_email u) email) (users db)).

(** [INSERT INTO users (first_name, last_name, username, email,
     password_hash, city, role) VALUES (?, ?, ?, ?, ?, ?, ?)]; [username] and
    [email] are UNIQUE each. *)
Definition InsertUser (f : Fault) (first last username email hash city role : string)
    (db : Store) : SqlResult (Store * Z) :=
  if faulty f then SqlErr ErrStorage
  else match new_rowid "users" (map user_id (users db)) db with
       | None => SqlErr ErrFull
       | Some id =>
           if negb (role_check role) then SqlErr ErrCheck
           else if existsb (fun u => String.eqb (user_username u) username) (users db)
                   || existsb (fun u => String.eqb (user_email u) email) (users db)
           then SqlErr ErrUnique
           else SqlOk (with_users db
                         (users db ++
                            [mkUserRow id first last username email hash (Some city) role])
                         (<["users" := id]> (sqlite_sequence db)), id)
       end.

(** [SELECT id, first_name, last_name, username, email, city, role FROM users
     WHERE id = ?] scanned into a [models.User]: [None] is [sql.ErrNoRows], a
    NULL [city] cannot be stored into a [string], and [PasswordHash] is not
    selected. *)
Definition QueryProfile (f : Fault) (id : Z) (db : Store) : SqlResult (option User) :=
  if faulty f then SqlErr ErrStorage
  else match find (fun u => user_id u =? id) (users db) with
       | None => SqlOk None
       | Some row =>
           match user_city row with
           | None => SqlErr ErrScan
           | Some city =>
               SqlOk (Some (mkUser (user_id row) (user_first_name row) (user_last_name row)
                              (user_username row) (user_email row) "" city (user_role row)))
           end
       end.

Definition set_profile (first last city : string) (id : Z) (row : UserRow) : UserRow :=
  if user_id row =? id
  then mkUserRow (user_id row) first last (user_username row) (user_email row)
         (user_password_hash row) (Some city) (user_role row)
  else row.

(** [UPDATE users SET first_name = ?, last_name = ?, city = ? WHERE id = ?] *)
Definition UpdateUser (f : Fault) (first last city : string) (id : Z) (db : Store)
  : SqlResult (Store * Z) :=
  if faulty f then SqlErr ErrStorage
  else SqlOk (with_users db (map (set_profile first last city id) (users db))
                (sqlite_sequence db),
              len (List.filter (fun u => user_id u =? id) (users db))).

(** [SELECT id FROM users WHERE username = ?] and
    [SELECT role FROM users WHERE username = ?] *)
Definition QueryUserByName (f : Fault) (username : string) (db : Store)
  : SqlResult (option UserRow) :=
  if faulty f then SqlErr ErrStorage
  else SqlOk (find (fun u => String.eqb (user_username u) username) (users db)).

(** The result of a function of another package that returns a value and
    an [error]; the error is kept by its text. *)
Inductive Fallible (A : Type) : Type :=
| Done (a : A)
| Failed (message : string).
Arguments Done {A} a.
Arguments Failed {A} message.

(** What [RegisterAdminUser] returns. *)
Inductive AdminError : Type :=
| HashAdminPassword (message : string)  (* failed to hash admin password: ... *)
| InsertAdminUser (e : SqlError)        (* failed to insert admin user: ... *)
| CheckExistingAdmin (e : SqlError)     (* error checking for existing admin user: ... *)
| CheckExistingRole (e : option SqlError).
    (* error checking role for existing user: ...; [None] is [sql.ErrNoRows] *)

Record AdminRegistered : Type := mkAdminRegistered {
  admin_error : option AdminError;
  admin_store : Store;
  admin_logged : list LogLine
}.

Section Environment.

(** [utils.HashPassword], and the values of the environment variables
    ADMIN_USERNAME and ADMIN_PASSWORD, which are the empty string when
    unset. *)
Variable HashPassword : string -> Fallible string.
Variable ADMIN_USERNAME ADMIN_PASSWORD : string.

Definition RegisterHandler (io : Faults) (req : RegisterRequest) (db : Store)
  : Outcome string :=
  if String.eqb (Register_Username req) "" || String.eqb (Register_Password req) ""
     || String.eqb (Register_Email req) "" || String.eqb (Register_FirstName req) ""
     || String.eqb (Register_LastName req) ""
  then mkOutcome (respondWithError StatusBadRequest
                    "Username, password, email, first name, and last name are required")
         db []
  else
    let role :=
      if String.eqb (Register_Username req) ADMIN_USERNAME
         && String.eqb (Register_Password req) ADMIN_PASSWORD
      then "admin" else "user" in
    match HashPassword (Register_Password req) with
    | Failed message =>
        mkOutcome (respondWithError StatusInternalServerError "Failed to hash password") db
          [Printf "Failed to hash password: %v" [ArgString message]]
    | Done hashedPassword =>
        match QueryUserExists (io 0%nat) (Register_Username req) (Register_Email req) db with
        | SqlErr e =>
            mkOutcome (respondWithError StatusInternalServerError
                         "Database error checking user existence") db
              [Printf "Database error checking user existence: %v" [ArgError e]]
        | SqlOk true =>
            mkOutcome (respondWithError StatusConflict "Username or email already exists")
              db []
        | SqlOk false =>
            match InsertUser (io 1%nat) (Register_FirstName req) (Register_LastName req)
                    (Register_Username req) (Register_Email req) hashedPassword
                    (Register_City req) role db with
            | SqlErr e =>
                mkOutcome (respondWithError StatusInternalServerError "Failed to create user")
                  db [Printf "Failed to create user: %v" [ArgError e]]
            | SqlOk (db', _) =>
                mkOutcome (respondWithJSON StatusCreated "User registered successfully") db' []
            end
        end
    end.

(** [RegisterAdminUser], called by [main] on the handle [InitDB] opened. *)
Definition RegisterAdminUser (io : Faults) (username password : string) (db : Store)
  : AdminRegistered :=
  match QueryUserByName (io 0%nat) username db with
  | SqlOk None =>
      match HashPassword password with
      | Failed message => mkAdminRegistered (Some (HashAdminPassword message)) db []
      | Done hashedPassword =>
          match InsertUser (io 1%nat) "Admin" "User" username (username +:+ "@example.com")
                  hashedPassword "Unknown" "admin" db with
          | SqlErr e => mkAdminRegistered (Some (InsertAdminUser e)) db []
          | SqlOk (db', _) =>
              mkAdminRegistered None db'
                [Printf "Admin user '%s' registered successfully." [ArgString username]]
          end
      end
  | SqlErr e => mkAdminRegistered (Some (CheckExistingAdmin e)) db []
  | SqlOk (Some _) =>
      match QueryUserByName (io 1%nat) username db with
      | SqlErr e => mkAdminRegistered (Some (CheckExistingRole (Some e))) db []
      | SqlOk None => mkAdminRegistered (Some (CheckExistingRole None)) db []
      | SqlOk (Some row) =>
          if String.eqb (user_role row) "admin"
          then mkAdminRegistered None db []
          else mkAdminRegistered None db
                 [Printf "Warning: User '%s' already exists but is not an admin. Cannot register admin user with this username."
                         [ArgString username]]
      end
  end.

End Environment.

Definition GetProfileHandler (io : Faults) (userID : Z) (db : Store) : Outcome User :=
  match QueryProfile (io 0%nat) userID db with
  | SqlOk None =>
      mkOutcome (respondWithError StatusNotFound "User not found") db
        [Printf "User ID from token %d not found in database!" [ArgInt userID]]
  | SqlErr e =>
      mkOutcome (respondWithError StatusInternalServerError "Database error fetching profile")
        db [Printf "Error fetching user profile: %v" [ArgError e]]
  | SqlOk (Some user) =>
      mkOutcome (respondWithJSON StatusOK user) db []
  end.

(** Both branches on [rowsAffected] send the same answer. *)
Definition UpdateProfileHandler (io : Faults) (userID : Z) (updatedUser : User) (db : Store)
  : Outcome string :=
  match UpdateUser (io 0%nat) (User_FirstName updatedUser) (User_LastName updatedUser)
          (User_City updatedUser) userID db with
  | SqlErr e =>
      mkOutcome (respondWithError StatusInternalServerError "Failed to update profile") db
        [Printf "Error updating user profile: %v" [ArgError e]]
  | SqlOk (db', rowsAffected) =>
      if rowsAffected =? 0
      then mkOutcome (respondWithJSON StatusOK "Profile updated successfully") db' []
      else mkOutcome (respondWithJSON StatusOK "Profile updated successfully") db' []
  end.

(** ** The two senders on the connection

    What [respondWithError] and [respondWithJSON] do to the
    [http.ResponseWriter]: the header map, the status line, which is
    written once together with the header map as it is then, and the texts
    written to the body.  A [Write] before any [WriteHeader] writes the
    status 200 first, and so does the server when the handler returns
    without having written. *)

Record ResponseWriter : Type := mkResponseWriter {
  Header : gmap string string;
  status : option Z;
  sentHeader : gmap string string;
  body : list string
}.

Definition NewWriter : ResponseWriter := mkResponseWriter ∅ None ∅ [].

(** [w.Header().Set(key, value)] *)
Definition HeaderSet (key value : string) (w : ResponseWriter) : ResponseWriter :=
  mkResponseWriter (<[key := value]> (Header w)) (status w) (sentHeader w) (body w).

(** [w.WriteHeader(code)]; a second call changes nothing. *)
Definition WriteHeader (code : Z) (w : ResponseWriter) : ResponseWriter :=
  match status w with
  | Some _ => w
  | None => mkResponseWriter (Header w) (Some code) (Header w) (body w)
  end.

(** [w.Write(text)] *)
Definition Write (text : string) (w : ResponseWriter) : ResponseWriter :=
  let w' := WriteHeader StatusOK w in
  mkResponseWriter (Header w') (status w') (sentHeader w') (body w' ++ [text]).

(** [json.NewEncoder(w).Encode(v)] for a value whose JSON text is [text],
    or which has none ([None]: a number that is not finite); the error is
    dropped by both senders. *)
Definition Encode (text : option string) (w : ResponseWriter) : ResponseWriter :=
  match text with
  | Some t => Write t w
  | None => w
  end.

Section Senders.

Context {A : Type}.

(** [json.Marshal] of a payload, and of [map[string]string{"error": message}]. *)
Variable Marshal : A -> option string.
Variable MarshalError : string -> string.

(** The body of the sender a handler called; [respondWithJSON] does not
    use [code]. *)
Definition send (r : Response A) (w : ResponseWriter) : ResponseWriter :=
  match r with
  | respondWithError code message =>
      Encode (Some (MarshalError message))
        (WriteHeader code (HeaderSet "Content-Type" "application/json" w))
  | respondWithJSON code payload =>
      Encode (Marshal payload) (HeaderSet "Content-Type" "application/json" w)
  | panicked => w
  end.

(** What the client gets: after a panic nothing, otherwise what the handler
    sent, completed by the server. *)
Definition served (r : Response A) : ResponseWriter :=
  match r with
  | panicked => NewWriter
  | _ => WriteHeader StatusOK (send r NewWriter)
  end.

End Senders.
(** * Vocabulary of the properties *)

(** A rowid handed out by AUTOINCREMENT, and so the only kind of record id a
    handler accepts: at least 1 and within a Go [int]. *)
Definition rowid (id : Z) : Prop := 1 <= id <= max_int64.

(** A quantity a cart request can carry. *)
Definition quantity (q : Z) : Prop := 1 <= q <= max_int64.

(** The quantity stored for a user and a record, if the row is there. *)
Definition stored_quantity (u r : Z) (db : Store) : option SqlInteger :=
  cart_quantity <$> find_cart_item u r db.

(** The record [r] of the store with its stock replaced by [s]. *)
Definition restock_row (r s : Z) (rec : RecordRow) : RecordRow :=
  if record_id rec =? r
  then mkRecordRow (record_id rec) (record_title rec) (record_label rec)
         (record_wholesale_address rec) (record_wholesale_price rec)
         (record_retail_price rec) (record_release_date rec)
         (record_sold_last_year rec) (record_sold_current_year rec) s
  else rec.

Definition restock (r s : Z) (db : Store) : Store :=
  with_records db (map (restock_row r s) (records db)) (sqlite_sequence db).

(** *** A small shop used to exercise the statements *)

Definition sample_user (id : Z) (name : string) : UserRow :=
  mkUserRow id "Ann" "Lee" name (name +:+ "@example.com") "$2a$10$hash" None "user".

Definition sample_record (id : Z) (title : string) (stock : Z) : RecordRow :=
  mkRecordRow id title "EMI" "Abbey Road 3" 10%float 15%float "2020-01-01" 0 0 stock.

(** One user, one ensemble with a track, one musician with a track, and two
    records: number 5 is out of stock and has no track, number 6 carries the
    ensemble's track. *)
Definition shop : Store :=
  mkStore [sample_user 1 "ann"]
    [mkEnsembleRow 1 "Quartet A" (Some "quartet")]
    [mkMusicianRow 1 "John" "Smith" (Some "guitar") None]
    [mkTrackRow 1 "Intro" 120 None (Some 1); mkTrackRow 2 "Solo" 95 (Some 1) None]
    [sample_record 5 "Live Set" 0; sample_record 6 "Studio" 3]
    [mkRecordTrackRow 6 1]
    []
    (<["users" := 1]> (<["ensembles" := 1]> (<["musicians" := 1]>
       (<["tracks" := 2]> (<["records" := 6]> ∅))))).

(** The shop with rows in the cart of user 1. *)
Definition shop_with_cart (rows : list CartItemRow) : Store :=
  with_cart_items shop rows.

(** The ownership rule of a stored track: exactly one of [musician_id] and
    [ensemble_id] is not NULL. *)
Definition one_owner (t : TrackRow) : Prop :=
  (track_musician_id t <> None /\ track_ensemble_id t = None)
  \/ (track_musician_id t = None /\ track_ensemble_id t <> None).

Definition tracks_owned (db : Store) : Prop := Forall one_owner (tracks db).

(** A request finished with the answer "created". *)
Definition created {A} (r : Response A) : bool :=
  match r with
  | respondWithJSON _ _ => true
  | _ => false
  end.

(** A record without its track list: what is compared when two records are
    said to be the same record. *)
Definition without_tracks (rec : Record_) : Record_ := set_Tracks rec None.

(** No row of [record_tracks] references the record. *)
Definition no_linked_tracks (id : Z) (db : Store) : Prop :=
  forall rt, In rt (record_tracks db) -> rt_record_id rt <> id.

(** The cart rows of a user as [GetCartHandler] scans them: without the rows
    whose quantity is not an integer, and before any record is attached. *)
Definition scanned_item (row : CartItemRow) : option CartItem :=
  match cart_quantity row with
  | IntegerCell q => Some (mkCartItem (cart_user_id row) (cart_record_id row) q None)
  | RealCell => None
  end.

Definition scanned_cart (u : Z) (db : Store) : list CartItem :=
  omap scanned_item (List.filter (fun c => cart_user_id c =? u) (cart_items db)).

(** The shop after record 9 was removed behind the back of the cart: user 1
    still has a row for it, next to a row for record 5. *)
Definition dangling_cart : Store :=
  shop_with_cart [mkCartItemRow 1 5 (IntegerCell 1); mkCartItemRow 1 9 (IntegerCell 2)].

(** The same with the row for record 9 alone: no record of the cart exists. *)
Definition lost_cart : Store :=
  shop_with_cart [mkCartItemRow 1 9 (IntegerCell 2)].

(** The lines [GetCartHandler] logs for a row it cannot scan and for an item
    whose record was not fetched. *)
Definition scan_error : LogLine :=
  Printf "Error scanning cart item row: %v" [ArgError ErrScan].

Definition missing_record (item : CartItem) : LogLine :=
  Printf "Warning: Record ID %d for cart item not found in fetched records map"
         [ArgInt (CartItem_RecordID item)].

(** The rows of a user whose quantity is no integer. *)
Definition unscannable (row : CartItemRow) : bool :=
  match cart_quantity row with
  | RealCell => true
  | IntegerCell _ => false
  end.

Definition unscanned (u : Z) (db : Store) : list CartItemRow :=
  List.filter unscannable (List.filter (fun c => cart_user_id c =? u) (cart_items db)).

(** An item whose record is not in [records]. *)
Definition dangling (db : Store) (item : CartItem) : bool :=
  negb (record_exists (CartItem_RecordID item) db).

(** The variables of [GetCartHandler] after its first loop, the records it
    fetches for them and the links it fetches for those records. *)
Definition cart_of (u : Z) (db : Store) : CartRows :=
  cart_rows (List.filter (fun c => cart_user_id c =? u) (cart_items db)).

Definition cart_records (u : Z) (db : Store) : list RecordRow :=
  List.filter (fun r => mem (record_id r) (recordIDs (cart_of u db))) (records db).

Definition cart_links (u : Z) (db : Store) : list RecordTrackRow :=
  List.filter
    (fun rt => mem (rt_record_id rt) (fetchedRecordIDs (record_rows (cart_records u db))))
    (record_tracks db).

(** An item with the record the map holds for it, the track list empty. *)
Definition with_record (recordsMap : gmap Z Record_) (item : CartItem) : CartItem :=
  set_Record item
    ((fun rec => set_Tracks rec (Some [])) <$> recordsMap !! CartItem_RecordID item).

(** Every scanned item has its record id among [recordIDs]. *)
Definition ids_collected (st : CartRows) : Prop :=
  (forall item, In item (cartItems st) -> In (CartItem_RecordID item) (recordIDs st))
  /\ (forall k, recordIDSet st !! k <> None -> In k (recordIDs st)).

(** The engine fails the third call of a request and serves the others. *)
Definition third_call_fails : Faults :=
  fun call => if (call =? 2)%nat then FailCall else NoFault.






(** The request of the duplicate link: a record with track 1 listed twice. *)
Definition twice_track_1 : AddRecordRequest :=
  mkAddRecordRequest "Twice" "EMI" "Abbey Road 3" 10%float 15%float "2021-05-01" 4 [1; 1].

(** The line logged for a linked track that is not among the fetched ones. *)
Definition missing_track (place : string) (recordID trackID : Z) : LogLine :=
  Printf ("Warning: Linked track ID %d for record %d not found in " +:+ place)
         [ArgInt trackID; ArgInt recordID].

(** The association rows of the fetched records. *)
Definition linked_records (db : Store) : list RecordTrackRow :=
  List.filter (fun rt => mem (rt_record_id rt) (map record_id (records db))) (record_tracks db).

(** A record as the assembly of step 4 leaves it: its linked tracks that are
    in [tracksMap], in the order of the links. *)
Definition assembled (links : gmap Z (list Z)) (tracksMap : gmap Z Track) (rec : Record_)
  : Record_ :=
  set_Tracks rec
    (Some (omap (fun trackID => tracksMap !! trackID) (default [] (links !! Record_ID rec)))).

(** The lines the assembly logs for a record: one for each linked track that
    is not in [tracksMap]. *)
Definition warnings (place : string) (links : gmap Z (list Z)) (tracksMap : gmap Z Track)
    (rec : Record_) : list LogLine :=
  map (missing_track place (Record_ID rec))
      (List.filter (fun trackID => negb (Valid (tracksMap !! trackID)))
         (default [] (links !! Record_ID rec))).

(** ** The stores the handlers produce *)

(** One statement that changes the store, with the values the checks of the
    handlers let through to it. *)
Inductive statement : Store -> Store -> Prop :=
| st_InsertUser f first last username email hash city role db db' id :
    InsertUser f first last username email hash city role db = SqlOk (db', id) ->
    statement db db'
| st_UpdateUser f first last city id db db' n :
    UpdateUser f first last city id db = SqlOk (db', n) ->
    statement db db'
| st_InsertEnsemble f name type db db' id :
    InsertEnsemble f name type db = SqlOk (db', id) ->
    statement db db'
| st_InsertMusician f first last role e db db' id :
    InsertMusician f first last role e db = SqlOk (db', id) ->
    statement db db'
| st_InsertTrack f name duration m e db db' id :
    InsertTrack f name duration m e db = SqlOk (db', id) ->
    statement db db'
| st_InsertRecord f req db db' id :
    InsertRecord f req db = SqlOk (db', id) ->
    statement db db'
| st_InsertRecordTrack f r t db db' :
    InsertRecordTrack f r t db = SqlOk db' ->
    statement db db'
| st_UpdateRecord f req id db db' n :
    UpdateRecord f req id db = SqlOk (db', n) ->
    statement db db'
| st_DeleteRecord f id db db' n :
    DeleteRecord f id db = SqlOk (db', n) ->
    statement db db'
| st_UpsertCartItem f u r q db db' :
    1 <= q <= max_int64 ->
    UpsertCartItem f u r q db = SqlOk db' ->
    statement db db'
| st_UpdateCartItem f q u r db db' n :
    1 <= q <= max_int64 ->
    UpdateCartItem f q u r db = SqlOk (db', n) ->
    statement db db'
| st_DeleteCartItem f u r db db' n :
    DeleteCartItem f u r db = SqlOk (db', n) ->
    statement db db'.

(** A property that holds of the empty store and that no statement
    destroys. *)
Definition invariant (P : Store -> Prop) : Prop :=
  P empty_store /\ forall db db', statement db db' -> P db -> P db'.

Section Requests.

Variable HashPassword : string -> Fallible string.
Variable ADMIN_USERNAME ADMIN_PASSWORD : string.

(** The store before and after one request to a handler that writes, under
    any faults, or before and after the registration [main] attempts at
    start-up when both variables are set.  The remaining handlers return the
    store they were given. *)
Inductive request : Store -> Store -> Prop :=
| req_RegisterAdminUser io db :
    ADMIN_USERNAME <> "" -> ADMIN_PASSWORD <> "" ->
    request db (admin_store (RegisterAdminUser HashPassword io ADMIN_USERNAME ADMIN_PASSWORD db))
| req_Register io req db :
    request db (store (RegisterHandler HashPassword ADMIN_USERNAME ADMIN_PASSWORD io req db))
| req_UpdateProfile io userID updatedUser db :
    request db (store (UpdateProfileHandler io userID updatedUser db))
| req_AddToCart io userID req db :
    request db (store (AddToCartHandler io userID req db))
| req_UpdateCart io userID recordID quantity db :
    request db (store (UpdateCartHandler io userID recordID quantity db))
| req_RemoveFromCart io userID recordID db :
    request db (store (RemoveFromCartHandler io userID recordID db))
| req_AddMusician io req db :
    request db (committed (AddMusicianHandler io req db))
| req_AddEnsemble io req db :
    request db (committed (AddEnsembleHandler io req db))
| req_AddRecord io req db :
    request db (committed (AddRecordHandler io req db))
| req_UpdateRecord io recordID req db :
    request db (store (UpdateRecordHandler io recordID req db))
| req_DeleteRecord io recordID db :
    request db (store (DeleteRecordHandler io recordID db)).

(** The stores that requests lead to from the tables [createTables] makes. *)
Definition reachable (db : Store) : Prop := rtc request empty_store db.

End Requests.

(** *** The constraints of the schema *)

Definition cart_key (c : CartItemRow) : Z * Z := (cart_user_id c, cart_record_id c).

Definition link_key (rt : RecordTrackRow) : Z * Z := (rt_record_id rt, rt_track_id rt).

(** PRIMARY KEY and UNIQUE. *)
Record keys_unique (db : Store) : Prop := mk_keys_unique {
  users_key : List.NoDup (map user_id (users db));
  users_username : List.NoDup (map user_username (users db));
  users_email : List.NoDup (map user_email (users db));
  ensembles_key : List.NoDup (map ensemble_id (ensembles db));
  ensembles_name : List.NoDup (map ensemble_name (ensembles db));
  musicians_key : List.NoDup (map musician_id (musicians db));
  tracks_key : List.NoDup (map track_id (tracks db));
  records_key : List.NoDup (map record_id (records db));
  record_tracks_key : List.NoDup (map link_key (record_tracks db));
  cart_items_key : List.NoDup (map cart_key (cart_items db))
}.

(** FOREIGN KEY. *)
Record references_hold (db : Store) : Prop := mk_references_hold {
  musician_ensemble : forall m e, In m (musicians db) ->
    musician_ensemble_id m = Some e -> ensemble_exists e db = true;
  track_musician : forall t m, In t (tracks db) ->
    track_musician_id t = Some m -> musician_exists m db = true;
  track_ensemble : forall t e, In t (tracks db) ->
    track_ensemble_id t = Some e -> ensemble_exists e db = true;
  link_record : forall rt, In rt (record_tracks db) ->
    record_exists (rt_record_id rt) db = true;
  link_track : forall rt, In rt (record_tracks db) ->
    track_exists (rt_track_id rt) db = true;
  cart_user : forall c, In c (cart_items db) -> user_exists (cart_user_id c) db = true;
  cart_record : forall c, In c (cart_items db) -> record_exists (cart_record_id c) db = true
}.

(** The counter AUTOINCREMENT keeps for a table. *)
Definition sequence (table : string) (db : Store) : Z :=
  default 0 (sqlite_sequence db !! table).

(** The counter is not negative, and every rowid is positive and not above
    the counter of its table. *)
Definition numbered (table : string) (ids : list Z) (db : Store) : Prop :=
  0 <= sequence table db /\ forall id, In id ids -> 1 <= id <= sequence table db.

Record rowids_counted (db : Store) : Prop := mk_rowids_counted {
  users_counted : numbered "users" (map user_id (users db)) db;
  ensembles_counted : numbered "ensembles" (map ensemble_id (ensembles db)) db;
  musicians_counted : numbered "musicians" (map musician_id (musicians db)) db;
  tracks_counted : numbered "tracks" (map track_id (tracks db)) db;
  records_counted : numbered "records" (map record_id (records db)) db
}.

(** A stored quantity that is an integer is at least 1. *)
Definition quantities_positive (db : Store) : Prop :=
  forall c q, In c (cart_items db) -> cart_quantity c = IntegerCell q -> 1 <= q <= max_int64.

(** Both sales counters of every record are 0. *)
Definition nothing_sold (db : Store) : Prop :=
  forall r, In r (records db) -> record_sold_last_year r = 0 /\ record_sold_current_year r = 0.

(** No nullable column that a handler scans into a [string] holds NULL, and
    every role is one of the two of the CHECK. *)
Definition columns_filled (db : Store) : Prop :=
  (forall e, In e (ensembles db) -> ensemble_type e <> None)
  /\ (forall u, In u (users db) -> user_city u <> None /\ role_check (user_role u) = true).

(** A record id that was in use and is not any more. *)
Definition retired (id : Z) (db : Store) : Prop :=
  record_exists id db = false /\ id <= sequence "records" db.

(** *** A session used to exercise the handlers

    A password hash that marks its input, the administrator credentials
    root and toor, and four requests in a row on the empty store: a customer
    registers, an ensemble with one track is added, a record with that
    track, and the customer puts two copies of it into the cart. *)
Definition sample_hash (password : string) : Fallible string :=
  Done ("$2a$10$" +:+ password).

Definition ann : RegisterRequest :=
  mkRegisterRequest "Ann" "Lee" "ann" "ann@example.com" "secret" "Oslo".

Definition quartet_a : AddEnsembleRequest :=
  mkAddEnsembleRequest "Quartet A" "quartet" [mkAddTrackRequest "Intro" 120].

Definition live_set : AddRecordRequest :=
  mkAddRecordRequest "Live Set" "EMI" "Abbey Road 3" 10%float 15%float "2020-01-01" 3 [1].

Definition registered : Store :=
  store (RegisterHandler sample_hash "root" "toor" healthy ann empty_store).

Definition with_quartet : Store := committed (AddEnsembleHandler healthy quartet_a registered).

Definition with_live_set : Store := committed (AddRecordHandler healthy live_set with_quartet).

Definition with_cart : Store :=
  store (AddToCartHandler healthy 1 (mkCartRequest 1 2) with_live_set).

(** *** The ensemble report *)

(** The ids of the tracks an ensemble owns, and the records that carry one
    of them: the records the report is about. *)
Definition ensemble_track_ids (e : Z) (db : Store) : list Z :=
  map track_id (List.filter (owned_by_ensemble e) (tracks db)).

Definition carries_track_of (e : Z) (db : Store) (r : RecordRow) : bool :=
  existsb (fun rt => (rt_record_id rt =? record_id r)
                     && mem (rt_track_id rt) (ensemble_track_ids e db))
          (record_tracks db).

Definition records_of_ensemble (e : Z) (db : Store) : list RecordRow :=
  List.filter (carries_track_of e db) (records db).

(** An engine that yields distinct values in the order of their first
    occurrence. *)
Definition first_occurrences (ids : list Z) : list Z := idsSeen (id_rows ids).

(** *** The best-seller report *)

(** An engine that sorts by insertion and keeps rows with equal counters in
    storage order. *)
Fixpoint insert_by_sold (r : RecordRow) (sorted : list RecordRow) : list RecordRow :=
  match sorted with
  | [] => [r]
  | x :: rest =>
      if record_sold_current_year x <=? record_sold_current_year r
      then r :: sorted
      else x :: insert_by_sold r rest
  end.

Definition sort_by_sold (rows : list RecordRow) : list RecordRow :=
  fold_right insert_by_sold [] rows.

(** Three records without tracks that sold 10, 50 and 5 copies this year. *)
Definition sold_record (id sold : Z) : RecordRow :=
  mkRecordRow id "Title" "EMI" "Abbey Road 3" 10%float 15%float "2020-01-01" 0 sold 1.

Definition three_sellers : Store :=
  with_records empty_store [sold_record 1 10; sold_record 2 50; sold_record 3 5]
    (<["records" := 3]> ∅).

(** *** The cart of one user *)

(** The rows of the cart other than the row of user [u] for record [r]. *)
Definition other_rows (u r : Z) (db : Store) : list CartItemRow :=
  List.filter (fun c => negb (in_cart u r c)) (cart_items db).

(** The second store differs from the first in [cart_items] at most. *)
Definition same_but_cart (db db' : Store) : Prop :=
  with_cart_items db' (cart_items db) = db.

(** *** Creating an owner with its tracks *)

(** A requested track the loop does not skip. *)
Definition valid_track (q : AddTrackRequest) : bool :=
  negb (String.eqb (AddTrack_Name q) "" || (AddTrack_Duration q <=? 0)).

(** The row stored for a requested track, but for its id. *)
Definition track_columns (t : TrackRow) : string * Z * option Z * option Z :=
  (track_name t, track_duration t, track_musician_id t, track_ensemble_id t).

Definition requested_columns (m e : option Z) (q : AddTrackRequest)
  : string * Z * option Z * option Z :=
  (AddTrack_Name q, AddTrack_Duration q, m, e).

(** The second store differs from the first in [tracks] and in the
    counters at most. *)
Definition same_but_tracks (db db' : Store) : Prop :=
  users db' = users db /\ ensembles db' = ensembles db /\ musicians db' = musicians db
  /\ records db' = records db /\ record_tracks db' = record_tracks db
  /\ cart_items db' = cart_items db.

(** An ensemble as [GetEnsemblesHandler] lists it. *)
Definition listed (e : EnsembleRow) : Ensemble :=
  mkEnsemble (ensemble_id e) (ensemble_name e) (default "" (ensemble_type e)).

(** *** Users *)

(** The role [RegisterHandler] gives to a request. *)
Definition role_of (ADMIN_USERNAME ADMIN_PASSWORD : string) (req : RegisterRequest) : string :=
  if String.eqb (Register_Username req) ADMIN_USERNAME
     && String.eqb (Register_Password req) ADMIN_PASSWORD
  then "admin" else "user".

(** A user row as the profile shows it: without the password hash. *)
Definition profile (row : UserRow) : User :=
  mkUser (user_id row) (user_first_name row) (user_last_name row) (user_username row)
    (user_email row) "" (default "" (user_city row)) (user_role row).

(** The columns of a user row that [UpdateProfileHandler] does not name. *)
Definition account (row : UserRow) : Z * string * string * string * string :=
  (user_id row, user_username row, user_email row, user_password_hash row, user_role row).

(** Some user has the name. *)
Definition has_user (username : string) (db : Store) : Prop :=
  existsb (fun u => String.eqb (user_username u) username) (users db) = true.

(** *** Updating a record *)

(** The columns of a record row that [UpdateRecordHandler] does not name. *)
Definition sales (row : RecordRow) : Z * Z * Z :=
  (record_id row, record_sold_last_year row, record_sold_current_year row).

(** A request that tries the administrator's credentials of the session. *)
Definition eve : RegisterRequest :=
  mkRegisterRequest "Eve" "Moe" "root" "eve@example.com" "toor" "Rome".

(** The store after the start-up registration on the empty store. *)
Definition started : Store :=
  admin_store (RegisterAdminUser sample_hash healthy "root" "toor" empty_store).
(** * Properties *)

(** ** Auxiliary facts on lists, numbers and the engine *)

Lemma is_int64_spec z : is_int64 z = true <-> min_int64 <= z <= max_int64.
Proof.
  unfold is_int64. rewrite andb_true_iff, !Z.leb_le. tauto.
Qed.

Lemma rowid_int64 id : rowid id -> is_int64 id = true.
Proof.
  unfold rowid. intros H. apply is_int64_spec. unfold min_int64. lia.
Qed.

Lemma rowid_positive id : rowid id -> (id <=? 0) = false.
Proof.
  unfold rowid. intros H. apply Z.leb_gt. lia.
Qed.

Lemma healthy_call k : healthy k = NoFault.
Proof. reflexivity. Qed.

Section ListFacts.
Context {A : Type}.
Variable p : A -> bool.

Lemma find_none_existsb (l : list A) : find p l = None -> existsb p l = false.
Proof.
  induction l as [|x l IH]; simpl; [reflexivity|].
  destruct (p x); [discriminate|]. exact IH.
Qed.

Lemma existsb_false_find (l : list A) : existsb p l = false -> find p l = None.
Proof.
  induction l as [|x l IH]; simpl; [reflexivity|].
  destruct (p x); simpl; [discriminate|]. exact IH.
Qed.

Lemma find_some_existsb (l : list A) x : find p l = Some x -> existsb p l = true.
Proof.
  intros H. destruct (existsb p l) eqn:E; [reflexivity|].
  rewrite (existsb_false_find _ E) in H. discriminate.
Qed.

Lemma find_app_none (l l' : list A) :
  find p l = None -> find p (l ++ l') = find p l'.
Proof.
  induction l as [|x l IH]; simpl; [reflexivity|].
  destruct (p x); [discriminate|]. exact IH.
Qed.

Lemma filter_none (l : list A) :
  existsb p l = false -> List.filter (fun x => negb (p x)) l = l.
Proof.
  induction l as [|x l IH]; simpl; [reflexivity|].
  destruct (p x); simpl; [discriminate|]. intros H. f_equal. exact (IH H).
Qed.

Lemma filter_nil_existsb (l : list A) :
  List.filter p l = [] <-> existsb p l = false.
Proof.
  induction l as [|x l IH]; simpl; [tauto|].
  destruct (p x); simpl; [split; discriminate|]. exact IH.
Qed.

Lemma find_filter_negb (l : list A) : find p (List.filter (fun x => negb (p x)) l) = None.
Proof.
  induction l as [|x l IH]; simpl; [reflexivity|].
  destruct (p x) eqn:E; simpl; [exact IH|]. rewrite E. exact IH.
Qed.
End ListFacts.

Lemma len_zero {A} (l : list A) : (len l =? 0) = true <-> l = [].
Proof.
  unfold len. rewrite Z.eqb_eq. destruct l; simpl; split; intros H;
    try reflexivity; try discriminate; lia.
Qed.

Lemma len_filter_zero {A} (p : A -> bool) (l : list A) :
  (len (List.filter p l) =? 0) = negb (existsb p l).
Proof.
  destruct (existsb p l) eqn:E; simpl.
  - apply Z.eqb_neq. intros H.
    assert (Hn : List.filter p l = []) by (apply len_zero, Z.eqb_eq, H).
    apply filter_nil_existsb in Hn. congruence.
  - apply len_zero, filter_nil_existsb, E.
Qed.

(** ** Facts on the cart statements *)

Lemma add_quantity_absent u r q (l : list CartItemRow) :
  find (in_cart u r) l = None -> map (add_quantity u r q) l = l.
Proof.
  induction l as [|x l IH]; simpl; [reflexivity|].
  unfold add_quantity at 1. destruct (in_cart u r x); [discriminate|].
  intros H. f_equal. exact (IH H).
Qed.

Lemma in_cart_row u r c : in_cart u r (mkCartItemRow u r c) = true.
Proof. unfold in_cart. simpl. rewrite !Z.eqb_refl. reflexivity. Qed.

Lemma find_add_quantity u r q (l : list CartItemRow) :
  find (in_cart u r) (map (add_quantity u r q) l)
  = add_quantity u r q <$> find (in_cart u r) l.
Proof.
  induction l as [|x l IH]; simpl; [reflexivity|].
  unfold add_quantity at 1. destruct (in_cart u r x) eqn:E.
  - unfold in_cart in *. simpl. rewrite E. simpl. unfold add_quantity, in_cart.
    rewrite E. reflexivity.
  - rewrite E. exact IH.
Qed.

Lemma find_set_quantity u r q (l : list CartItemRow) :
  find (in_cart u r) (map (set_quantity u r q) l)
  = set_quantity u r q <$> find (in_cart u r) l.
Proof.
  induction l as [|x l IH]; simpl; [reflexivity|].
  unfold set_quantity at 1. destruct (in_cart u r x) eqn:E.
  - unfold in_cart in *. simpl. rewrite E. simpl. unfold set_quantity, in_cart.
    rewrite E. reflexivity.
  - rewrite E. exact IH.
Qed.

Lemma stored_quantity_none u r db :
  stored_quantity u r db = None <-> find_cart_item u r db = None.
Proof.
  unfold stored_quantity. destruct (find_cart_item u r db); simpl; split; congruence.
Qed.

Lemma stored_quantity_present u r db :
  stored_quantity u r db <> None -> exists row, find_cart_item u r db = Some row.
Proof.
  unfold stored_quantity. destruct (find_cart_item u r db) as [row|]; [eauto|].
  intros H. exfalso. apply H. reflexivity.
Qed.

(** [Add] on a healthy engine, for a record that exists. *)
Lemma AddToCart_healthy u r q db :
  rowid r -> quantity q -> record_exists r db = true ->
  AddToCartHandler healthy u (mkCartRequest r q) db
  = match UpsertCartItem NoFault u r q db with
    | SqlErr e =>
        mkOutcome (respondWithError StatusInternalServerError "Failed to add item to cart") db
          [Printf "Database error adding/updating cart item: %v" [ArgError e]]
    | SqlOk db' => mkOutcome (respondWithJSON StatusOK "Item added to cart") db' []
    end.
Proof.
  intros Hr Hq He. unfold AddToCartHandler. simpl RecordID. simpl Quantity.
  rewrite (rowid_int64 r Hr), (rowid_int64 q Hq). simpl negb. cbv iota.
  rewrite (rowid_positive r Hr), (rowid_positive q Hq). simpl orb. cbv iota.
  unfold QueryRecordExists. rewrite healthy_call. simpl faulty. cbv iota.
  rewrite He. reflexivity.
Qed.

Lemma Upsert_absent u r q db :
  find_cart_item u r db = None -> user_exists u db = true -> record_exists r db = true ->
  UpsertCartItem NoFault u r q db
  = SqlOk (with_cart_items db (cart_items db ++ [mkCartItemRow u r (IntegerCell q)])).
Proof.
  intros Ha Hu Hr. unfold UpsertCartItem. simpl faulty. cbv iota.
  rewrite (find_none_existsb _ _ Ha), Hu, Hr. reflexivity.
Qed.

Lemma Upsert_present u r q db row :
  find_cart_item u r db = Some row ->
  UpsertCartItem NoFault u r q db
  = SqlOk (with_cart_items db (map (add_quantity u r q) (cart_items db))).
Proof.
  intros Hp. unfold UpsertCartItem. simpl faulty. cbv iota.
  rewrite (find_some_existsb _ _ _ Hp). reflexivity.
Qed.

Lemma sqlite_add_in_range q z :
  min_int64 <= q + z <= max_int64 -> sqlite_add (IntegerCell q) z = IntegerCell (q + z).
Proof.
  intros H. unfold sqlite_add. apply is_int64_spec in H. rewrite H. reflexivity.
Qed.

(** ** C1 *)

(** C1. On a cart without a row for user [u] and record [r], [Add(u, r, q1)]
    followed by [Add(u, r, q2)] leaves the row with quantity [q1 + q2], in
    the same store as the single [Add(u, r, q1 + q2)]; the first [Add] takes
    the row from absent to present with [q1], an [Add] on a present row with
    quantity [q] takes it to [q + qty]. *)
Theorem C1_add_accumulates (u r q1 q2 : Z) (db : Store) :
  user_exists u db = true -> record_exists r db = true -> rowid r ->
  1 <= q1 -> 1 <= q2 -> q1 + q2 <= max_int64 ->
  stored_quantity u r db = None ->
  let first := AddToCartHandler healthy u (mkCartRequest r q1) db in
  let second := AddToCartHandler healthy u (mkCartRequest r q2) (store first) in
  let single := AddToCartHandler healthy u (mkCartRequest r (q1 + q2)) db in
  response first = respondWithJSON StatusOK "Item added to cart"
  /\ stored_quantity u r (store first) = Some (IntegerCell q1)
  /\ response second = respondWithJSON StatusOK "Item added to cart"
  /\ stored_quantity u r (store second) = Some (IntegerCell (q1 + q2))
  /\ response single = respondWithJSON StatusOK "Item added to cart"
  /\ store second = store single
  /\ (forall (db0 : Store) (q qty : Z),
        record_exists r db0 = true -> quantity qty -> q + qty <= max_int64 ->
        1 <= q ->
        stored_quantity u r db0 = Some (IntegerCell q) ->
        let o := AddToCartHandler healthy u (mkCartRequest r qty) db0 in
        response o = respondWithJSON StatusOK "Item added to cart"
        /\ stored_quantity u r (store o) = Some (IntegerCell (q + qty))).
Proof.
  intros Hu Hr Hid H1 H2 Hsum Habs. apply stored_quantity_none in Habs.
  assert (Hq1 : quantity q1) by (unfold quantity; lia).
  assert (Hq2 : quantity q2) by (unfold quantity; lia).
  assert (Hq : quantity (q1 + q2)) by (unfold quantity; lia).
  cbv zeta.
  rewrite (AddToCart_healthy u r q1 db Hid Hq1 Hr).
  rewrite (AddToCart_healthy u r (q1 + q2) db Hid Hq Hr).
  rewrite !(Upsert_absent u r _ db Habs Hu Hr). cbn [store response].
  set (db1 := with_cart_items db (cart_items db ++ [mkCartItemRow u r (IntegerCell q1)])).
  assert (Hf1 : find_cart_item u r db1 = Some (mkCartItemRow u r (IntegerCell q1))).
  { unfold find_cart_item, db1. cbn [cart_items with_cart_items].
    unfold find_cart_item in Habs. rewrite (find_app_none _ _ _ Habs).
    simpl. rewrite in_cart_row. reflexivity. }
  assert (Hr1 : record_exists r db1 = true) by exact Hr.
  rewrite (AddToCart_healthy u r q2 db1 Hid Hq2 Hr1).
  rewrite (Upsert_present u r q2 db1 _ Hf1). cbn [store response].
  assert (Hstore : with_cart_items db1 (map (add_quantity u r q2) (cart_items db1))
                   = with_cart_items db (cart_items db ++ [mkCartItemRow u r (IntegerCell (q1 + q2))])).
  { unfold db1, with_cart_items. cbn [users ensembles musicians tracks records
      record_tracks cart_items sqlite_sequence]. f_equal.
    rewrite map_app. unfold find_cart_item in Habs.
    rewrite (add_quantity_absent u r q2 _ Habs). f_equal. simpl.
    unfold add_quantity. rewrite in_cart_row. cbn [cart_user_id cart_record_id cart_quantity].
    rewrite sqlite_add_in_range by (unfold min_int64; lia). reflexivity. }
  split_and!; try reflexivity.
  - unfold stored_quantity. rewrite Hf1. reflexivity.
  - rewrite Hstore. unfold stored_quantity, find_cart_item. cbn [cart_items with_cart_items].
    unfold find_cart_item in Habs. rewrite (find_app_none _ _ _ Habs).
    simpl. rewrite in_cart_row. reflexivity.
  - exact Hstore.
  - intros db0 q qty He Hqty Hs Hmin Hst.
    rewrite (AddToCart_healthy u r qty db0 Hid Hqty He).
    unfold stored_quantity in Hst. destruct (find_cart_item u r db0) as [row|] eqn:Ef;
      [|discriminate].
    rewrite (Upsert_present u r qty db0 row Ef). cbn [store response].
    split; [reflexivity|].
    unfold stored_quantity, find_cart_item. cbn [cart_items with_cart_items].
    rewrite find_add_quantity. unfold find_cart_item in Ef. rewrite Ef. simpl.
    unfold add_quantity. destruct (find_some _ _ Ef) as [_ Hin]. rewrite Hin.
    cbn [cart_quantity]. simpl in Hst. injection Hst as Hst. rewrite Hst.
    rewrite sqlite_add_in_range by (unfold quantity, min_int64 in *; lia). reflexivity.
Qed.

Lemma C1_add_accumulates_witness :
  stored_quantity 1 5
    (store (AddToCartHandler healthy 1 (mkCartRequest 5 3)
              (store (AddToCartHandler healthy 1 (mkCartRequest 5 2) shop))))
  = Some (IntegerCell 5)
  /\ store (AddToCartHandler healthy 1 (mkCartRequest 5 3)
              (store (AddToCartHandler healthy 1 (mkCartRequest 5 2) shop)))
     = store (AddToCartHandler healthy 1 (mkCartRequest 5 5) shop).
Proof.
  pose proof (C1_add_accumulates 1 5 2 3 shop) as H. cbv zeta in H.
  assert (Hid : rowid 5) by (unfold rowid, max_int64; lia).
  assert (Hsum : 2 + 3 <= max_int64) by (unfold max_int64; lia).
  specialize (H eq_refl eq_refl Hid ltac:(lia) ltac:(lia) Hsum eq_refl).
  destruct H as (_ & _ & _ & H4 & _ & H6 & _). split; [exact H4 | exact H6].
Defined.

(** ** C4 *)

Lemma with_cart_items_same db : with_cart_items db (cart_items db) = db.
Proof. destruct db; reflexivity. Qed.

Lemma set_quantity_absent u r q (l : list CartItemRow) :
  find (in_cart u r) l = None -> map (set_quantity u r q) l = l.
Proof.
  induction l as [|x l IH]; simpl; [reflexivity|].
  unfold set_quantity at 1. destruct (in_cart u r x); [discriminate|].
  intros H. f_equal. exact (IH H).
Qed.

Lemma record_exists_find r db :
  record_exists r db = true <-> exists rec, find_record r db = Some rec.
Proof.
  unfold record_exists, find_record. split.
  - intros H. destruct (find _ (records db)) eqn:E; [eauto|].
    rewrite (find_none_existsb _ _ E) in H. discriminate.
  - intros [rec H]. exact (find_some_existsb _ _ _ H).
Qed.

Lemma UpdateCart_guards u r q db :
  rowid r -> 0 <= q <= max_int64 ->
  UpdateCartHandler healthy u r q db
  = if q =? 0
    then match DeleteCartItem NoFault u r db with
         | SqlErr e =>
             mkOutcome (respondWithError StatusInternalServerError
                          "Failed to remove item from cart") db
               [Printf "Database error deleting cart item: %v" [ArgError e]]
         | SqlOk (db', rowsAffected) =>
             if rowsAffected =? 0
             then mkOutcome (respondWithError StatusNotFound "Item not found in cart") db' []
             else mkOutcome (respondWithJSON StatusOK "Item removed from cart") db' []
         end
    else match QueryRecordStock NoFault r db with
         | SqlOk None => mkOutcome (respondWithError StatusNotFound "Record not found") db []
         | SqlErr e =>
             mkOutcome (respondWithError StatusInternalServerError "Database error") db
               [Printf "Database error checking record stock for update: %v" [ArgError e]]
         | SqlOk (Some stock) =>
             match UpdateCartItem NoFault q u r db with
             | SqlErr e =>
                 mkOutcome (respondWithError StatusInternalServerError
                              "Failed to update item quantity in cart") db
                   [Printf "Database error updating cart item: %v" [ArgError e]]
             | SqlOk (db', rowsAffected) =>
                 if rowsAffected =? 0
                 then mkOutcome (respondWithError StatusNotFound "Item not found in cart") db' []
                 else mkOutcome (respondWithJSON StatusOK "Cart item quantity updated") db' []
             end
         end.
Proof.
  intros Hr Hq. unfold UpdateCartHandler.
  rewrite (rowid_int64 r Hr), (rowid_positive r Hr). simpl orb. cbv iota.
  assert (Hi : is_int64 q = true) by (apply is_int64_spec; unfold min_int64; lia).
  rewrite Hi. simpl negb. cbv iota.
  assert (Hn : (q <? 0) = false) by (apply Z.ltb_ge; lia).
  rewrite Hn. reflexivity.
Qed.

(** [Set] with a positive quantity on a present row of an existing record
    puts the quantity in the place of the stored one. *)
Lemma UpdateCart_overwrites (u r q : Z) (db : Store) :
  rowid r -> 0 < q <= max_int64 ->
  stored_quantity u r db <> None -> record_exists r db = true ->
  response (UpdateCartHandler healthy u r q db)
  = respondWithJSON StatusOK "Cart item quantity updated"
  /\ stored_quantity u r (store (UpdateCartHandler healthy u r q db))
     = Some (IntegerCell q).
Proof.
  intros Hr Hq Hp He. rewrite (UpdateCart_guards u r q db Hr) by lia.
  assert (Hz : (q =? 0) = false) by (apply Z.eqb_neq; lia). rewrite Hz.
  unfold UpdateCartItem, QueryRecordStock. simpl faulty. cbv iota.
  rewrite len_filter_zero.
  apply record_exists_find in He. destruct He as [rec He]. rewrite He.
  simpl fmap. cbv iota beta. apply stored_quantity_present in Hp. destruct Hp as [row Ef].
  unfold find_cart_item in Ef. rewrite (find_some_existsb _ _ _ Ef). simpl.
  split; [reflexivity|]. unfold stored_quantity, find_cart_item.
  cbn [cart_items with_cart_items]. rewrite find_set_quantity, Ef. simpl.
  unfold set_quantity. destruct (find_some _ _ Ef) as [_ Hin]. rewrite Hin.
  reflexivity.
Qed.

(** C4. [Set(u, r, q)] for a record id [r] and [q >= 0]: with [q = 0] a
    present row is deleted; with [q > 0] a present row of an existing record
    gets the quantity [q] in place of the stored one; on an absent row the
    answer is a not-found error and the store is as before; with [q > 0] a
    record that does not exist is answered by a not-found error. *)
Theorem C4_set_quantity (u r q : Z) (db : Store) :
  rowid r -> 0 <= q <= max_int64 ->
  let o := UpdateCartHandler healthy u r q db in
  (q = 0 -> stored_quantity u r db <> None ->
     response o = respondWithJSON StatusOK "Item removed from cart"
     /\ stored_quantity u r (store o) = None)
  /\ (0 < q -> stored_quantity u r db <> None -> record_exists r db = true ->
        response o = respondWithJSON StatusOK "Cart item quantity updated"
        /\ stored_quantity u r (store o) = Some (IntegerCell q))
  /\ (stored_quantity u r db = None ->
        (exists msg, response o = respondWithError StatusNotFound msg) /\ store o = db)
  /\ (0 < q -> record_exists r db = false ->
        response o = respondWithError StatusNotFound "Record not found" /\ store o = db).
Proof.
  intros Hr Hq. cbv zeta. split_and!.
  - intros -> Hp. rewrite (UpdateCart_guards u r 0 db Hr Hq).
    unfold DeleteCartItem. simpl faulty. cbv iota. rewrite len_filter_zero. simpl.
    apply stored_quantity_present in Hp. destruct Hp as [row Ef].
    unfold find_cart_item in Ef. rewrite (find_some_existsb _ _ _ Ef). simpl.
    split; [reflexivity|]. apply stored_quantity_none. unfold find_cart_item.
    cbn [cart_items with_cart_items]. apply find_filter_negb.
  - intros Hpos Hp He. apply UpdateCart_overwrites; [exact Hr | lia | exact Hp | exact He].
  - intros Ha. rewrite (UpdateCart_guards u r q db Hr Hq).
    unfold DeleteCartItem, UpdateCartItem, QueryRecordStock. simpl faulty. cbv iota.
    rewrite !len_filter_zero.
    apply stored_quantity_none in Ha. unfold find_cart_item in Ha.
    rewrite (find_none_existsb _ _ Ha). simpl negb.
    rewrite (filter_none _ _ (find_none_existsb _ _ Ha)).
    rewrite (set_quantity_absent u r q _ Ha). rewrite with_cart_items_same.
    destruct (q =? 0); simpl.
    + split; [eexists; reflexivity | reflexivity].
    + destruct (find_record r db); simpl; (split; [eexists; reflexivity | reflexivity]).
  - intros Hpos Hn. rewrite (UpdateCart_guards u r q db Hr Hq).
    assert (Hz : (q =? 0) = false) by (apply Z.eqb_neq; lia).
    rewrite Hz. unfold QueryRecordStock. simpl faulty. cbv iota.
    unfold record_exists in Hn. unfold find_record.
    rewrite (existsb_false_find _ _ Hn). simpl. split; reflexivity.
Qed.

Lemma C4_set_quantity_witness :
  stored_quantity 1 5
    (store (UpdateCartHandler healthy 1 5 7
              (shop_with_cart [mkCartItemRow 1 5 (IntegerCell 2)])))
  = Some (IntegerCell 7)
  /\ stored_quantity 1 5
       (store (UpdateCartHandler healthy 1 5 0
                 (shop_with_cart [mkCartItemRow 1 5 (IntegerCell 2)])))
     = None
  /\ store (UpdateCartHandler healthy 1 6 4
              (shop_with_cart [mkCartItemRow 1 5 (IntegerCell 2)]))
     = shop_with_cart [mkCartItemRow 1 5 (IntegerCell 2)].
Proof.
  assert (H5 : rowid 5) by (unfold rowid, max_int64; lia).
  assert (H6 : rowid 6) by (unfold rowid, max_int64; lia).
  split_and!.
  - assert (Hq : 0 <= 7 <= max_int64) by (unfold max_int64; lia).
    pose proof (C4_set_quantity 1 5 7 (shop_with_cart [mkCartItemRow 1 5 (IntegerCell 2)])
                  H5 Hq) as H.
    cbv zeta in H. destruct H as (_ & H & _).
    apply H; [lia | discriminate | reflexivity].
  - assert (Hq : 0 <= 0 <= max_int64) by (unfold max_int64; lia).
    pose proof (C4_set_quantity 1 5 0 (shop_with_cart [mkCartItemRow 1 5 (IntegerCell 2)])
                  H5 Hq) as H.
    cbv zeta in H. destruct H as (H & _).
    apply H; [reflexivity | discriminate].
  - assert (Hq : 0 <= 4 <= max_int64) by (unfold max_int64; lia).
    pose proof (C4_set_quantity 1 6 4 (shop_with_cart [mkCartItemRow 1 5 (IntegerCell 2)])
                  H6 Hq) as H.
    cbv zeta in H. destruct H as (_ & _ & H & _).
    apply H. reflexivity.
Defined.

(** ** C10 *)

(** Case analysis on the innermost scrutinee of the goal, repeated. *)
Ltac case_inner :=
  match goal with
  | |- context [match ?x with _ => _ end] =>
      lazymatch x with
      | context [match _ with _ => _ end] => fail
      | _ => destruct x; cbv beta iota
      end
  end.

Ltac case_all := repeat case_inner.

Lemma GetCart_reads_only io u db : store (GetCartHandler io u db) = db.
Proof.
  unfold GetCartHandler. case_all; reflexivity.
Qed.

Lemma GetRecords_reads_only io db : store (GetRecordsHandler io db) = db.
Proof.
  unfold GetRecordsHandler, tracks_fetched. case_all; reflexivity.
Qed.

Lemma AddToCart_records io u req db :
  records (store (AddToCartHandler io u req db)) = records db.
Proof.
  unfold AddToCartHandler, QueryRecordExists, UpsertCartItem.
  case_all; reflexivity.
Qed.

Lemma UpdateCart_records io u r q db :
  records (store (UpdateCartHandler io u r q db)) = records db.
Proof.
  unfold UpdateCartHandler, QueryRecordStock, UpdateCartItem, DeleteCartItem.
  case_all; reflexivity.
Qed.

Lemma RemoveFromCart_records io u r db :
  records (store (RemoveFromCartHandler io u r db)) = records db.
Proof.
  unfold RemoveFromCartHandler, DeleteCartItem. case_all; reflexivity.
Qed.

Lemma restock_row_id r s rec : record_id (restock_row r s rec) = record_id rec.
Proof. unfold restock_row. destruct (record_id rec =? r); reflexivity. Qed.

Lemma record_exists_restock id r s db :
  record_exists id (restock r s db) = record_exists id db.
Proof.
  unfold record_exists, restock. cbn [records with_records].
  induction (records db) as [|x l IH]; simpl; [reflexivity|].
  rewrite restock_row_id, IH. reflexivity.
Qed.

Lemma find_record_restock id r s db :
  find_record id (restock r s db) = restock_row r s <$> find_record id db.
Proof.
  unfold find_record, restock. cbn [records with_records].
  induction (records db) as [|x l IH]; simpl; [reflexivity|].
  rewrite restock_row_id. destruct (record_id x =? id); [reflexivity | exact IH].
Qed.

(** The stock of a record has no part in [Add]. *)
Lemma AddToCart_restock io u req r s db :
  AddToCartHandler io u req (restock r s db)
  = mkOutcome (response (AddToCartHandler io u req db))
              (restock r s (store (AddToCartHandler io u req db)))
              (logged (AddToCartHandler io u req db)).
Proof.
  unfold AddToCartHandler, QueryRecordExists, UpsertCartItem.
  rewrite !record_exists_restock.
  change (cart_items (restock r s db)) with (cart_items db).
  change (user_exists u (restock r s db)) with (user_exists u db).
  case_all; reflexivity.
Qed.

(** The stock of a record has no part in [Set]: it is read and dropped. *)
Lemma UpdateCart_restock io u id q r s db :
  UpdateCartHandler io u id q (restock r s db)
  = mkOutcome (response (UpdateCartHandler io u id q db))
              (restock r s (store (UpdateCartHandler io u id q db)))
              (logged (UpdateCartHandler io u id q db)).
Proof.
  unfold UpdateCartHandler, QueryRecordStock, UpdateCartItem, DeleteCartItem.
  rewrite !find_record_restock.
  change (cart_items (restock r s db)) with (cart_items db).
  destruct (find_record id db); simpl fmap; case_all; reflexivity.
Qed.

Lemma RemoveFromCart_restock io u id r s db :
  RemoveFromCartHandler io u id (restock r s db)
  = mkOutcome (response (RemoveFromCartHandler io u id db))
              (restock r s (store (RemoveFromCartHandler io u id db)))
              (logged (RemoveFromCartHandler io u id db)).
Proof.
  unfold RemoveFromCartHandler, DeleteCartItem.
  change (cart_items (restock r s db)) with (cart_items db).
  case_all; reflexivity.
Qed.

(** C10. The cart never depends on the stock and never writes [records]:
    for an existing record [r], whatever its stock, and a quantity [q >= 1],
    [Add(u, r, q)] succeeds and [Set(u, r, q)] on a present row succeeds and
    stores [q]; giving [r] any other stock [s] changes neither the answer nor
    the cart of [Add], [Set] and [Remove]; and [Add], [Set], [Remove] and
    [List] leave the table [records] as it was. *)
Theorem C10_cart_ignores_stock (u r q : Z) (db : Store) (rec : RecordRow) :
  rowid r -> quantity q -> find_record r db = Some rec ->
  (user_exists u db = true \/ stored_quantity u r db <> None ->
     response (AddToCartHandler healthy u (mkCartRequest r q) db)
     = respondWithJSON StatusOK "Item added to cart")
  /\ (stored_quantity u r db <> None ->
        response (UpdateCartHandler healthy u r q db)
        = respondWithJSON StatusOK "Cart item quantity updated"
        /\ stored_quantity u r (store (UpdateCartHandler healthy u r q db))
           = Some (IntegerCell q))
  /\ (forall (s : Z) (io : Faults) (u' id q' : Z),
        let db_s := restock r s db in
        response (AddToCartHandler io u' (mkCartRequest id q') db_s)
        = response (AddToCartHandler io u' (mkCartRequest id q') db)
        /\ cart_items (store (AddToCartHandler io u' (mkCartRequest id q') db_s))
           = cart_items (store (AddToCartHandler io u' (mkCartRequest id q') db))
        /\ response (UpdateCartHandler io u' id q' db_s)
           = response (UpdateCartHandler io u' id q' db)
        /\ cart_items (store (UpdateCartHandler io u' id q' db_s))
           = cart_items (store (UpdateCartHandler io u' id q' db))
        /\ response (RemoveFromCartHandler io u' id db_s)
           = response (RemoveFromCartHandler io u' id db)
        /\ cart_items (store (RemoveFromCartHandler io u' id db_s))
           = cart_items (store (RemoveFromCartHandler io u' id db)))
  /\ (forall (io : Faults) (u' id q' : Z),
        records (store (AddToCartHandler io u' (mkCartRequest id q') db)) = records db
        /\ records (store (UpdateCartHandler io u' id q' db)) = records db
        /\ records (store (RemoveFromCartHandler io u' id db)) = records db
        /\ records (store (GetCartHandler io u' db)) = records db).
Proof.
  intros Hr Hq Hrec.
  assert (He : record_exists r db = true) by (apply record_exists_find; eauto).
  split_and!.
  - intros Hu. rewrite (AddToCart_healthy u r q db Hr Hq He).
    destruct (find_cart_item u r db) as [row|] eqn:Ef.
    + rewrite (Upsert_present u r q db row Ef). reflexivity.
    + destruct Hu as [Hu|Hp].
      * rewrite (Upsert_absent u r q db Ef Hu He). reflexivity.
      * apply stored_quantity_present in Hp. destruct Hp as [row Hp]. congruence.
  - intros Hp. apply UpdateCart_overwrites;
      [exact Hr | unfold quantity in Hq; lia | exact Hp | exact He].
  - intros s io u' id q'. cbv zeta.
    rewrite AddToCart_restock, UpdateCart_restock, RemoveFromCart_restock.
    cbn [response store]. split_and!; reflexivity.
  - intros io u' id q'. split_and!.
    + apply AddToCart_records.
    + apply UpdateCart_records.
    + apply RemoveFromCart_records.
    + rewrite GetCart_reads_only. reflexivity.
Qed.

Lemma C10_cart_ignores_stock_witness :
  record_stock (sample_record 5 "Live Set" 0) < 7
  /\ response (AddToCartHandler healthy 1 (mkCartRequest 5 7) shop)
     = respondWithJSON StatusOK "Item added to cart".
Proof.
  split; [simpl; lia|].
  assert (Hid : rowid 5) by (unfold rowid, max_int64; lia).
  assert (Hq : quantity 7) by (unfold quantity, max_int64; lia).
  pose proof (C10_cart_ignores_stock 1 5 7 shop (sample_record 5 "Live Set" 0)
                Hid Hq eq_refl) as H.
  destruct H as (H & _). apply H. left. reflexivity.
Defined.

(** ** C9 *)

Lemma filter_negb_not_in {A} (p : A -> bool) (l : list A) x :
  In x (List.filter (fun y => negb (p y)) l) -> p x = false.
Proof.
  intros H. apply filter_In in H. destruct H as [_ H].
  destruct (p x); [discriminate | reflexivity].
Qed.

Lemma existsb_filter_negb {A} (p : A -> bool) (l : list A) :
  existsb p (List.filter (fun y => negb (p y)) l) = false.
Proof.
  induction l as [|x l IH]; simpl; [reflexivity|].
  destruct (p x) eqn:E; simpl; [exact IH|]. rewrite E. exact IH.
Qed.

Lemma owned_by_musician_spec m t :
  owned_by_musician m t = true <-> track_musician_id t = Some m.
Proof.
  unfold owned_by_musician. destruct (track_musician_id t) as [x|].
  - rewrite Z.eqb_eq. split; congruence.
  - split; discriminate.
Qed.

Lemma owned_by_ensemble_spec e t :
  owned_by_ensemble e t = true <-> track_ensemble_id t = Some e.
Proof.
  unfold owned_by_ensemble. destruct (track_ensemble_id t) as [x|].
  - rewrite Z.eqb_eq. split; congruence.
  - split; discriminate.
Qed.

(** C9. Deleting a record that is in the store removes it together with
    every cart row and every association row that references it and leaves
    the table of tracks as it was, so that every track is found as before;
    deleting a musician or an ensemble removes exactly the tracks they
    own. *)
Theorem C9_delete_cascades (r : Z) (db : Store) :
  rowid r -> record_exists r db = true ->
  let o := DeleteRecordHandler healthy r db in
  response o = respondWithJSON StatusOK "Record deleted successfully"
  /\ record_exists r (store o) = false
  /\ cart_items (store o)
     = List.filter (fun c => negb (cart_record_id c =? r)) (cart_items db)
  /\ (forall c, In c (cart_items (store o)) -> cart_record_id c <> r)
  /\ record_tracks (store o)
     = List.filter (fun rt => negb (rt_record_id rt =? r)) (record_tracks db)
  /\ (forall rt, In rt (record_tracks (store o)) -> rt_record_id rt <> r)
  /\ tracks (store o) = tracks db
  /\ (forall t, find_track t (store o) = find_track t db)
  /\ (forall m, musician_exists m db = true ->
        exists db' n, DeleteMusician NoFault m db = SqlOk (db', n)
          /\ tracks db' = List.filter (fun t => negb (owned_by_musician m t)) (tracks db)
          /\ (forall t, In t (tracks db') -> track_musician_id t <> Some m)
          /\ musician_exists m db' = false)
  /\ (forall e, ensemble_exists e db = true ->
        exists db' n, DeleteEnsemble NoFault e db = SqlOk (db', n)
          /\ tracks db' = List.filter (fun t => negb (owned_by_ensemble e t)) (tracks db)
          /\ (forall t, In t (tracks db') -> track_ensemble_id t <> Some e)
          /\ ensemble_exists e db' = false).
Proof.
  intros Hr He. cbv zeta. unfold DeleteRecordHandler.
  rewrite (rowid_int64 r Hr), (rowid_positive r Hr). simpl orb. cbv iota.
  unfold DeleteRecord. rewrite healthy_call. simpl faulty. cbv iota. rewrite He.
  rewrite len_filter_zero. fold (record_exists r db). rewrite He. simpl negb. cbv iota.
  cbn [response store cart_items record_tracks tracks records].
  split_and!; try reflexivity.
  - unfold record_exists. cbn [records].
    apply (existsb_filter_negb (fun x => record_id x =? r)).
  - intros c Hc. apply (filter_negb_not_in (fun c => cart_record_id c =? r)) in Hc.
    apply Z.eqb_neq, Hc.
  - intros rt Hrt. apply (filter_negb_not_in (fun rt => rt_record_id rt =? r)) in Hrt.
    apply Z.eqb_neq, Hrt.
  - intros m Hm. unfold DeleteMusician. simpl faulty. cbv iota. rewrite Hm.
    eexists _, _. split; [reflexivity|].
    cbn [tracks with_musicians delete_tracks musicians]. split_and!.
    + reflexivity.
    + intros t Ht. apply filter_negb_not_in in Ht. intros Hown.
      apply owned_by_musician_spec in Hown. congruence.
    + unfold musician_exists. cbn [musicians with_musicians].
      apply (existsb_filter_negb (fun x => musician_id x =? m)).
  - intros e Hex. unfold DeleteEnsemble. simpl faulty. cbv iota. rewrite Hex.
    eexists _, _. split; [reflexivity|].
    cbn [tracks delete_tracks ensembles]. split_and!.
    + reflexivity.
    + intros t Ht. apply filter_negb_not_in in Ht. intros Hown.
      apply owned_by_ensemble_spec in Hown. congruence.
    + unfold ensemble_exists. cbn [ensembles].
      apply (existsb_filter_negb (fun x => ensemble_id x =? e)).
Qed.

Lemma C9_delete_cascades_witness :
  let db := shop_with_cart [mkCartItemRow 1 6 (IntegerCell 2); mkCartItemRow 1 5 (IntegerCell 1)] in
  let o := DeleteRecordHandler healthy 6 db in
  cart_items (store o) = [mkCartItemRow 1 5 (IntegerCell 1)]
  /\ record_tracks (store o) = []
  /\ find_track 1 (store o) = Some (mkTrackRow 1 "Intro" 120 None (Some 1)).
Proof.
  cbv zeta.
  assert (Hid : rowid 6) by (unfold rowid, max_int64; lia).
  pose proof (C9_delete_cascades 6
    (shop_with_cart [mkCartItemRow 1 6 (IntegerCell 2); mkCartItemRow 1 5 (IntegerCell 1)])
    Hid eq_refl) as H.
  cbv zeta in H. destruct H as (_ & _ & Hc & _ & Hrt & _ & _ & Ht & _).
  split_and!.
  - rewrite Hc. reflexivity.
  - rewrite Hrt. reflexivity.
  - rewrite Ht. reflexivity.
Defined.

(** ** C7 *)

Lemma owner_check_one_owner id name duration m e :
  owner_check m e = true -> one_owner (mkTrackRow id name duration m e).
Proof.
  unfold one_owner. simpl. destruct m, e; simpl; try discriminate; intros _.
  - left. split; [discriminate | reflexivity].
  - right. split; [reflexivity | discriminate].
Qed.

(** What a successful [INSERT INTO tracks] does: the CHECK held and one row
    was added. *)
Lemma InsertTrack_ok f name duration m e db db' id :
  InsertTrack f name duration m e db = SqlOk (db', id) ->
  owner_check m e = true
  /\ tracks db' = tracks db ++ [mkTrackRow id name duration m e].
Proof.
  unfold InsertTrack. destruct (faulty f); [discriminate|].
  destruct (new_rowid _ _ db) as [n|]; [|discriminate].
  destruct (owner_check m e); simpl; [|discriminate].
  destruct (_ && _); [|discriminate].
  intros H. injection H as <- <-. split; reflexivity.
Qed.

(** The loop over the requested tracks only appends tracks with the owner
    columns it was given. *)
Lemma insert_tracks_appends io owner ownerID m e reqs :
  forall k work,
    let r := insert_tracks io k owner ownerID m e reqs work in
    exists new,
      tracks (pending_store r) = tracks work ++ new
      /\ Forall (fun t => track_musician_id t = m /\ track_ensemble_id t = e) new
      /\ (new <> [] -> owner_check m e = true).
Proof.
  induction reqs as [|q reqs IH]; intros k work; cbn [insert_tracks].
  - exists []. cbn [pending_store]. rewrite app_nil_r. split_and!; [reflexivity | constructor | congruence].
  - destruct (String.eqb (AddTrack_Name q) "" || (AddTrack_Duration q <=? 0)).
    + cbn [pending_store]. apply IH.
    + destruct (InsertTrack (io k) _ _ m e work) as [[work' id]|err] eqn:E.
      * apply InsertTrack_ok in E. destruct E as [Hc Ht].
        destruct (IH (S k) work') as (new & Hn & Hall & _).
        exists (mkTrackRow id (AddTrack_Name q) (AddTrack_Duration q) m e :: new).
        cbv zeta in Hn. rewrite Hn, Ht, <- app_assoc. split_and!.
        -- reflexivity.
        -- constructor; [split; reflexivity | exact Hall].
        -- intros _. exact Hc.
      * exists []. cbn [pending_store]. rewrite app_nil_r.
        split_and!; [reflexivity | constructor | congruence].
Qed.

Lemma InsertMusician_tracks f first last role ens db db' id :
  InsertMusician f first last role ens db = SqlOk (db', id) -> tracks db' = tracks db.
Proof.
  unfold InsertMusician. case_all; try discriminate.
  intros H. injection H as <- _. reflexivity.
Qed.

Lemma InsertEnsemble_tracks f name type db db' id :
  InsertEnsemble f name type db = SqlOk (db', id) -> tracks db' = tracks db.
Proof.
  unfold InsertEnsemble. case_all; try discriminate.
  intros H. injection H as <- _. reflexivity.
Qed.

Lemma committed_deferred {A} (r : Returned A) : committed (deferred r) = committed r.
Proof. unfold deferred. case_all; reflexivity. Qed.

Lemma sent_deferred {A} (r : Returned A) : sent (deferred r) = sent r.
Proof. unfold deferred. case_all; reflexivity. Qed.

Lemma committed_Commit {A} f db work (resp : Response A) what lg :
  committed (Commit f db work resp what lg) = db
  \/ committed (Commit f db work resp what lg) = work.
Proof. unfold Commit. destruct (faulty f); [left | right]; reflexivity. Qed.

(** The tracks [AddMusicianHandler] leaves in the store: the old ones and
    new ones owned by a musician alone. *)
Lemma AddMusician_tracks io req db :
  exists new,
    tracks (committed (AddMusicianHandler io req db)) = tracks db ++ new
    /\ Forall (fun t => track_musician_id t <> None /\ track_ensemble_id t = None) new.
Proof.
  assert (Hnone : exists new, tracks db = tracks db ++ new
            /\ Forall (fun t => track_musician_id t <> None /\ track_ensemble_id t = None) new).
  { exists []. rewrite app_nil_r. split; [reflexivity | constructor]. }
  unfold AddMusicianHandler.
  destruct (_ || _); [exact Hnone|]. destruct (faulty (io 0%nat)); [exact Hnone|].
  rewrite committed_deferred.
  destruct (InsertMusician _ _ _ _ _ db) as [[work id]|e] eqn:E; [|exact Hnone].
  apply InsertMusician_tracks in E.
  cbv zeta.
  set (r := insert_tracks io 2 "musician" id (Some id) None (AddMusician_Tracks req) work).
  destruct (insert_tracks_appends io "musician" id (Some id) None
              (AddMusician_Tracks req) 2 work) as (new & Hn & Hall & _).
  cbv zeta in Hn. fold r in Hn.
  destruct (stopped r); [exact Hnone|].
  match goal with
  | |- context [Commit ?f ?d ?w ?c ?s ?l] =>
      destruct (committed_Commit f d w c s l) as [H|H]; rewrite H
  end.
  - exact Hnone.
  - exists new. rewrite Hn, E. split; [reflexivity|].
    eapply List.Forall_impl; [|exact Hall]. intros t [Hm He]. rewrite Hm, He.
    split; [discriminate | reflexivity].
Qed.

Lemma AddEnsemble_tracks io req db :
  exists new,
    tracks (committed (AddEnsembleHandler io req db)) = tracks db ++ new
    /\ Forall (fun t => track_musician_id t = None /\ track_ensemble_id t <> None) new.
Proof.
  assert (Hnone : exists new, tracks db = tracks db ++ new
            /\ Forall (fun t => track_musician_id t = None /\ track_ensemble_id t <> None) new).
  { exists []. rewrite app_nil_r. split; [reflexivity | constructor]. }
  unfold AddEnsembleHandler.
  destruct (String.eqb _ _); [exact Hnone|]. destruct (faulty (io 0%nat)); [exact Hnone|].
  rewrite committed_deferred.
  destruct (InsertEnsemble _ _ _ db) as [[work id]|e] eqn:E;
    [|destruct (is_unique_violation e); exact Hnone].
  apply InsertEnsemble_tracks in E.
  cbv zeta.
  set (r := insert_tracks io 2 "ensemble" id None (Some id) (AddEnsemble_Tracks req) work).
  destruct (insert_tracks_appends io "ensemble" id None (Some id)
              (AddEnsemble_Tracks req) 2 work) as (new & Hn & Hall & _).
  cbv zeta in Hn. fold r in Hn.
  destruct (stopped r); [exact Hnone|].
  match goal with
  | |- context [Commit ?f ?d ?w ?c ?s ?l] =>
      destruct (committed_Commit f d w c s l) as [H|H]; rewrite H
  end.
  - exact Hnone.
  - exists new. rewrite Hn, E. split; [reflexivity|].
    eapply List.Forall_impl; [|exact Hall]. intros t [Hm He]. rewrite Hm, He.
    split; [reflexivity | discriminate].
Qed.

Lemma tracks_owned_app db db' new :
  tracks db' = tracks db ++ new -> Forall one_owner new ->
  tracks_owned db -> tracks_owned db'.
Proof.
  unfold tracks_owned. intros -> Hn Ho. apply Forall_app. split; assumption.
Qed.

Lemma all_tracks_one_name db :
  tracks_owned db ->
  exists payload,
    response (GetAllTracksHandler healthy db) = respondWithJSON StatusOK payload
    /\ map Track_MusicianID payload = map track_musician_id (tracks db)
    /\ map Track_EnsembleID payload = map track_ensemble_id (tracks db)
    /\ Forall (fun a => Track_MusicianName a = "" \/ Track_EnsembleName a = "") payload.
Proof.
  intros Hdb. unfold GetAllTracksHandler, QueryTracks. rewrite healthy_call.
  cbn [deliver response]. eexists. split; [reflexivity|]. rewrite !map_map.
  split_and!; [reflexivity | reflexivity |].
  unfold tracks_owned in Hdb. induction Hdb as [|t ts Ht _ IH]; cbn [map]; constructor.
  - unfold scan_track, join_owners.
    cbn [row_musician_id row_ensemble_id Track_MusicianName Track_EnsembleName].
    destruct Ht as [[_ He]|[Hm _]].
    + right. rewrite He. reflexivity.
    + left. rewrite Hm. reflexivity.
  - exact IH.
Qed.

(** C7. Exactly one owner per stored track: the CHECK of the schema lets
    [INSERT INTO tracks] succeed only with exactly one owner, the empty
    store satisfies the rule, [AddMusicianHandler] adds only tracks with a
    musician and a NULL ensemble, [AddEnsembleHandler] only tracks with an
    ensemble and a NULL musician, both keep the rule, and the aggregated
    track carries the owner reference of the row and the display name of
    that owner alone, in particular in the list of [GetAllTracksHandler]. *)
Theorem C7_one_owner (db : Store) :
  tracks_owned db ->
  tracks_owned empty_store
  /\ (forall f name duration m e db' id,
        InsertTrack f name duration m e db = SqlOk (db', id) ->
        tracks db' = tracks db ++ [mkTrackRow id name duration m e]
        /\ one_owner (mkTrackRow id name duration m e))
  /\ (forall io req,
        tracks_owned (committed (AddMusicianHandler io req db))
        /\ exists new,
             tracks (committed (AddMusicianHandler io req db)) = tracks db ++ new
             /\ Forall (fun t => track_musician_id t <> None /\ track_ensemble_id t = None) new)
  /\ (forall io req,
        tracks_owned (committed (AddEnsembleHandler io req db))
        /\ exists new,
             tracks (committed (AddEnsembleHandler io req db)) = tracks db ++ new
             /\ Forall (fun t => track_musician_id t = None /\ track_ensemble_id t <> None) new)
  /\ (forall t, In t (tracks db) ->
        let a := scan_track (join_owners db t) in
        Track_MusicianID a = track_musician_id t
        /\ Track_EnsembleID a = track_ensemble_id t
        /\ ((Track_MusicianID a <> None /\ Track_EnsembleID a = None
             /\ Track_EnsembleName a = "")
            \/ (Track_MusicianID a = None /\ Track_EnsembleID a <> None
                /\ Track_MusicianName a = "")))
  /\ (exists payload,
        response (GetAllTracksHandler healthy db) = respondWithJSON StatusOK payload
        /\ map Track_MusicianID payload = map track_musician_id (tracks db)
        /\ map Track_EnsembleID payload = map track_ensemble_id (tracks db)
        /\ Forall (fun a => Track_MusicianName a = "" \/ Track_EnsembleName a = "") payload).
Proof.
  intros Hdb. split_and!; [| | | | |apply all_tracks_one_name, Hdb].
  - constructor.
  - intros f name duration m e db' id H. apply InsertTrack_ok in H.
    destruct H as [Hc Ht]. split; [exact Ht | apply owner_check_one_owner, Hc].
  - intros io req. destruct (AddMusician_tracks io req db) as (new & Hn & Hall).
    split; [|exists new; split; assumption].
    apply (tracks_owned_app db _ new Hn); [|exact Hdb].
    eapply List.Forall_impl; [|exact Hall]. intros t H. left. exact H.
  - intros io req. destruct (AddEnsemble_tracks io req db) as (new & Hn & Hall).
    split; [|exists new; split; assumption].
    apply (tracks_owned_app db _ new Hn); [|exact Hdb].
    eapply List.Forall_impl; [|exact Hall]. intros t H. right. exact H.
  - intros t Ht. cbv zeta. unfold tracks_owned in Hdb.
    rewrite List.Forall_forall in Hdb. specialize (Hdb t Ht).
    unfold scan_track, join_owners. cbn [row_musician_id row_ensemble_id Track_MusicianID
      Track_EnsembleID Track_MusicianName Track_EnsembleName].
    split; [reflexivity|]. split; [reflexivity|].
    destruct Hdb as [[Hm He]|[Hm He]].
    + left. rewrite He. split_and!; [exact Hm | reflexivity | reflexivity].
    + right. rewrite Hm. split_and!; [reflexivity | exact He | reflexivity].
Qed.

Lemma C7_one_owner_witness :
  tracks_owned
    (committed (AddMusicianHandler healthy
       (mkAddMusicianRequest "Mary" "Jones" "piano" (Some 1)
          [mkAddTrackRequest "Prelude" 180]) shop)).
Proof.
  assert (Hshop : tracks_owned shop).
  { unfold tracks_owned, shop, one_owner. cbn [tracks].
    constructor; [right; split; [reflexivity | discriminate]|].
    constructor; [left; split; [discriminate | reflexivity]|].
    constructor. }
  pose proof (C7_one_owner shop Hshop) as H.
  destruct H as (_ & _ & H & _). apply H.
Defined.

(** ** C8 *)

Lemma append_cons c a b : String c a +:+ b = String c (a +:+ b).
Proof. reflexivity. Qed.

Lemma append_empty b : "" +:+ b = b.
Proof. reflexivity. Qed.

(** [TrimSpace] only cuts: what is left is a piece of the string. *)
Lemma trimLeft_suffix n :
  forall s, (String.length s <= n)%nat -> exists pre, s = pre +:+ trimLeft s.
Proof.
  induction n as [|n IH]; intros s Hlen.
  - destruct s; [|simpl in Hlen; lia]. exists "". reflexivity.
  - destruct s as [|b0 s1]; [exists ""; reflexivity|]. simpl in Hlen.
    cbn [trimLeft]. destruct (asciiSpace b0).
    { destruct (IH s1 ltac:(lia)) as [pre Hp]. exists (String b0 pre).
      rewrite append_cons. f_equal. exact Hp. }
    destruct s1 as [|b1 s2]; [exists ""; reflexivity|]. simpl in Hlen.
    destruct (space2 b0 b1).
    { destruct (IH s2 ltac:(lia)) as [pre Hp]. exists (String b0 (String b1 pre)).
      rewrite !append_cons. do 2 f_equal. exact Hp. }
    destruct s2 as [|b2 s3]; [exists ""; reflexivity|]. simpl in Hlen.
    destruct (space3 b0 b1 b2); [|exists ""; reflexivity].
    destruct (IH s3 ltac:(lia)) as [pre Hp].
    exists (String b0 (String b1 (String b2 pre))).
    rewrite !append_cons. do 3 f_equal. exact Hp.
Qed.

Lemma trim_reversed_suffix n :
  forall l : list ascii, (length l <= n)%nat -> exists pre, l = pre ++ trim_reversed l.
Proof.
  induction n as [|n IH]; intros l Hlen.
  - destruct l; [|simpl in Hlen; lia]. exists []. reflexivity.
  - destruct l as [|b2 l1]; [exists []; reflexivity|]. simpl in Hlen.
    cbn [trim_reversed]. destruct (asciiSpace b2).
    { destruct (IH l1 ltac:(lia)) as [pre Hp]. exists (b2 :: pre).
      simpl. f_equal. exact Hp. }
    destruct l1 as [|b1 l2]; [exists []; reflexivity|]. simpl in Hlen.
    destruct (space2 b1 b2).
    { destruct (IH l2 ltac:(lia)) as [pre Hp]. exists (b2 :: b1 :: pre).
      simpl. do 2 f_equal. exact Hp. }
    destruct l2 as [|b0 l3]; [exists []; reflexivity|]. simpl in Hlen.
    destruct (space3 b0 b1 b2); [|exists []; reflexivity].
    destruct (IH l3 ltac:(lia)) as [pre Hp]. exists (b2 :: b1 :: b0 :: pre).
    simpl. do 3 f_equal. exact Hp.
Qed.

Lemma string_of_list_ascii_app l1 l2 :
  string_of_list_ascii (l1 ++ l2) = string_of_list_ascii l1 +:+ string_of_list_ascii l2.
Proof.
  induction l1 as [|c l1 IH]; [reflexivity|].
  cbn [app string_of_list_ascii]. rewrite append_cons. f_equal. exact IH.
Qed.

Lemma trimRight_prefix s : exists post, s = trimRight s +:+ post.
Proof.
  unfold trimRight.
  destruct (trim_reversed_suffix _ (rev (list_ascii_of_string s)) (le_n _)) as [pre Hp].
  exists (string_of_list_ascii (rev pre)).
  rewrite <- string_of_list_ascii_app, <- rev_app_distr, <- Hp, rev_involutive.
  symmetry. apply string_of_list_ascii_of_string.
Qed.

(** What [TrimSpace] returns sits inside the string it was given. *)
Lemma TrimSpace_inside s : exists pre post, s = pre +:+ TrimSpace s +:+ post.
Proof.
  destruct (trimLeft_suffix _ s (le_n _)) as [pre Hpre].
  destruct (trimRight_prefix (trimLeft s)) as [post Hpost].
  exists pre, post. unfold TrimSpace. rewrite <- Hpost. exact Hpre.
Qed.

Lemma TrimSpace_examples :
  TrimSpace ("  John" +:+ " " +:+ "Smith ") = "John Smith"
  /\ TrimSpace ("" +:+ " " +:+ "") = ""
  /\ TrimSpace (String "009" "Ann" +:+ " " +:+ "") = "Ann"
  /\ TrimSpace (String "194" (String "160" "Lee") +:+ " " +:+ String "226" (String "128" (String "131" "")))
     = "Lee".
Proof. split_and!; reflexivity. Qed.

Lemma join_owners_ids db t :
  row_musician_id (join_owners db t) = track_musician_id t
  /\ row_ensemble_id (join_owners db t) = track_ensemble_id t.
Proof. split; reflexivity. Qed.

(** C8. For a track with a musician reference the display name is the
    trimmed concatenation of the first name, a space and the last name, and
    the fixed placeholder when both names are unknown, which is the case
    when the LEFT JOIN finds no musician; for a track with an ensemble
    reference it is the stored name of the ensemble, and the placeholder
    when the LEFT JOIN finds no ensemble. *)
Theorem C8_display_names (row : TrackOwnerRow) :
  (row_musician_id row <> None ->
     Track_MusicianName (scan_track row)
     = (if Valid (row_first_name row) || Valid (row_last_name row)
        then TrimSpace (String_ (row_first_name row) +:+ " " +:+ String_ (row_last_name row))
        else UnknownMusician)
     /\ (forall f l, row_first_name row = Some f -> row_last_name row = Some l ->
           Track_MusicianName (scan_track row) = TrimSpace (f +:+ " " +:+ l))
     /\ (row_first_name row = None -> row_last_name row = None ->
           Track_MusicianName (scan_track row) = UnknownMusician))
  /\ (row_ensemble_id row <> None ->
        (forall n, row_ensemble_name row = Some n ->
           Track_EnsembleName (scan_track row) = n)
        /\ (row_ensemble_name row = None ->
              Track_EnsembleName (scan_track row) = UnknownEnsemble))
  /\ (forall db t m,
        row = join_owners db t -> track_musician_id t = Some m ->
        match find (fun x => musician_id x =? m) (musicians db) with
        | Some x =>
            Track_MusicianName (scan_track row)
            = TrimSpace (musician_first_name x +:+ " " +:+ musician_last_name x)
        | None => Track_MusicianName (scan_track row) = UnknownMusician
        end)
  /\ (forall db t e,
        row = join_owners db t -> track_ensemble_id t = Some e ->
        match find (fun x => ensemble_id x =? e) (ensembles db) with
        | Some x => Track_EnsembleName (scan_track row) = ensemble_name x
        | None => Track_EnsembleName (scan_track row) = UnknownEnsemble
        end)
  /\ (forall db,
        response (GetAllTracksHandler healthy db)
        = respondWithJSON StatusOK
            (map (fun t => scan_track (join_owners db t)) (tracks db))).
Proof.
  split_and!; [| | | |intros db; unfold GetAllTracksHandler, QueryTracks;
                       rewrite healthy_call; cbn [deliver response];
                       rewrite map_map; reflexivity].
  - intros Hm. unfold scan_track. cbn [Track_MusicianName].
    destruct (row_musician_id row) as [id|]; [|congruence]. split_and!.
    + reflexivity.
    + intros f l -> ->. reflexivity.
    + intros -> ->. reflexivity.
  - intros He. unfold scan_track. cbn [Track_EnsembleName].
    destruct (row_ensemble_id row) as [id|]; [|congruence]. split.
    + intros n ->. reflexivity.
    + intros ->. reflexivity.
  - intros db t m -> Hm. unfold scan_track, join_owners.
    cbn [Track_MusicianName row_musician_id row_first_name row_last_name].
    rewrite Hm. simpl mbind.
    destruct (find _ (musicians db)); reflexivity.
  - intros db t e -> He. unfold scan_track, join_owners.
    cbn [Track_EnsembleName row_ensemble_id row_ensemble_name].
    rewrite He. simpl mbind.
    destruct (find _ (ensembles db)); reflexivity.
Qed.

Lemma C8_display_names_witness :
  Track_MusicianName (scan_track (join_owners shop (mkTrackRow 2 "Solo" 95 (Some 1) None)))
  = "John Smith"
  /\ Track_EnsembleName (scan_track (join_owners shop (mkTrackRow 1 "Intro" 120 None (Some 1))))
     = "Quartet A"
  /\ Track_MusicianName (scan_track (join_owners shop (mkTrackRow 3 "Lost" 60 (Some 9) None)))
     = "Unknown Musician".
Proof.
  split_and!.
  - pose proof (C8_display_names (join_owners shop (mkTrackRow 2 "Solo" 95 (Some 1) None)))
      as (_ & _ & H & _).
    exact (H shop (mkTrackRow 2 "Solo" 95 (Some 1) None) 1 eq_refl eq_refl).
  - pose proof (C8_display_names (join_owners shop (mkTrackRow 1 "Intro" 120 None (Some 1))))
      as (_ & _ & _ & H & _).
    exact (H shop (mkTrackRow 1 "Intro" 120 None (Some 1)) 1 eq_refl eq_refl).
  - pose proof (C8_display_names (join_owners shop (mkTrackRow 3 "Lost" 60 (Some 9) None)))
      as (_ & _ & H & _).
    exact (H shop (mkTrackRow 3 "Lost" 60 (Some 9) None) 9 eq_refl eq_refl).
Defined.

(** ** C3 *)

Lemma without_tracks_set rec ts : without_tracks (set_Tracks rec ts) = without_tracks rec.
Proof. reflexivity. Qed.

Lemma Record_ID_set rec ts : Record_ID (set_Tracks rec ts) = Record_ID rec.
Proof. reflexivity. Qed.

Lemma append_linked_none place tracksMap recordID linked :
  forall acc,
    (forall trackID, In trackID linked -> tracksMap !! trackID = None) ->
    fst (append_linked place tracksMap recordID linked acc) = acc.
Proof.
  induction linked as [|trackID rest IH]; intros acc Hnone; cbn [append_linked].
  - reflexivity.
  - rewrite (Hnone trackID) by (left; reflexivity).
    specialize (IH acc (fun t Ht => Hnone t (or_intror Ht))).
    destruct (append_linked place tracksMap recordID rest acc). exact IH.
Qed.

(** One round of the assembly keeps the record and gives it a track list. *)
Lemma attach_tracks_keeps place links tracksMap rec :
  let rec' := fst (attach_tracks place links tracksMap rec) in
  without_tracks rec' = without_tracks rec
  /\ Record_Tracks rec' <> None
  /\ (links !! Record_ID rec = None -> Record_Tracks rec' = Some [])
  /\ (forall linked, links !! Record_ID rec = Some linked ->
        (forall trackID, In trackID linked -> tracksMap !! trackID = None) ->
        Record_Tracks rec' = Some []).
Proof.
  cbv zeta. unfold attach_tracks.
  destruct (links !! Record_ID rec) as [linked|] eqn:El.
  - pose proof (append_linked_none place tracksMap (Record_ID rec) linked []) as Hn.
    destruct (append_linked place tracksMap (Record_ID rec) linked []) as [ts lg].
    cbn [fst] in *. split_and!; try reflexivity; try discriminate.
    intros linked' Heq Hnone. injection Heq as <-. cbn [Record_Tracks set_Tracks].
    rewrite (Hn Hnone). reflexivity.
  - cbn [fst]. split_and!; try reflexivity; try discriminate.
Qed.

Lemma attach_all_keeps place links tracksMap records :
  let out := fst (attach_all place links tracksMap records) in
  map without_tracks out = map without_tracks records
  /\ Forall (fun rec => Record_Tracks rec <> None) out
  /\ (forall rec, In rec out -> links !! Record_ID rec = None ->
        Record_Tracks rec = Some []).
Proof.
  cbv zeta. induction records as [|rec rest IH]; cbn [attach_all].
  - cbn [fst map]. split_and!; [reflexivity | constructor | intros ? []].
  - pose proof (attach_tracks_keeps place links tracksMap rec) as Hrec. cbv zeta in Hrec.
    destruct (attach_tracks place links tracksMap rec) as [rec' lg].
    destruct (attach_all place links tracksMap rest) as [rest' lg'].
    cbn [fst map] in *. destruct Hrec as (Hk & Hn & He & _).
    destruct IH as (IH1 & IH2 & IH3). split_and!.
    + rewrite Hk, IH1. reflexivity.
    + constructor; assumption.
    + intros x [Hx|Hx] Hl.
      * subst x. apply He. rewrite <- Hl. f_equal.
        change (Record_ID (without_tracks rec) = Record_ID (without_tracks rec')).
        rewrite Hk. reflexivity.
      * apply IH3; assumption.
Qed.

Lemma no_tracks_keeps records :
  map without_tracks (no_tracks records) = map without_tracks records
  /\ Forall (fun rec => Record_Tracks rec = Some []) (no_tracks records).
Proof.
  unfold no_tracks. induction records as [|rec rest [IH1 IH2]]; cbn [map].
  - split; [reflexivity | constructor].
  - split; [rewrite IH1; reflexivity | constructor; [reflexivity | exact IH2]].
Qed.

(** The loop over the association rows leaves alone the entry of a record no
    row references. *)
Lemma link_rows_other id rows :
  forall st,
    (forall row, In row rows -> rt_record_id row <> id) ->
    recordTrackLinks (foldl link_row st rows) !! id = recordTrackLinks st !! id.
Proof.
  induction rows as [|row rows IH]; intros st Hne; cbn [foldl]; [reflexivity|].
  rewrite IH by (intros r Hr; apply Hne; right; exact Hr).
  unfold link_row. destruct (trackIDSet st !! rt_track_id row); cbn [recordTrackLinks];
    apply lookup_insert_ne; apply Hne; left; reflexivity.
Qed.

Lemma deliver_rows {A} f (l rows : list A) :
  deliver f l = SqlOk (rows, None) -> rows = l.
Proof. unfold deliver. destruct f; intros H; try discriminate. congruence. Qed.

(** The assembly keeps every record in its place and gives each a track
    list that is not nil, empty when no track is linked: this holds for the
    assembly loop on any records, links and tracks, for the loop taken when
    no track is linked at all, and for every list of records
    [GetRecordsHandler] answers with, which is the list of the fetched
    records in their order. *)
Lemma records_kept_in_order :
  (forall place links tracksMap (records : list Record_),
     let out := fst (attach_all place links tracksMap records) in
     map without_tracks out = map without_tracks records
     /\ length out = length records
     /\ Forall (fun rec => Record_Tracks rec <> None) out
     /\ (forall rec, In rec out -> links !! Record_ID rec = None ->
           Record_Tracks rec = Some []))
  /\ (forall records : list Record_,
        map without_tracks (no_tracks records) = map without_tracks records
        /\ Forall (fun rec => Record_Tracks rec = Some []) (no_tracks records))
  /\ (forall io db code (payload : list Record_),
        response (GetRecordsHandler io db) = respondWithJSON code payload ->
        map without_tracks payload = map scan_record (records db)
        /\ Forall (fun rec => Record_Tracks rec <> None) payload
        /\ (forall rec, In rec payload -> no_linked_tracks (Record_ID rec) db ->
              Record_Tracks rec = Some [])).
Proof.
  split_and!.
  - intros place links tracksMap records. cbv zeta.
    destruct (attach_all_keeps place links tracksMap records) as (H1 & H2 & H3).
    split_and!; try assumption.
    rewrite <- (length_map without_tracks), H1. apply length_map.
  - apply no_tracks_keeps.
  - intros io db code payload H.
    assert (Hscan : forall rows, map without_tracks (map scan_record rows) = map scan_record rows).
    { intros rows. rewrite map_map. reflexivity. }
    unfold GetRecordsHandler in H.
    destruct (QueryRecords (io 0%nat) db) as [[rows [e|]]|e] eqn:Q0;
      cbn [response] in H; try discriminate H.
    apply deliver_rows in Q0. subst rows.
    destruct (len (map scan_record (records db)) =? 0) eqn:L0.
    { cbn [response] in H. injection H as _ <-. apply len_zero in L0.
      rewrite Hscan. rewrite L0. split_and!; [reflexivity | constructor | intros ? []]. }
    destruct (placeholders _) as [in_list|]; cbn [response] in H; [|discriminate H].
    destruct (QueryRecordTracksIn (io 1%nat) in_list _ db) as [[linkRows [e|]]|e] eqn:Q1;
      cbn [response] in H; try discriminate H.
    destruct (len (trackIDs (link_rows linkRows)) =? 0).
    { cbn [response] in H. injection H as _ <-.
      destruct (no_tracks_keeps (map scan_record (records db))) as [H1 H2].
      rewrite H1, Hscan. split_and!.
      - reflexivity.
      - eapply List.Forall_impl; [|exact H2]. intros rec ->. discriminate.
      - intros rec Hin _. rewrite List.Forall_forall in H2. apply H2, Hin. }
    unfold tracks_fetched in H.
    destruct (QueryTracksIn (io 2%nat) _ _ db) as [[trackRows [e|]]|e] eqn:Q2;
      cbn [response] in H; try discriminate H.
    pose proof (attach_all_keeps "fetched tracks map" (recordTrackLinks (link_rows linkRows))
                  (track_rows trackRows) (map scan_record (records db))) as Hk.
    cbv zeta in Hk.
    destruct (attach_all "fetched tracks map" _ _ _) as [records' lg].
    cbn [response fst] in *. injection H as _ <-.
    destruct Hk as (H1 & H2 & H3). rewrite H1, Hscan. split_and!; try assumption.
    + reflexivity.
    + intros rec Hin Hno. apply H3; [exact Hin|].
      unfold QueryRecordTracksIn in Q1.
      destruct (io 1%nat); try discriminate Q1;
        (destruct (bind in_list _) as [ids|]; [|discriminate]);
        apply deliver_rows in Q1; subst linkRows; unfold link_rows;
        (rewrite link_rows_other; [apply lookup_empty|]);
        intros row Hrow; apply filter_In in Hrow; apply Hno, Hrow.
Qed.

(** Without a linked track the catalog is answered in full. *)
Lemma catalog_without_links :
  exists payload,
    response (GetRecordsHandler healthy (with_record_tracks shop []))
    = respondWithJSON StatusOK payload
    /\ map without_tracks payload = map scan_record (records shop)
    /\ Forall (fun rec => Record_Tracks rec <> None) payload.
Proof.
  eexists. split; [reflexivity|].
  destruct records_kept_in_order as (_ & _ & H).
  destruct (H healthy (with_record_tracks shop []) StatusOK _ eq_refl) as (H1 & H2 & _).
  split; [exact H1 | exact H2].
Qed.

(** ** C2 *)

Lemma mem_In x l : mem x l = true <-> In x l.
Proof.
  unfold mem. rewrite existsb_exists. split.
  - intros (y & Hy & E). apply Z.eqb_eq in E. subst. exact Hy.
  - intros H. exists x. split; [exact H | apply Z.eqb_refl].
Qed.

Lemma tokenize_repeat n rest :
  tokenize false (repeat_string ",?" n +:+ rest)
  = concat (replicate n [TK_COMMA; TK_VARIABLE]) ++ tokenize false rest.
Proof.
  induction n as [|n IH]; [reflexivity|].
  cbn [repeat_string replicate concat].
  change ((",?" +:+ repeat_string ",?" n) +:+ rest)
    with (String "," (String "?" (repeat_string ",?" n +:+ rest))).
  cbn [tokenize]. cbn. rewrite IH. reflexivity.
Qed.

Lemma more_parameters_repeat n k :
  more_parameters (concat (replicate n [TK_COMMA; TK_VARIABLE]) ++ [TK_RP]) k
  = Some (k + n)%nat.
Proof.
  revert k. induction n as [|n IH]; intros k; cbn.
  - f_equal. lia.
  - rewrite IH. f_equal. lia.
Qed.

(** The list the handlers build in an interpreted string literal is
    accepted and binds all its arguments. *)
Lemma bind_placeholders (args : list Z) :
  args <> [] ->
  exists in_list, placeholders (len args) = Some in_list /\ bind in_list args = SqlOk args.
Proof.
  intros Hne. destruct args as [|a args]; [congruence|].
  unfold placeholders, Repeat, len. cbn [length].
  replace (Z.of_nat (S (length args)) - 1) with (Z.of_nat (length args)) by lia.
  assert (Hlt : (Z.of_nat (length args) <? 0) = false) by (apply Z.ltb_ge; lia).
  rewrite Hlt, Nat2Z.id. cbn [mbind option_bind]. eexists. split; [reflexivity|].
  unfold bind, bind_parameters.
  change ("(?" +:+ repeat_string ",?" (length args) +:+ ")")
    with (String "(" (String "?" (repeat_string ",?" (length args) +:+ ")"))).
  cbn [tokenize]. cbn. rewrite tokenize_repeat. cbn [tokenize]. cbn.
  rewrite more_parameters_repeat.
  replace (1 + length args)%nat with (length (a :: args)) by reflexivity.
  rewrite Nat.leb_refl, firstn_all. reflexivity.
Qed.

(** The text that ends the tracks query is no list of parameters. *)
Lemma bind_raw_placeholders (args : list Z) :
  bind (raw_placeholders "trackIDs") args = SqlErr ErrSyntax
  /\ bind (raw_placeholders "cartTrackIDs") args = SqlErr ErrSyntax.
Proof. split; reflexivity. Qed.

Lemma trackIDs_grow rows :
  forall st, trackIDs st <> [] -> trackIDs (foldl link_row st rows) <> [].
Proof.
  induction rows as [|row rows IH]; intros st Hne; cbn [foldl]; [exact Hne|].
  apply IH. unfold link_row. destruct (trackIDSet st !! rt_track_id row); cbn [trackIDs].
  - exact Hne.
  - intros H. apply app_eq_nil in H. destruct H as [_ H]. discriminate.
Qed.

Lemma trackIDs_link_rows rows : rows <> [] -> trackIDs (link_rows rows) <> [].
Proof.
  destruct rows as [|row rows]; [congruence|]. intros _.
  unfold link_rows. cbn [foldl]. apply trackIDs_grow.
  unfold link_row. cbn [trackIDSet trackIDs]. rewrite lookup_empty. cbn [trackIDs].
  discriminate.
Qed.

Lemma len_nonzero {A} (l : list A) : l <> [] -> (len l =? 0) = false.
Proof.
  intros H. destruct (len l =? 0) eqn:E; [|reflexivity].
  apply len_zero in E. congruence.
Qed.

(** C3.  The code does not return the records: on a healthy engine, as soon
    as one fetched record has a row in [record_tracks], [GetRecordsHandler]
    answers with the error of the tracks query and with no record at all,
    because the text of that query is rejected whatever the store holds. *)
Theorem C3_linked_track_loses_every_record (db : Store) (rec : RecordRow) (rt : RecordTrackRow) :
  In rec (records db) -> In rt (record_tracks db) -> rt_record_id rt = record_id rec ->
  response (GetRecordsHandler healthy db)
  = respondWithError StatusInternalServerError "Database error fetching tracks"
  /\ logged (GetRecordsHandler healthy db)
     = [Printf "Error querying tracks: %v" [ArgError ErrSyntax]].
Proof.
  intros Hrec Hrt Hid. unfold GetRecordsHandler.
  unfold QueryRecords. rewrite healthy_call. cbn [deliver].
  assert (Hne : map Record_ID (map scan_record (records db)) <> []).
  { destruct (records db); [destruct Hrec | discriminate]. }
  assert (Hne' : map scan_record (records db) <> []).
  { destruct (records db); [destruct Hrec | discriminate]. }
  rewrite (len_nonzero _ Hne').
  destruct (bind_placeholders _ Hne) as (in_list & Hp & Hb). rewrite Hp.
  unfold QueryRecordTracksIn. rewrite Hb, healthy_call. cbn [deliver].
  set (linkRows := List.filter _ (record_tracks db)).
  assert (Hl : linkRows <> []).
  { assert (Hin : In rt linkRows).
    { apply filter_In. split; [exact Hrt|]. apply mem_In. rewrite Hid, map_map.
      apply in_map_iff. exists rec. split; [reflexivity | exact Hrec]. }
    destruct linkRows; [destruct Hin | discriminate]. }
  rewrite (len_nonzero _ (trackIDs_link_rows _ Hl)).
  unfold QueryTracksIn. rewrite (proj1 (bind_raw_placeholders _)).
  split; reflexivity.
Qed.

Lemma C3_linked_track_loses_every_record_witness :
  response (GetRecordsHandler healthy shop)
  = respondWithError StatusInternalServerError "Database error fetching tracks".
Proof.
  refine (proj1 (C3_linked_track_loses_every_record shop (sample_record 6 "Studio" 3)
                   (mkRecordTrackRow 6 1) _ _ eq_refl)).
  - right. left. reflexivity.
  - left. reflexivity.
Defined.

(** C2, as stated, fails: record 6 has a linked track, the engine fails the
    tracks query of step 3, and the answer is the error of step 3 with the
    failure in the log: no record is returned. *)
Lemma C2_failed_fetch_replaces_response :
  In (mkRecordTrackRow 6 1) (record_tracks shop)
  /\ record_exists 6 shop = true
  /\ response (GetRecordsHandler third_call_fails shop)
     = respondWithError StatusInternalServerError "Database error fetching tracks"
  /\ logged (GetRecordsHandler third_call_fails shop)
     = [Printf "Error querying tracks: %v" [ArgError ErrStorage]].
Proof.
  split_and!; [left; reflexivity | reflexivity | reflexivity | reflexivity].
Qed.

Lemma append_linked_spec place tracksMap recordID linked :
  forall acc,
    append_linked place tracksMap recordID linked acc
    = (acc ++ omap (fun trackID => tracksMap !! trackID) linked,
       map (missing_track place recordID)
           (List.filter (fun trackID => negb (Valid (tracksMap !! trackID))) linked)).
Proof.
  induction linked as [|trackID rest IH]; intros acc; cbn [append_linked omap list_omap].
  - rewrite app_nil_r. reflexivity.
  - cbn [List.filter]. destruct (tracksMap !! trackID) as [track|]; cbn [Valid negb].
    + rewrite IH, <- app_assoc. reflexivity.
    + rewrite IH. reflexivity.
Qed.

Lemma attach_tracks_spec place links tracksMap rec :
  attach_tracks place links tracksMap rec
  = (assembled links tracksMap rec, warnings place links tracksMap rec).
Proof.
  unfold attach_tracks, assembled, warnings.
  destruct (links !! Record_ID rec) as [linked|]; cbn [default]; [|reflexivity].
  rewrite append_linked_spec. reflexivity.
Qed.

Lemma attach_all_spec place links tracksMap records :
  attach_all place links tracksMap records
  = (map (assembled links tracksMap) records,
     concat (map (warnings place links tracksMap) records)).
Proof.
  induction records as [|rec rest IH]; cbn [attach_all map concat]; [reflexivity|].
  rewrite attach_tracks_spec, IH. reflexivity.
Qed.

(** With the first two calls served and a linked track of a fetched record,
    the handler issues the tracks query and goes on with its outcome. *)
Lemma GetRecords_fetches io db rec rt :
  io 0%nat = NoFault -> io 1%nat = NoFault ->
  In rec (records db) -> In rt (record_tracks db) -> rt_record_id rt = record_id rec ->
  GetRecordsHandler io db
  = tracks_fetched db (map scan_record (records db)) (link_rows (linked_records db))
      (QueryTracksIn (io 2%nat) (raw_placeholders "trackIDs")
         (trackIDs (link_rows (linked_records db))) db).
Proof.
  intros H0 H1 Hrec Hrt Hid. unfold GetRecordsHandler, QueryRecords.
  rewrite H0. cbn [deliver].
  assert (Hne : map Record_ID (map scan_record (records db)) <> []).
  { destruct (records db); [destruct Hrec | discriminate]. }
  assert (Hne' : map scan_record (records db) <> []).
  { destruct (records db); [destruct Hrec | discriminate]. }
  rewrite (len_nonzero _ Hne').
  destruct (bind_placeholders _ Hne) as (in_list & Hp & Hb). rewrite Hp.
  unfold QueryRecordTracksIn. rewrite H1, Hb. cbn [deliver].
  assert (Hids : map Record_ID (map scan_record (records db)) = map record_id (records db)).
  { rewrite map_map. reflexivity. }
  rewrite Hids. fold (linked_records db).
  assert (Hl : linked_records db <> []).
  { assert (Hin : In rt (linked_records db)).
    { apply filter_In. split; [exact Hrt|]. apply mem_In. rewrite Hid.
      apply in_map, Hrec. }
    destruct (linked_records db); [destruct Hin | discriminate]. }
  rewrite (len_nonzero _ (trackIDs_link_rows _ Hl)). reflexivity.
Qed.

(** The rows the links query delivers are the rows of the fetched records. *)
Lemma link_rows_delivered io db in_list linkRows :
  placeholders (len (map Record_ID (map scan_record (records db)))) = Some in_list ->
  records db <> [] ->
  QueryRecordTracksIn (io 1%nat) in_list (map Record_ID (map scan_record (records db))) db
  = SqlOk (linkRows, None) ->
  linkRows = linked_records db.
Proof.
  intros Hp Hne Q.
  assert (Hne' : map Record_ID (map scan_record (records db)) <> []).
  { destruct (records db); [congruence | discriminate]. }
  destruct (bind_placeholders _ Hne') as (in_list' & Hp' & Hb).
  rewrite Hp in Hp'. injection Hp' as <-.
  unfold QueryRecordTracksIn in Q. rewrite Hb in Q.
  destruct (io 1%nat); try discriminate Q; apply deliver_rows in Q; subst linkRows;
    unfold linked_records; rewrite map_map; reflexivity.
Qed.

(** C2, amended.  When no record has an association row the answer is the
    list of every record, each with an empty track list; whenever the
    handler answers with a list, the list holds every record, and a record
    without association rows has an empty track list.  A failure of the
    tracks query does replace the whole response: when a record has a linked
    track and the engine fails the third call, the answer is the error of
    step 3 and the failure is logged; that error is sent only when some
    record has a linked track.  With the first two calls served and a linked
    track, the handler goes on with the outcome of the tracks query as
    [tracks_fetched] does: when the query fails, whatever the error, the
    answer is the error of step 3 and the error is logged; when it delivers
    its rows, every record stays in the answer with those of its linked
    tracks that were fetched, in the order of the links, and each linked
    track that was not fetched is logged and skipped. *)
Theorem C2_missing_tracks_skipped_failed_fetch_aborts :
  (forall db,
     (forall rec, In rec (records db) -> no_linked_tracks (record_id rec) db) ->
     response (GetRecordsHandler healthy db)
     = respondWithJSON StatusOK (no_tracks (map scan_record (records db)))
     /\ logged (GetRecordsHandler healthy db) = [])
  /\ (forall io db code payload,
        response (GetRecordsHandler io db) = respondWithJSON code payload ->
        map without_tracks payload = map scan_record (records db)
        /\ Forall (fun rec => Record_Tracks rec <> None) payload
        /\ (forall rec, In rec payload -> no_linked_tracks (Record_ID rec) db ->
              Record_Tracks rec = Some []))
  /\ (forall io db rec rt,
        io 0%nat = NoFault -> io 1%nat = NoFault -> io 2%nat = FailCall ->
        In rec (records db) -> In rt (record_tracks db) -> rt_record_id rt = record_id rec ->
        response (GetRecordsHandler io db)
        = respondWithError StatusInternalServerError "Database error fetching tracks"
        /\ logged (GetRecordsHandler io db)
           = [Printf "Error querying tracks: %v" [ArgError ErrStorage]])
  /\ (forall io db,
        response (GetRecordsHandler io db)
        = respondWithError StatusInternalServerError "Database error fetching tracks" ->
        exists rec rt,
          In rec (records db) /\ In rt (record_tracks db) /\ rt_record_id rt = record_id rec)
  /\ (forall io db rec rt,
        io 0%nat = NoFault -> io 1%nat = NoFault ->
        In rec (records db) -> In rt (record_tracks db) -> rt_record_id rt = record_id rec ->
        GetRecordsHandler io db
        = tracks_fetched db (map scan_record (records db)) (link_rows (linked_records db))
            (QueryTracksIn (io 2%nat) (raw_placeholders "trackIDs")
               (trackIDs (link_rows (linked_records db))) db))
  /\ (forall db records st e,
        response (tracks_fetched db records st (SqlErr e))
        = respondWithError StatusInternalServerError "Database error fetching tracks"
        /\ logged (tracks_fetched db records st (SqlErr e))
           = [Printf "Error querying tracks: %v" [ArgError e]])
  /\ (forall db records st trackRows,
        response (tracks_fetched db records st (SqlOk (trackRows, None)))
        = respondWithJSON StatusOK
            (map (assembled (recordTrackLinks st) (track_rows trackRows)) records)
        /\ logged (tracks_fetched db records st (SqlOk (trackRows, None)))
           = concat (map (warnings "fetched tracks map" (recordTrackLinks st)
                            (track_rows trackRows)) records)).
Proof.
  split_and!.
  - intros db Hno. unfold GetRecordsHandler, QueryRecords. rewrite healthy_call.
    cbn [deliver]. destruct (len (map scan_record (records db)) =? 0) eqn:L0.
    { apply len_zero in L0. rewrite L0. split; reflexivity. }
    assert (Hne : map Record_ID (map scan_record (records db)) <> []).
    { destruct (records db); [discriminate L0 | discriminate]. }
    destruct (bind_placeholders _ Hne) as (in_list & Hp & Hb). rewrite Hp.
    unfold QueryRecordTracksIn. rewrite Hb, healthy_call. cbn [deliver].
    assert (Hf : List.filter
                   (fun rt => mem (rt_record_id rt)
                                (map Record_ID (map scan_record (records db))))
                   (record_tracks db) = []).
    { apply filter_nil_existsb. destruct (existsb _ _) eqn:E; [|reflexivity]. exfalso.
      apply existsb_exists in E. destruct E as (rt & Hrt & Em).
      apply mem_In in Em. rewrite map_map in Em. apply in_map_iff in Em.
      destruct Em as (rec & Heq & Hin). exact (Hno rec Hin rt Hrt (eq_sym Heq)). }
    rewrite Hf. split; reflexivity.
  - exact (proj2 (proj2 records_kept_in_order)).
  - intros io db rec rt H0 H1 H2 Hrec Hrt Hid.
    rewrite (GetRecords_fetches io db rec rt H0 H1 Hrec Hrt Hid).
    unfold QueryTracksIn. rewrite H2. split; reflexivity.
  - intros io db H. unfold GetRecordsHandler in H.
    destruct (QueryRecords (io 0%nat) db) as [[rows [e|]]|e] eqn:Q0;
      cbn [response] in H; try discriminate H.
    apply deliver_rows in Q0. subst rows.
    destruct (len (map scan_record (records db)) =? 0) eqn:L0;
      cbn [response] in H; [discriminate H|].
    assert (Hne : records db <> []).
    { intros Hnil. rewrite Hnil in L0. discriminate L0. }
    destruct (placeholders _) as [in_list|] eqn:Hp; cbn [response] in H; [|discriminate H].
    destruct (QueryRecordTracksIn (io 1%nat) in_list _ db) as [[linkRows [e|]]|e] eqn:Q1;
      cbn [response] in H; try discriminate H.
    apply (link_rows_delivered io db in_list linkRows Hp Hne) in Q1. subst linkRows.
    destruct (len (trackIDs (link_rows (linked_records db))) =? 0) eqn:L;
      cbn [response] in H; [discriminate H|].
    destruct (linked_records db) as [|rt rest] eqn:El; [discriminate L|].
    assert (Hin : In rt (linked_records db)) by (rewrite El; left; reflexivity).
    apply filter_In in Hin. destruct Hin as [Hrt Hm].
    apply mem_In, in_map_iff in Hm. destruct Hm as (rec & Heq & Hrec).
    exists rec, rt. split_and!; [exact Hrec | exact Hrt | symmetry; exact Heq].
  - exact GetRecords_fetches.
  - intros db records st e. split; reflexivity.
  - intros db records st trackRows. unfold tracks_fetched.
    rewrite attach_all_spec. split; reflexivity.
Qed.

Lemma C2_missing_tracks_skipped_failed_fetch_aborts_witness :
  response (GetRecordsHandler third_call_fails shop)
  = respondWithError StatusInternalServerError "Database error fetching tracks"
  /\ logged (GetRecordsHandler third_call_fails shop)
     = [Printf "Error querying tracks: %v" [ArgError ErrStorage]].
Proof.
  refine (proj1 (proj2 (proj2 C2_missing_tracks_skipped_failed_fetch_aborts))
            third_call_fails shop (sample_record 6 "Studio" 3) (mkRecordTrackRow 6 1)
            eq_refl eq_refl eq_refl _ _ eq_refl).
  - right. left. reflexivity.
  - left. reflexivity.
Defined.

(** ** C5 *)

(** C5, as stated, fails: the row of user 1 for record 9, which is not in
    [records], is returned, with its quantity and without a record, next to
    the row for record 5. *)
Lemma C5_missing_record_row_is_returned :
  record_exists 9 dangling_cart = false
  /\ response (GetCartHandler healthy 1 dangling_cart)
     = respondWithJSON StatusOK
         [mkCartItem 1 5 1
            (Some (set_Tracks (scan_record (sample_record 5 "Live Set" 0)) (Some [])));
          mkCartItem 1 9 2 None]
  /\ logged (GetCartHandler healthy 1 dangling_cart)
     = [missing_record (mkCartItem 1 9 2 None)].
Proof. split_and!; reflexivity. Qed.

Lemma cart_rows_items rows :
  forall st,
    cartItems (foldl cart_row st rows) = cartItems st ++ omap scanned_item rows.
Proof.
  induction rows as [|row rows IH]; intros st; cbn [foldl omap list_omap].
  - rewrite app_nil_r. reflexivity.
  - rewrite IH. unfold cart_row, scanned_item.
    destruct (cart_quantity row) as [q|]; [|reflexivity].
    destruct (recordIDSet st !! cart_record_id row); cbn [cartItems];
      rewrite <- app_assoc; reflexivity.
Qed.

Lemma cart_row_collects st row : ids_collected st -> ids_collected (cart_row st row).
Proof.
  intros [Hi Hs]. unfold cart_row. destruct (cart_quantity row) as [q|].
  - destruct (recordIDSet st !! cart_record_id row) eqn:E; split; cbn [cartItems recordIDs recordIDSet].
    + intros item Hin. apply in_app_or in Hin. destruct Hin as [Hin|[<-|[]]].
      * apply Hi, Hin.
      * cbn [CartItem_RecordID]. apply Hs. rewrite E. discriminate.
    + exact Hs.
    + intros item Hin. apply in_or_app. apply in_app_or in Hin. destruct Hin as [Hin|[<-|[]]].
      * left. apply Hi, Hin.
      * right. left. reflexivity.
    + intros k Hk. apply in_or_app.
      destruct (decide (cart_record_id row = k)) as [->|Hne].
      * right. left. reflexivity.
      * left. apply Hs. rewrite lookup_insert_ne in Hk by exact Hne. exact Hk.
  - split; cbn [cartItems recordIDs recordIDSet]; assumption.
Qed.

Lemma cart_rows_collect rows : ids_collected (cart_rows rows).
Proof.
  unfold cart_rows.
  assert (H0 : ids_collected (mkCartRows [] [] ∅ [])).
  { split; cbn [cartItems recordIDs recordIDSet].
    - intros ? [].
    - intros k Hk. rewrite lookup_empty in Hk. congruence. }
  revert H0. generalize (mkCartRows [] [] ∅ []).
  induction rows as [|row rows IH]; intros st Hst; cbn [foldl]; [exact Hst|].
  apply IH, cart_row_collects, Hst.
Qed.

(** The map of the fetched records has an entry exactly for the ids of the
    rows, and the entry for an id is a record with that id. *)
Lemma record_rows_map rows id :
  forall st,
    (forall rec, recordsMap st !! id = Some rec -> Record_ID rec = id) ->
    (recordsMap (foldl record_row st rows) !! id <> None
       <-> recordsMap st !! id <> None \/ exists row, In row rows /\ record_id row = id)
    /\ (forall rec, recordsMap (foldl record_row st rows) !! id = Some rec ->
          Record_ID rec = id).
Proof.
  induction rows as [|row rows IH]; intros st Hk; cbn [foldl].
  - split; [|exact Hk]. split; [tauto|]. intros [H|(row & [] & _)]. exact H.
  - assert (Hk' : forall rec, recordsMap (record_row st row) !! id = Some rec ->
                    Record_ID rec = id).
    { intros rec. unfold record_row.
      destruct (fetchedRecordIDSet st !! Record_ID (scan_record row)); cbn [recordsMap];
        (destruct (decide (Record_ID (scan_record row) = id)) as [E|E];
         [rewrite E, lookup_insert_eq; intros H; injection H as <-; exact E
         |rewrite lookup_insert_ne by exact E; apply Hk]). }
    destruct (IH (record_row st row) Hk') as [IH1 IH2]. split; [|exact IH2].
    rewrite IH1. clear IH IH1 IH2.
    assert (Hstep : recordsMap (record_row st row) !! id <> None
                    <-> recordsMap st !! id <> None \/ record_id row = id).
    { unfold record_row.
      destruct (fetchedRecordIDSet st !! Record_ID (scan_record row)); cbn [recordsMap];
        (destruct (decide (Record_ID (scan_record row) = id)) as [E|E];
         [rewrite E, lookup_insert_eq; split; [intros _; right; exact E | discriminate]
         |rewrite lookup_insert_ne by exact E; split; [tauto|];
          intros [H|H]; [exact H | exfalso; apply E, H]]). }
    rewrite Hstep. split.
    + intros [[H|H]|(r & Hr & Hid)].
      * left. exact H.
      * right. exists row. split; [left; reflexivity | exact H].
      * right. exists r. split; [right; exact Hr | exact Hid].
    + intros [H|(r & [<-|Hr] & Hid)].
      * left. left. exact H.
      * left. right. exact Hid.
      * right. exists r. split; assumption.
Qed.

Lemma fetched_grow rows :
  forall st, fetchedRecordIDs st <> [] -> fetchedRecordIDs (foldl record_row st rows) <> [].
Proof.
  induction rows as [|row rows IH]; intros st Hne; cbn [foldl]; [exact Hne|].
  apply IH. unfold record_row.
  destruct (fetchedRecordIDSet st !! Record_ID (scan_record row)); cbn [fetchedRecordIDs].
  - exact Hne.
  - intros H. apply app_eq_nil in H. destruct H as [_ H]. discriminate.
Qed.

Lemma fetched_none rows : fetchedRecordIDs (record_rows rows) = [] -> rows = [].
Proof.
  destruct rows as [|row rows]; [reflexivity|]. intros H. exfalso. revert H.
  unfold record_rows. cbn [foldl]. apply fetched_grow.
  unfold record_row. cbn [fetchedRecordIDSet fetchedRecordIDs]. rewrite lookup_empty.
  cbn [fetchedRecordIDs]. discriminate.
Qed.

(** The final loop keeps every item and gives it a record exactly when
    [recordsMap] has one for its id. *)
Lemma attach_records_keeps recordsMap links tracksMap items :
  let out := fst (attach_records recordsMap links tracksMap items) in
  map (fun item => set_Record item None) out = map (fun item => set_Record item None) items
  /\ (forall item, In item out ->
        (recordsMap !! CartItem_RecordID item = None -> CartItem_Record item = None)
        /\ (forall rec, recordsMap !! CartItem_RecordID item = Some rec ->
              exists rec', CartItem_Record item = Some rec'
                           /\ without_tracks rec' = without_tracks rec
                           /\ Record_Tracks rec' <> None)).
Proof.
  cbv zeta. induction items as [|item rest [IH1 IH2]]; cbn [attach_records].
  - cbn [fst map]. split; [reflexivity | intros ? []].
  - unfold attach_record.
    destruct (recordsMap !! CartItem_RecordID item) as [rec|] eqn:E.
    + pose proof (attach_tracks_keeps "fetched cart tracks map" links tracksMap rec) as Hk.
      cbv zeta in Hk.
      destruct (attach_tracks "fetched cart tracks map" links tracksMap rec) as [rec' lg].
      destruct (attach_records recordsMap links tracksMap rest) as [rest' lg'].
      cbn [fst map] in *. destruct Hk as (Hk & Hn & _). split.
      * rewrite IH1. reflexivity.
      * intros x [<-|Hx]; [|apply IH2, Hx]. cbn [CartItem_RecordID set_Record CartItem_Record].
        rewrite E. split; [discriminate|]. intros rec0 H0. injection H0 as <-.
        exists rec'. split_and!; [reflexivity | exact Hk | exact Hn].
    + destruct (attach_records recordsMap links tracksMap rest) as [rest' lg'].
      cbn [fst map] in *. split.
      * rewrite IH1. reflexivity.
      * intros x [<-|Hx]; [|apply IH2, Hx]. cbn [CartItem_RecordID set_Record CartItem_Record].
        rewrite E. split; [reflexivity | discriminate].
Qed.

Lemma scanned_item_bare rows item :
  In item (omap scanned_item rows) -> CartItem_Record item = None.
Proof.
  induction rows as [|row rows IH]; cbn [omap list_omap]; [intros []|].
  unfold scanned_item at 1. destruct (cart_quantity row); [|exact IH].
  intros [<-|H]; [reflexivity | exact (IH H)].
Qed.

Lemma scanned_items_bare rows :
  map (fun item => set_Record item None) (omap scanned_item rows) = omap scanned_item rows.
Proof.
  induction rows as [|row rows IH]; cbn [omap list_omap]; [reflexivity|].
  destruct (scanned_item row) as [item|] eqn:E; [|exact IH].
  cbn [map]. rewrite IH. f_equal.
  unfold scanned_item in E. destruct (cart_quantity row); [|discriminate].
  injection E as <-. reflexivity.
Qed.

Lemma record_exists_In id db :
  record_exists id db = true <-> exists row, In row (records db) /\ record_id row = id.
Proof.
  unfold record_exists. rewrite existsb_exists. split.
  - intros (row & Hin & E). exists row. split; [exact Hin | apply Z.eqb_eq, E].
  - intros (row & Hin & E). exists row. split; [exact Hin | apply Z.eqb_eq, E].
Qed.

Lemma cart_rows_log rows :
  forall st,
    scanLog (foldl cart_row st rows)
    = scanLog st ++ map (fun _ => scan_error) (List.filter unscannable rows).
Proof.
  induction rows as [|row rows IH]; intros st; cbn [foldl List.filter map].
  - rewrite app_nil_r. reflexivity.
  - rewrite IH. unfold cart_row, unscannable.
    destruct (cart_quantity row) as [q|].
    + destruct (recordIDSet st !! cart_record_id row); reflexivity.
    + cbn [scanLog map]. rewrite <- app_assoc. reflexivity.
Qed.

(** Every collected id is the record id of a scanned item. *)
Lemma cart_rows_ids rows :
  forall st,
    (forall id, In id (recordIDs st) ->
       exists item, In item (cartItems st) /\ CartItem_RecordID item = id) ->
    forall id, In id (recordIDs (foldl cart_row st rows)) ->
      exists item, In item (cartItems (foldl cart_row st rows)) /\ CartItem_RecordID item = id.
Proof.
  induction rows as [|row rows IH]; intros st Hst; cbn [foldl]; [exact Hst|].
  apply IH. unfold cart_row. destruct (cart_quantity row) as [q|]; [|exact Hst].
  destruct (recordIDSet st !! cart_record_id row); cbn [cartItems recordIDs]; intros id Hid.
  - destruct (Hst id Hid) as (item & Hin & E). exists item. split; [|exact E].
    apply in_or_app. left. exact Hin.
  - apply in_app_or in Hid. destruct Hid as [Hid|[<-|[]]].
    + destruct (Hst id Hid) as (item & Hin & E). exists item. split; [|exact E].
      apply in_or_app. left. exact Hin.
    + eexists. split; [apply in_or_app; right; left; reflexivity | reflexivity].
Qed.

(** The final loop when no track is linked to a fetched record. *)
Lemma attach_records_unlinked recordsMap tracksMap items :
  attach_records recordsMap ∅ tracksMap items
  = (map (fun item =>
            set_Record item
              ((fun rec => set_Tracks rec (Some [])) <$> recordsMap !! CartItem_RecordID item))
         items,
     map missing_record
         (List.filter (fun item => negb (Valid (recordsMap !! CartItem_RecordID item))) items)).
Proof.
  induction items as [|item rest IH]; cbn [attach_records map List.filter]; [reflexivity|].
  rewrite IH. unfold attach_record, attach_tracks.
  destruct (recordsMap !! CartItem_RecordID item) as [rec|]; cbn [Valid negb fmap option_fmap option_map].
  - rewrite lookup_empty. reflexivity.
  - reflexivity.
Qed.

Lemma link_rows_nil rows : trackIDs (link_rows rows) = [] -> rows = [].
Proof.
  intros H. destruct rows as [|row rows]; [reflexivity|]. exfalso.
  apply (trackIDs_link_rows (row :: rows)); [discriminate | exact H].
Qed.

(** [GetCartHandler] on a healthy engine, branch by branch. *)
Lemma GetCart_healthy u db :
  GetCartHandler healthy u db
  = if len (cartItems (cart_of u db)) =? 0
    then mkOutcome (respondWithJSON StatusOK (cartItems (cart_of u db))) db
           (scanLog (cart_of u db))
    else if len (fetchedRecordIDs (record_rows (cart_records u db))) =? 0
    then mkOutcome (respondWithJSON StatusOK (cartItems (cart_of u db))) db
           (scanLog (cart_of u db))
    else if 0 <? len (trackIDs (link_rows (cart_links u db)))
    then mkOutcome (respondWithError StatusInternalServerError
                      "Database error fetching tracks for cart") db
           (scanLog (cart_of u db)
              ++ [Printf "Error querying tracks for cart: %v" [ArgError ErrSyntax]])
    else mkOutcome
           (respondWithJSON StatusOK
              (fst (attach_records (recordsMap (record_rows (cart_records u db)))
                      ∅ ∅ (cartItems (cart_of u db)))))
           db
           (scanLog (cart_of u db)
              ++ snd (attach_records (recordsMap (record_rows (cart_records u db)))
                        ∅ ∅ (cartItems (cart_of u db)))).
Proof.
  unfold GetCartHandler, QueryCartItems. rewrite healthy_call. cbn [deliver].
  fold (cart_of u db).
  destruct (len (cartItems (cart_of u db)) =? 0) eqn:L0; [reflexivity|].
  assert (Hids : recordIDs (cart_of u db) <> []).
  { destruct (cart_rows_collect (List.filter (fun c => cart_user_id c =? u) (cart_items db)))
      as [Hcol _]. fold (cart_of u db) in Hcol.
    destruct (cartItems (cart_of u db)) as [|item0 rest] eqn:Ec; [discriminate L0|].
    specialize (Hcol item0 (or_introl eq_refl)). intros Hnil. rewrite Hnil in Hcol.
    destruct Hcol. }
  destruct (bind_placeholders _ Hids) as (in_list & Hp & Hb). rewrite Hp.
  unfold QueryRecordsIn. rewrite Hb, healthy_call. cbn [deliver].
  fold (cart_records u db).
  destruct (len (fetchedRecordIDs (record_rows (cart_records u db))) =? 0) eqn:L1;
    [reflexivity|].
  assert (Hf : fetchedRecordIDs (record_rows (cart_records u db)) <> []).
  { intros Hnil. rewrite Hnil in L1. discriminate L1. }
  destruct (bind_placeholders _ Hf) as (in_list' & Hp' & Hb'). rewrite Hp'.
  unfold QueryRecordTracksIn. rewrite Hb', healthy_call. cbn [deliver].
  fold (cart_links u db).
  destruct (0 <? len (trackIDs (link_rows (cart_links u db)))) eqn:L2.
  - unfold QueryTracksIn. rewrite healthy_call, (proj2 (bind_raw_placeholders _)).
    reflexivity.
  - assert (Hl : cart_links u db = []).
    { apply link_rows_nil. apply len_zero. apply Z.ltb_ge in L2. apply Z.eqb_eq.
      unfold len in *. lia. }
    rewrite Hl. change (link_rows []) with (mkLinks ∅ [] ∅).
    cbn [recordTrackLinks track_rows foldl].
    destruct (attach_records _ _ _ _). reflexivity.
Qed.

Lemma cart_of_items u db : cartItems (cart_of u db) = scanned_cart u db.
Proof.
  unfold cart_of, cart_rows, scanned_cart. rewrite cart_rows_items. reflexivity.
Qed.

Lemma cart_of_log u db : scanLog (cart_of u db) = map (fun _ => scan_error) (unscanned u db).
Proof.
  unfold cart_of, cart_rows, unscanned. rewrite cart_rows_log. reflexivity.
Qed.

Lemma cart_of_ids u db item :
  In item (cartItems (cart_of u db)) -> In (CartItem_RecordID item) (recordIDs (cart_of u db)).
Proof. apply (cart_rows_collect (List.filter (fun c => cart_user_id c =? u) (cart_items db))). Qed.

Lemma cart_of_ids_items u db id :
  In id (recordIDs (cart_of u db)) ->
  exists item, In item (cartItems (cart_of u db)) /\ CartItem_RecordID item = id.
Proof.
  apply (cart_rows_ids (List.filter (fun c => cart_user_id c =? u) (cart_items db))
           (mkCartRows [] [] ∅ [])).
  intros ? [].
Qed.

(** What the map of the fetched records holds for an id of the cart. *)
Lemma cart_records_map u db id :
  In id (recordIDs (cart_of u db)) ->
  (record_exists id db = false ->
     recordsMap (record_rows (cart_records u db)) !! id = None)
  /\ (record_exists id db = true ->
        exists rec, recordsMap (record_rows (cart_records u db)) !! id = Some rec
                    /\ Record_ID rec = id).
Proof.
  intros Hid.
  destruct (record_rows_map (cart_records u db) id (mkRecordRows ∅ [] ∅)) as [Hm Hk].
  { cbn [recordsMap]. intros rec Hrec. rewrite lookup_empty in Hrec. discriminate. }
  fold (record_rows (cart_records u db)) in Hm, Hk. cbn [recordsMap] in Hm. split.
  - intros Hno.
    assert (Hcase : recordsMap (record_rows (cart_records u db)) !! id = None
                    \/ recordsMap (record_rows (cart_records u db)) !! id <> None)
      by (destruct (recordsMap (record_rows (cart_records u db)) !! id);
          [right; discriminate | left; reflexivity]).
    destruct Hcase as [Hnone|Hsome]; [exact Hnone|]. exfalso.
    apply Hm in Hsome. destruct Hsome as [Hsome|(row & Hrow & Hrid)].
    + rewrite lookup_empty in Hsome. congruence.
    + apply filter_In in Hrow. destruct Hrow as [Hrow _].
      assert (record_exists id db = true) by (apply record_exists_In; eauto).
      congruence.
  - intros Hyes. apply record_exists_In in Hyes. destruct Hyes as (row & Hrow & Hrid).
    assert (Hsome : recordsMap (record_rows (cart_records u db)) !! id <> None).
    { apply Hm. right. exists row. split; [|exact Hrid].
      apply filter_In. split; [exact Hrow|]. apply mem_In. rewrite Hrid. exact Hid. }
    destruct (recordsMap (record_rows (cart_records u db)) !! id) as [rec|] eqn:E;
      [|congruence].
    exists rec. split; [reflexivity | apply Hk; reflexivity].
Qed.

(** No record is fetched exactly when no record of the cart exists. *)
Lemma cart_records_none u db :
  fetchedRecordIDs (record_rows (cart_records u db)) = [] ->
  forall item, In item (cartItems (cart_of u db)) -> dangling db item = true.
Proof.
  intros Hnil item Hin. apply fetched_none in Hnil. unfold dangling.
  destruct (record_exists (CartItem_RecordID item) db) eqn:E; [|reflexivity]. exfalso.
  apply record_exists_In in E. destruct E as (row & Hrow & Hid).
  assert (Hr : In row (cart_records u db)).
  { apply filter_In. split; [exact Hrow|]. apply mem_In. rewrite Hid.
    apply cart_of_ids, Hin. }
  rewrite Hnil in Hr. destruct Hr.
Qed.

Lemma cart_records_some u db :
  fetchedRecordIDs (record_rows (cart_records u db)) <> [] ->
  exists item, In item (cartItems (cart_of u db)) /\ dangling db item = false.
Proof.
  intros Hne. destruct (cart_records u db) as [|row rest] eqn:Er.
  { exfalso. apply Hne. reflexivity. }
  assert (Hr : In row (cart_records u db)) by (rewrite Er; left; reflexivity).
  apply filter_In in Hr. destruct Hr as [Hrow Hm]. apply mem_In in Hm.
  destruct (cart_of_ids_items u db _ Hm) as (item & Hin & Hid).
  exists item. split; [exact Hin|]. unfold dangling. rewrite Hid.
  assert (E : record_exists (record_id row) db = true) by (apply record_exists_In; eauto).
  rewrite E. reflexivity.
Qed.

Lemma dangling_warnings db recordsMap items :
  (forall item, In item items ->
     dangling db item = negb (Valid (recordsMap !! CartItem_RecordID item))) ->
  map missing_record (List.filter (dangling db) (map (with_record recordsMap) items))
  = map missing_record
        (List.filter (fun item => negb (Valid (recordsMap !! CartItem_RecordID item))) items).
Proof.
  induction items as [|item rest IH]; intros H; cbn [map List.filter]; [reflexivity|].
  change (dangling db (with_record recordsMap item)) with (dangling db item).
  rewrite (H item (or_introl eq_refl)).
  specialize (IH (fun x Hx => H x (or_intror Hx))).
  destruct (negb _); cbn [map]; rewrite IH; reflexivity.
Qed.

Lemma fetched_ids_rows rows id :
  forall st,
    In id (fetchedRecordIDs (foldl record_row st rows)) ->
    In id (fetchedRecordIDs st) \/ exists row, In row rows /\ record_id row = id.
Proof.
  induction rows as [|row rows IH]; intros st; cbn [foldl]; [tauto|].
  intros Hin. destruct (IH _ Hin) as [H|(r & Hr & Hid)].
  - unfold record_row in H.
    destruct (fetchedRecordIDSet st !! Record_ID (scan_record row)); cbn [fetchedRecordIDs] in H.
    + left. exact H.
    + apply in_app_or in H. destruct H as [H|[H|[]]]; [left; exact H|].
      right. exists row. split; [left; reflexivity | exact H].
  - right. exists r. split; [right; exact Hr | exact Hid].
Qed.

Lemma scanned_cart_rows u db item :
  In item (scanned_cart u db) ->
  exists c, In c (cart_items db) /\ cart_user_id c = u
            /\ cart_record_id c = CartItem_RecordID item.
Proof.
  unfold scanned_cart. intros H. apply list_elem_of_In, list_elem_of_omap in H.
  destruct H as (c & Hc & Hs). apply list_elem_of_In, filter_In in Hc.
  destruct Hc as [Hc Hu]. apply Z.eqb_eq in Hu. exists c. split_and!; [exact Hc | exact Hu |].
  unfold scanned_item in Hs. destruct (cart_quantity c); [|discriminate].
  injection Hs as <-. reflexivity.
Qed.

Lemma scanned_cart_bare u db :
  map (fun item => set_Record item None) (scanned_cart u db) = scanned_cart u db.
Proof. apply scanned_items_bare. Qed.


(** An answer with a list is the answer of a healthy engine: every call the
    handler made was served. *)
Lemma GetCart_listed io u db code items :
  response (GetCartHandler io u db) = respondWithJSON code items ->
  GetCartHandler io u db = GetCartHandler healthy u db.
Proof.
  unfold GetCartHandler, QueryCartItems, QueryRecordsIn, QueryRecordTracksIn, QueryTracksIn.
  rewrite !healthy_call.
  destruct (io 0%nat); cbn [deliver response]; try discriminate.
  destruct (len (cartItems _) =? 0); [reflexivity|].
  destruct (placeholders _) as [in_list|]; [|reflexivity].
  destruct (io 1%nat); cbn [deliver response]; try discriminate.
  - destruct (bind in_list _) as [ids|e]; [|reflexivity]. cbn [deliver].
    destruct (len (fetchedRecordIDs _) =? 0); [reflexivity|].
    destruct (placeholders _) as [in_list'|]; [|reflexivity].
    destruct (io 2%nat); cbn [deliver response]; try discriminate.
    + destruct (bind in_list' _) as [ids'|e]; [|reflexivity]. cbn [deliver].
      destruct (0 <? len (trackIDs _)); [|reflexivity].
      rewrite (proj2 (bind_raw_placeholders _)).
      destruct (io 3%nat); cbn [response]; discriminate.
    + destruct (bind in_list' _) as [ids'|e]; cbn [deliver response]; discriminate.
  - destruct (bind in_list _) as [ids|e]; cbn [deliver response]; discriminate.
Qed.

(** C5, amended.  Whenever [GetCartHandler] answers with a list, whatever
    the faults of the engine, the list holds, up to the order of the rows,
    every cart row of the user that could be scanned: a row whose record is
    not in [records] is in the list as well, with its user id, record id
    and quantity and with no record attached, while a row whose record
    exists carries that record with a track list.  The log holds a line for
    each row that could not be scanned and, when at least one record of the
    cart exists, a warning for each item of the answer whose record does
    not, in the order of the answer; when no record of the cart exists
    nothing is logged for the items.  A row without its record raises no
    error: on a healthy engine, when no row of the user is for a record
    with a linked track, the answer is a list. *)
Theorem C5_cart_rows_are_kept (u : Z) (db : Store) :
  (forall io code items,
     response (GetCartHandler io u db) = respondWithJSON code items ->
     Permutation (map (fun item => set_Record item None) items) (scanned_cart u db)
     /\ (forall item, In item items ->
           (record_exists (CartItem_RecordID item) db = false -> CartItem_Record item = None)
           /\ (record_exists (CartItem_RecordID item) db = true ->
                 exists rec, CartItem_Record item = Some rec
                             /\ Record_ID rec = CartItem_RecordID item
                             /\ Record_Tracks rec <> None))
     /\ logged (GetCartHandler io u db)
        = map (fun _ => scan_error) (unscanned u db)
            ++ (if forallb (dangling db) items then []
                else map missing_record (List.filter (dangling db) items)))
  /\ ((forall c, In c (cart_items db) -> cart_user_id c = u ->
         no_linked_tracks (cart_record_id c) db) ->
      exists items,
        response (GetCartHandler healthy u db) = respondWithJSON StatusOK items).
Proof.
  split.
  - intros io code items H.
    pose proof (GetCart_listed io u db code items H) as Heq.
    rewrite Heq in H |- *. clear Heq io. rewrite GetCart_healthy in H |- *.
    destruct (len (cartItems (cart_of u db)) =? 0) eqn:L0.
    { cbn [response logged] in *. injection H as _ <-. apply len_zero in L0.
      rewrite cart_of_log, <- cart_of_items, L0. cbn [map forallb].
      split_and!; [apply perm_nil | intros ? [] | rewrite app_nil_r; reflexivity]. }
    destruct (len (fetchedRecordIDs (record_rows (cart_records u db))) =? 0) eqn:L1.
    { cbn [response logged] in *. injection H as _ <-. apply len_zero in L1.
      pose proof (cart_records_none u db L1) as Hall.
      rewrite cart_of_log. split_and!.
      - rewrite cart_of_items, scanned_cart_bare. reflexivity.
      - intros item Hin. specialize (Hall item Hin). unfold dangling in Hall.
        destruct (record_exists (CartItem_RecordID item) db); [discriminate Hall|].
        split; [|discriminate]. intros _. rewrite cart_of_items in Hin.
        apply (scanned_item_bare _ _ Hin).
      - replace (forallb (dangling db) (cartItems (cart_of u db))) with true;
          [rewrite app_nil_r; reflexivity|].
        symmetry. apply forallb_forall. exact Hall. }
    destruct (0 <? len (trackIDs (link_rows (cart_links u db)))); [discriminate H|].
    cbn [response logged] in *. rewrite attach_records_unlinked in *. cbn [fst snd] in *.
    injection H as _ <-. fold (with_record (recordsMap (record_rows (cart_records u db)))).
    assert (Hdang : forall item, In item (cartItems (cart_of u db)) ->
              dangling db item
              = negb (Valid (recordsMap (record_rows (cart_records u db))
                               !! CartItem_RecordID item))).
    { intros item Hin. destruct (cart_records_map u db _ (cart_of_ids u db item Hin))
        as [Hno Hyes]. unfold dangling.
      destruct (record_exists (CartItem_RecordID item) db).
      - destruct (Hyes eq_refl) as (rec & -> & _). reflexivity.
      - rewrite (Hno eq_refl). reflexivity. }
    split_and!.
    + rewrite map_map. cbn [with_record set_Record CartItem_UserID CartItem_RecordID
                              CartItem_Quantity].
      change (map (fun x => mkCartItem (CartItem_UserID x) (CartItem_RecordID x)
                              (CartItem_Quantity x) None) (cartItems (cart_of u db)))
        with (map (fun item => set_Record item None) (cartItems (cart_of u db))).
      rewrite cart_of_items, scanned_cart_bare. reflexivity.
    + intros item Hin. apply in_map_iff in Hin. destruct Hin as (item0 & <- & Hin0).
      destruct (cart_records_map u db _ (cart_of_ids u db item0 Hin0)) as [Hno Hyes].
      cbn [with_record set_Record CartItem_RecordID CartItem_Record]. split.
      * intros E. rewrite (Hno E). reflexivity.
      * intros E. destruct (Hyes E) as (rec & -> & Hid). cbn [fmap option_fmap option_map].
        eexists. split_and!; [reflexivity | exact Hid | discriminate].
    + rewrite cart_of_log, (dangling_warnings db _ _ Hdang).
      replace (forallb (dangling db)
                 (map (with_record (recordsMap (record_rows (cart_records u db))))
                    (cartItems (cart_of u db)))) with false; [reflexivity|].
      symmetry. apply not_true_is_false. intros Hall.
      assert (Hne : fetchedRecordIDs (record_rows (cart_records u db)) <> []).
      { intros Hnil. rewrite Hnil in L1. discriminate L1. }
      destruct (cart_records_some u db Hne) as (item & Hin & Hd).
      rewrite forallb_forall in Hall.
      specialize (Hall (with_record (recordsMap (record_rows (cart_records u db))) item)
                    (in_map _ _ _ Hin)).
      change (dangling db (with_record _ item)) with (dangling db item) in Hall. congruence.
  - intros Hfree. rewrite GetCart_healthy.
    destruct (len (cartItems (cart_of u db)) =? 0); [eexists; reflexivity|].
    destruct (len (fetchedRecordIDs (record_rows (cart_records u db))) =? 0);
      [eexists; reflexivity|].
    assert (Hl : cart_links u db = []).
    { apply filter_nil_existsb. destruct (existsb _ _) eqn:E; [|reflexivity]. exfalso.
      apply existsb_exists in E. destruct E as (rt & Hrt & Hm). apply mem_In in Hm.
      apply (fetched_ids_rows (cart_records u db) _ (mkRecordRows ∅ [] ∅)) in Hm.
      destruct Hm as [[]|(row & Hrow & Hid)]. apply filter_In in Hrow.
      destruct Hrow as [_ Hrow]. apply mem_In in Hrow. rewrite Hid in Hrow.
      destruct (cart_of_ids_items u db _ Hrow) as (item & Hin & Hitem).
      rewrite cart_of_items in Hin.
      destruct (scanned_cart_rows u db item Hin) as (c & Hc & Hu & Hr).
      apply (Hfree c Hc Hu rt Hrt). rewrite Hr, Hitem. reflexivity. }
    rewrite Hl. cbn. eexists. reflexivity.
Qed.

Lemma C5_cart_rows_are_kept_witness :
  (exists items,
     response (GetCartHandler healthy 1 dangling_cart) = respondWithJSON StatusOK items)
  /\ logged (GetCartHandler healthy 1 lost_cart) = [].
Proof.
  split.
  - apply (proj2 (C5_cart_rows_are_kept 1 dangling_cart)).
    intros c [<-|[<-|[]]] _ rt [<-|[]]; discriminate.
  - refine (proj2 (proj2 (proj1 (C5_cart_rows_are_kept 1 lost_cart) healthy StatusOK
                            [mkCartItem 1 9 2 None] eq_refl))).
Defined.

(** ** C6 *)


Ltac case_tx := repeat (cbn [sent err committed tx lines created]; case_inner).

Lemma track_exists_same id db db' : tracks db' = tracks db -> track_exists id db' = track_exists id db.
Proof. unfold track_exists. intros ->. reflexivity. Qed.

(** On a healthy engine the loop over the track ids never stops with an
    error: an unknown track and a duplicate link are skipped. *)
Lemma link_tracks_healthy db recordID ids :
  forall k work,
    tracks work = tracks db -> record_exists recordID work = true ->
    let r := link_tracks healthy k db recordID ids work in
    stopped r = None
    /\ records (pending_store r) = records work
    /\ tracks (pending_store r) = tracks db.
Proof.
  induction ids as [|trackID rest IH]; intros k work Ht Hr; cbn [link_tracks].
  - cbn [stopped pending_store]. split_and!; [reflexivity | reflexivity | exact Ht].
  - cbv zeta. unfold QueryTrackExists. rewrite healthy_call. cbn [faulty].
    destruct (track_exists trackID db) eqn:Et.
    + unfold InsertRecordTrack. rewrite healthy_call. cbn [faulty].
      destruct (existsb _ (record_tracks work)).
      * cbn [is_unique_violation stopped pending_store]. apply (IH _ work Ht Hr).
      * rewrite Hr, (track_exists_same trackID db work Ht), Et. cbn [andb].
        apply (IH (S (S k)) (with_record_tracks work _)); [exact Ht | exact Hr].
    + cbn [stopped pending_store]. apply (IH _ work Ht Hr).
Qed.

Lemma existsb_app_last {A} (p : A -> bool) l x : p x = true -> existsb p (l ++ [x]) = true.
Proof.
  intros H. rewrite existsb_app. simpl. rewrite H. rewrite orb_true_r. reflexivity.
Qed.

Lemma NoDup_snoc {A} (l : list A) x : List.NoDup l -> ~ In x l -> List.NoDup (l ++ [x]).
Proof.
  induction l as [|y l IH]; intros Hl Hx; cbn.
  - constructor; [intros [] | constructor].
  - inversion Hl as [|? ? Hy Hl']; subst. constructor.
    + rewrite in_app_iff. intros [H|[H|[]]]; [tauto|]. subst. apply Hx. left. reflexivity.
    + apply IH; [exact Hl'|]. intros H. apply Hx. right. exact H.
Qed.

Lemma linked_already recordID t base linked :
  (forall rt, In rt base -> rt_record_id rt <> recordID) ->
  existsb (fun rt => (rt_record_id rt =? recordID) && (rt_track_id rt =? t))
          (base ++ map (mkRecordTrackRow recordID) linked)
  = mem t linked.
Proof.
  intros Hbase. rewrite existsb_app.
  replace (existsb _ base) with false.
  - cbn [orb]. unfold mem. induction linked as [|x linked IH]; cbn; [reflexivity|].
    rewrite Z.eqb_refl, IH. cbn [andb]. rewrite (Z.eqb_sym x t). reflexivity.
  - symmetry. apply not_true_is_false. intros H. apply existsb_exists in H.
    destruct H as (rt & Hin & H). apply andb_true_iff in H. destruct H as [H _].
    apply Z.eqb_eq in H. exact (Hbase rt Hin H).
Qed.

(** What the loop over the track ids leaves in [record_tracks] on a healthy
    engine: after the rows it found, one row for each requested track that
    exists and was not linked before, and nothing else is changed. *)
Lemma link_tracks_links db recordID base ids :
  (forall rt, In rt base -> rt_record_id rt <> recordID) ->
  forall k work linked,
    tracks work = tracks db -> record_exists recordID work = true ->
    record_tracks work = base ++ map (mkRecordTrackRow recordID) linked ->
    List.NoDup linked ->
    exists linked',
      record_tracks (pending_store (link_tracks healthy k db recordID ids work))
      = base ++ map (mkRecordTrackRow recordID) linked'
      /\ List.NoDup linked'
      /\ (forall t, In t linked' <-> In t linked \/ (In t ids /\ track_exists t db = true))
      /\ with_record_tracks (pending_store (link_tracks healthy k db recordID ids work))
           (record_tracks work) = work.
Proof.
  intros Hbase. induction ids as [|trackID rest IH]; intros k work linked Ht Hr Hrows Hnd;
    cbn [link_tracks].
  - cbn [pending_store]. exists linked. split_and!; [exact Hrows | exact Hnd | | ].
    + intros t. cbn. tauto.
    + destruct work; reflexivity.
  - cbv zeta. unfold QueryTrackExists. rewrite healthy_call. cbn [faulty].
    destruct (track_exists trackID db) eqn:Et.
    + unfold InsertRecordTrack. rewrite healthy_call. cbn [faulty].
      rewrite Hrows, (linked_already recordID trackID base linked Hbase).
      destruct (mem trackID linked) eqn:Em; rewrite <- Hrows.
      * cbn [is_unique_violation pending_store].
        destruct (IH (S (S k)) work linked Ht Hr Hrows Hnd) as (linked' & H1 & H2 & H3 & H4).
        exists linked'. split_and!; [exact H1 | exact H2 | | exact H4].
        intros t. rewrite H3. cbn. apply mem_In in Em. split; [tauto|].
        intros [H|[[<-|H] Hex]]; tauto.
      * rewrite Hr, (track_exists_same trackID db work Ht), Et. cbn [andb negb orb].
        destruct (IH (S (S k))
                    (with_record_tracks work
                       (record_tracks work ++ [mkRecordTrackRow recordID trackID]))
                    (linked ++ [trackID]))
          as (linked' & H1 & H2 & H3 & H4).
        -- exact Ht.
        -- exact Hr.
        -- cbn [record_tracks with_record_tracks]. rewrite Hrows, map_app, app_assoc.
           reflexivity.
        -- apply NoDup_snoc; [exact Hnd|]. intros H. apply mem_In in H. congruence.
        -- exists linked'. split_and!; [exact H1 | exact H2 | |].
           ++ intros t. rewrite H3, in_app_iff. cbn. split; [|tauto].
              intros [[H|[<-|[]]]|H]; tauto.
           ++ cbn [record_tracks with_record_tracks] in H4. revert H4.
              destruct (pending_store _), work. cbn. intros [= -> -> -> -> -> -> ->].
              reflexivity.
    + cbn [pending_store].
      destruct (IH (S k) work linked Ht Hr Hrows Hnd) as (linked' & H1 & H2 & H3 & H4).
      exists linked'. split_and!; [exact H1 | exact H2 | | exact H4].
      intros t. rewrite H3. cbn. split; [tauto|].
      intros [H|[[<-|H] Hex]]; [tauto | congruence | tauto].
Qed.










(** ** The statements behind the requests *)

Lemma insert_tracks_issues io owner ownerID m e reqs :
  forall k work,
    rtc statement work (pending_store (insert_tracks io k owner ownerID m e reqs work)).
Proof.
  induction reqs as [|trackReq rest IH]; intros k work; cbn [insert_tracks].
  - apply rtc_refl.
  - destruct (String.eqb (AddTrack_Name trackReq) "" || (AddTrack_Duration trackReq <=? 0)).
    + cbn [pending_store]. apply IH.
    + destruct (InsertTrack _ _ _ _ _ _) as [[work' id]|err] eqn:E.
      * eapply rtc_l; [eapply st_InsertTrack; exact E | apply IH].
      * apply rtc_refl.
Qed.

Lemma link_tracks_issues io db recordID ids :
  forall k work,
    rtc statement work (pending_store (link_tracks io k db recordID ids work)).
Proof.
  induction ids as [|trackID rest IH]; intros k work; cbn [link_tracks].
  - apply rtc_refl.
  - cbv zeta. destruct (QueryTrackExists _ _ _) as [[|]|e]; cbn [pending_store];
      [|apply IH|apply IH].
    destruct (InsertRecordTrack _ _ _ _) as [work'|e] eqn:E.
    + eapply rtc_l; [eapply st_InsertRecordTrack; exact E | apply IH].
    + destruct (is_unique_violation e); cbn [pending_store]; [apply IH | apply rtc_refl].
Qed.

Lemma AddMusician_issues io req db :
  rtc statement db (committed (AddMusicianHandler io req db)).
Proof.
  unfold AddMusicianHandler.
  destruct (_ || _); [apply rtc_refl|].
  destruct (faulty (io 0%nat)); [apply rtc_refl|].
  rewrite committed_deferred.
  destruct (InsertMusician _ _ _ _ _ _) as [[work id]|e] eqn:E; [|apply rtc_refl].
  cbv zeta. destruct (stopped _); [apply rtc_refl|].
  destruct (committed_Commit (io (next_call
              (insert_tracks io 2 "musician" id (Some id) None (AddMusician_Tracks req) work)))
              db (pending_store
              (insert_tracks io 2 "musician" id (Some id) None (AddMusician_Tracks req) work))
              (respondWithJSON StatusCreated ("Musician added successfully", id))
              "musician"
              (loop_lines
              (insert_tracks io 2 "musician" id (Some id) None (AddMusician_Tracks req) work)))
    as [-> | ->]; [apply rtc_refl|].
  eapply rtc_l; [eapply st_InsertMusician; exact E | apply insert_tracks_issues].
Qed.

Lemma AddEnsemble_issues io req db :
  rtc statement db (committed (AddEnsembleHandler io req db)).
Proof.
  unfold AddEnsembleHandler.
  destruct (String.eqb _ _); [apply rtc_refl|].
  destruct (faulty (io 0%nat)); [apply rtc_refl|].
  rewrite committed_deferred.
  destruct (InsertEnsemble _ _ _ _) as [[work id]|e] eqn:E;
    [|destruct (is_unique_violation e); apply rtc_refl].
  cbv zeta. destruct (stopped _); [apply rtc_refl|].
  destruct (committed_Commit (io (next_call
              (insert_tracks io 2 "ensemble" id None (Some id) (AddEnsemble_Tracks req) work)))
              db (pending_store
              (insert_tracks io 2 "ensemble" id None (Some id) (AddEnsemble_Tracks req) work))
              (respondWithJSON StatusCreated ("Ensemble added successfully", id))
              "ensemble"
              (loop_lines
              (insert_tracks io 2 "ensemble" id None (Some id) (AddEnsemble_Tracks req) work)))
    as [-> | ->]; [apply rtc_refl|].
  eapply rtc_l; [eapply st_InsertEnsemble; exact E | apply insert_tracks_issues].
Qed.

Lemma AddRecord_issues io req db :
  rtc statement db (committed (AddRecordHandler io req db)).
Proof.
  unfold AddRecordHandler.
  destruct (String.eqb _ _); [apply rtc_refl|].
  destruct (_ <? 0); [apply rtc_refl|].
  destruct (faulty (io 0%nat)); [apply rtc_refl|].
  rewrite committed_deferred.
  destruct (InsertRecord _ _ _) as [[work id]|e] eqn:E; [|apply rtc_refl].
  cbv zeta. destruct (0 <? _).
  - destruct (faulty (io 2%nat)); [apply rtc_refl|].
    destruct (stopped _); [apply rtc_refl|].
    destruct (committed_Commit (io (next_call
                (link_tracks io 3 db id (AddRecord_TrackIDs req) work)))
                db (pending_store (link_tracks io 3 db id (AddRecord_TrackIDs req) work))
                (respondWithJSON StatusCreated ("Record added successfully", id))
                "record"
                (loop_lines (link_tracks io 3 db id (AddRecord_TrackIDs req) work)))
      as [-> | ->]; [apply rtc_refl|].
    eapply rtc_l; [eapply st_InsertRecord; exact E | apply link_tracks_issues].
  - destruct (committed_Commit (io 2%nat) db work
                (respondWithJSON StatusCreated ("Record added successfully", id))
                "record" []) as [-> | ->]; [apply rtc_refl|].
    apply rtc_once. eapply st_InsertRecord; exact E.
Qed.

Lemma AddToCart_issues io u req db :
  rtc statement db (store (AddToCartHandler io u req db)).
Proof.
  unfold AddToCartHandler.
  destruct (negb _) eqn:Hrange; [apply rtc_refl|].
  destruct (_ || _) eqn:Hpos; [apply rtc_refl|].
  destruct (QueryRecordExists _ _ _) as [[|]|e]; try apply rtc_refl.
  destruct (UpsertCartItem _ _ _ _ _) as [db'|e] eqn:E; [|apply rtc_refl].
  apply rtc_once. eapply st_UpsertCartItem; [|exact E].
  apply negb_false_iff, andb_true_iff in Hrange. destruct Hrange as [_ Hq].
  apply is_int64_spec in Hq. apply orb_false_iff in Hpos. destruct Hpos as [_ Hpos].
  apply Z.leb_gt in Hpos. lia.
Qed.

Lemma UpdateCart_issues io u r q db :
  rtc statement db (store (UpdateCartHandler io u r q db)).
Proof.
  unfold UpdateCartHandler.
  destruct (_ || _); [apply rtc_refl|].
  destruct (negb (is_int64 q)) eqn:Hrange; [apply rtc_refl|].
  destruct (q <? 0) eqn:Hneg; [apply rtc_refl|].
  destruct (q =? 0) eqn:Hzero.
  - destruct (DeleteCartItem _ _ _ _) as [[db' n]|e] eqn:E; [|apply rtc_refl].
    assert (rtc statement db db') by (apply rtc_once; eapply st_DeleteCartItem; exact E).
    destruct (n =? 0); assumption.
  - destruct (QueryRecordStock _ _ _) as [[stock|]|e]; try apply rtc_refl.
    destruct (UpdateCartItem _ _ _ _ _) as [[db' n]|e] eqn:E; [|apply rtc_refl].
    assert (rtc statement db db').
    { apply rtc_once. eapply st_UpdateCartItem; [|exact E].
      apply negb_false_iff, is_int64_spec in Hrange.
      apply Z.ltb_ge in Hneg. apply Z.eqb_neq in Hzero. lia. }
    destruct (n =? 0); assumption.
Qed.

Lemma RemoveFromCart_issues io u r db :
  rtc statement db (store (RemoveFromCartHandler io u r db)).
Proof.
  unfold RemoveFromCartHandler.
  destruct (_ || _); [apply rtc_refl|].
  destruct (DeleteCartItem _ _ _ _) as [[db' n]|e] eqn:E; [|apply rtc_refl].
  assert (rtc statement db db') by (apply rtc_once; eapply st_DeleteCartItem; exact E).
  destruct (n =? 0); assumption.
Qed.

Lemma UpdateRecord_issues io id req db :
  rtc statement db (store (UpdateRecordHandler io id req db)).
Proof.
  unfold UpdateRecordHandler.
  destruct (_ || _); [apply rtc_refl|].
  destruct (String.eqb _ _); [apply rtc_refl|].
  destruct (_ <? 0); [apply rtc_refl|].
  destruct (UpdateRecord _ _ _ _) as [[db' n]|e] eqn:E; [|apply rtc_refl].
  assert (rtc statement db db') by (apply rtc_once; eapply st_UpdateRecord; exact E).
  destruct (n =? 0); assumption.
Qed.

Lemma DeleteRecord_issues io id db :
  rtc statement db (store (DeleteRecordHandler io id db)).
Proof.
  unfold DeleteRecordHandler.
  destruct (_ || _); [apply rtc_refl|].
  destruct (DeleteRecord _ _ _) as [[db' n]|e] eqn:E; [|apply rtc_refl].
  assert (rtc statement db db') by (apply rtc_once; eapply st_DeleteRecord; exact E).
  destruct (n =? 0); assumption.
Qed.

Lemma UpdateProfile_issues io u user db :
  rtc statement db (store (UpdateProfileHandler io u user db)).
Proof.
  unfold UpdateProfileHandler.
  destruct (UpdateUser _ _ _ _ _ _) as [[db' n]|e] eqn:E; [|apply rtc_refl].
  assert (rtc statement db db') by (apply rtc_once; eapply st_UpdateUser; exact E).
  destruct (n =? 0); assumption.
Qed.

Lemma statements_keep (P : Store -> Prop) :
  (forall db db', statement db db' -> P db -> P db') ->
  forall db db', rtc statement db db' -> P db -> P db'.
Proof.
  intros Hstep db db'. induction 1 as [|db db1 db2 Hst _ IH]; [tauto|].
  intros HP. apply IH. exact (Hstep _ _ Hst HP).
Qed.

Section RequestFacts.

Variable HashPassword : string -> Fallible string.
Variable ADMIN_USERNAME ADMIN_PASSWORD : string.

Lemma Register_issues io req db :
  rtc statement db
    (store (RegisterHandler HashPassword ADMIN_USERNAME ADMIN_PASSWORD io req db)).
Proof.
  unfold RegisterHandler.
  destruct (_ || _); [apply rtc_refl|].
  cbv zeta. destruct (HashPassword _); [|apply rtc_refl].
  destruct (QueryUserExists _ _ _ _) as [[|]|e]; try apply rtc_refl.
  destruct (InsertUser _ _ _ _ _ _ _ _ _) as [[db' id]|e] eqn:E; [|apply rtc_refl].
  apply rtc_once. eapply st_InsertUser; exact E.
Qed.

Lemma RegisterAdminUser_issues io username password db :
  rtc statement db (admin_store (RegisterAdminUser HashPassword io username password db)).
Proof.
  unfold RegisterAdminUser.
  destruct (QueryUserByName (io 0%nat) _ _) as [[row|]|e]; try apply rtc_refl.
  - destruct (QueryUserByName (io 1%nat) _ _) as [[row'|]|e]; try apply rtc_refl.
    destruct (String.eqb _ _); apply rtc_refl.
  - destruct (HashPassword _); [|apply rtc_refl].
    destruct (InsertUser _ _ _ _ _ _ _ _ _) as [[db' id]|e] eqn:E; [|apply rtc_refl].
    apply rtc_once. eapply st_InsertUser; exact E.
Qed.

(** Every request is a sequence of statements. *)
Lemma request_issues db db' :
  request HashPassword ADMIN_USERNAME ADMIN_PASSWORD db db' -> rtc statement db db'.
Proof.
  intros [].
  - apply RegisterAdminUser_issues.
  - apply Register_issues.
  - apply UpdateProfile_issues.
  - apply AddToCart_issues.
  - apply UpdateCart_issues.
  - apply RemoveFromCart_issues.
  - apply AddMusician_issues.
  - apply AddEnsemble_issues.
  - apply AddRecord_issues.
  - apply UpdateRecord_issues.
  - apply DeleteRecord_issues.
Qed.

Lemma requests_issue db db' :
  rtc (request HashPassword ADMIN_USERNAME ADMIN_PASSWORD) db db' -> rtc statement db db'.
Proof.
  induction 1 as [|db db1 db2 Hreq _ IH]; [apply rtc_refl|].
  etrans; [apply request_issues; exact Hreq | exact IH].
Qed.

Lemma invariant_reachable (P : Store -> Prop) :
  invariant P ->
  forall db, reachable HashPassword ADMIN_USERNAME ADMIN_PASSWORD db -> P db.
Proof.
  intros [Hinit Hstep] db Hreach.
  exact (statements_keep P Hstep _ _ (requests_issue _ _ Hreach) Hinit).
Qed.

End RequestFacts.

(** ** The constraints of the schema hold in every reachable store *)

Ltac open_statement H :=
  unfold InsertUser, UpdateUser, InsertEnsemble, InsertMusician, InsertTrack, InsertRecord,
    InsertRecordTrack, UpdateRecord, DeleteRecord, UpsertCartItem, UpdateCartItem,
    DeleteCartItem in H;
  repeat match type of H with
         | context [match ?x with _ => _ end] =>
             lazymatch x with
             | context [match _ with _ => _ end] => fail
             | _ => destruct x eqn:?
             end
         end;
  try discriminate H; inversion H; subst; clear H.


Lemma NoDup_map_snoc {A B} (f : A -> B) l x :
  List.NoDup (map f l) -> ~ In (f x) (map f l) -> List.NoDup (map f (l ++ [x])).
Proof. intros Hl Hx. rewrite map_app. apply NoDup_snoc; assumption. Qed.

Lemma NoDup_map_filter {A B} (f : A -> B) p l :
  List.NoDup (map f l) -> List.NoDup (map f (List.filter p l)).
Proof.
  induction l as [|x l IH]; cbn; intros Hl; [constructor|].
  inversion Hl as [|? ? Hx Hl']; subst.
  destruct (p x); cbn; [|apply IH; exact Hl'].
  constructor; [|apply IH; exact Hl'].
  intros Hin. apply Hx. apply in_map_iff in Hin. destruct Hin as (y & Hy & Hin).
  apply filter_In in Hin. apply in_map_iff. exists y. tauto.
Qed.

Lemma map_map_same {A B} (f : A -> B) (g : A -> A) l :
  (forall x, f (g x) = f x) -> map f (map g l) = map f l.
Proof. intros H. rewrite map_map. apply map_ext. exact H. Qed.

Lemma largest_rowid_bound table ids db id :
  In id ids -> id <= largest_rowid table ids db.
Proof.
  unfold largest_rowid. induction ids as [|x ids IH]; [intros []|].
  cbn. intros [->|H]; [lia|]. specialize (IH H). lia.
Qed.

Lemma largest_rowid_sequence table ids db :
  default 0 (sqlite_sequence db !! table) <= largest_rowid table ids db.
Proof. unfold largest_rowid. induction ids as [|x ids IH]; cbn; lia. Qed.

Lemma new_rowid_fresh table ids db id :
  new_rowid table ids db = Some id -> ~ In id ids.
Proof.
  unfold new_rowid. cbv zeta. destruct (_ <=? _); [discriminate|].
  intros [= <-] Hin. apply (largest_rowid_bound table _ db) in Hin. lia.
Qed.

Lemma new_rowid_above table ids db id :
  new_rowid table ids db = Some id ->
  default 0 (sqlite_sequence db !! table) < id /\ forall x, In x ids -> x < id.
Proof.
  unfold new_rowid. cbv zeta. destruct (_ <=? _); [discriminate|].
  intros [= <-]. split.
  - pose proof (largest_rowid_sequence table ids db). lia.
  - intros x Hx. apply (largest_rowid_bound table _ db) in Hx. lia.
Qed.

Lemma existsb_eqb_not_in {A} (g : A -> string) name l :
  existsb (fun x => String.eqb (g x) name) l = false -> ~ In name (map g l).
Proof.
  intros H Hin. apply in_map_iff in Hin. destruct Hin as (x & Hx & Hin).
  assert (existsb (fun x => String.eqb (g x) name) l = true); [|congruence].
  apply existsb_exists. exists x. split; [exact Hin|]. apply String.eqb_eq. exact Hx.
Qed.

Lemma add_quantity_key u r q c : cart_key (add_quantity u r q c) = cart_key c.
Proof. unfold add_quantity. destruct (in_cart u r c); reflexivity. Qed.

Lemma set_quantity_key u r q c : cart_key (set_quantity u r q c) = cart_key c.
Proof. unfold set_quantity. destruct (in_cart u r c); reflexivity. Qed.

Lemma update_record_id req id r : record_id (update_record req id r) = record_id r.
Proof. unfold update_record. destruct (_ =? _); reflexivity. Qed.

Lemma set_profile_id first last city id u : user_id (set_profile first last city id u) = user_id u.
Proof. unfold set_profile. destruct (_ =? _); reflexivity. Qed.

Lemma set_profile_username first last city id u :
  user_username (set_profile first last city id u) = user_username u.
Proof. unfold set_profile. destruct (_ =? _); reflexivity. Qed.

Lemma set_profile_email first last city id u :
  user_email (set_profile first last city id u) = user_email u.
Proof. unfold set_profile. destruct (_ =? _); reflexivity. Qed.

Lemma in_cart_key u r c : in_cart u r c = true <-> cart_key c = (u, r).
Proof.
  unfold in_cart, cart_key. rewrite andb_true_iff, !Z.eqb_eq. split.
  - intros [-> ->]. reflexivity.
  - intros [= -> ->]. tauto.
Qed.

Lemma not_in_cart_keys u r l :
  existsb (in_cart u r) l = false -> ~ In (u, r) (map cart_key l).
Proof.
  intros H Hin. apply in_map_iff in Hin. destruct Hin as (c & Hc & Hin).
  assert (existsb (in_cart u r) l = true); [|congruence].
  apply existsb_exists. exists c. split; [exact Hin|]. apply in_cart_key. exact Hc.
Qed.

Lemma not_in_link_keys r t l :
  existsb (fun rt => (rt_record_id rt =? r) && (rt_track_id rt =? t)) l = false ->
  ~ In (r, t) (map link_key l).
Proof.
  intros H Hin. apply in_map_iff in Hin. destruct Hin as (rt & Hrt & Hin).
  assert (existsb (fun rt => (rt_record_id rt =? r) && (rt_track_id rt =? t)) l = true);
    [|congruence].
  apply existsb_exists. exists rt. split; [exact Hin|].
  unfold link_key in Hrt. injection Hrt as -> ->. rewrite !Z.eqb_refl. reflexivity.
Qed.

Lemma keys_unique_invariant : invariant keys_unique.
Proof.
  split.
  - constructor; constructor.
  - intros db db' Hst [Hu Hun Hue He Hen Hm Ht Hr Hrt Hc].
    destruct Hst as [? ? ? ? ? ? ? ? ? ? ? H|? ? ? ? ? ? ? ? H|? ? ? ? ? ? H|? ? ? ? ? ? ? ? H
                    |? ? ? ? ? ? ? ? H|? ? ? ? ? H|? ? ? ? ? H|? ? ? ? ? ? H|? ? ? ? ? H
                    |? ? ? ? ? ? Hq H|? ? ? ? ? ? ? Hq H|? ? ? ? ? ? H];
      open_statement H; constructor; cbn; try assumption.
    + apply NoDup_map_snoc; [exact Hu|]. eapply new_rowid_fresh; eassumption.
    + apply NoDup_map_snoc; [exact Hun|]. cbn.
      apply existsb_eqb_not_in.
      match goal with E : _ || _ = false |- _ => apply orb_false_iff in E; apply E end.
    + apply NoDup_map_snoc; [exact Hue|]. cbn.
      apply existsb_eqb_not_in.
      match goal with E : _ || _ = false |- _ => apply orb_false_iff in E; apply E end.
    + rewrite map_map_same; [exact Hu | apply set_profile_id].
    + rewrite map_map_same; [exact Hun | apply set_profile_username].
    + rewrite map_map_same; [exact Hue | apply set_profile_email].
    + apply NoDup_map_snoc; [exact He|]. eapply new_rowid_fresh; eassumption.
    + apply NoDup_map_snoc; [exact Hen|]. cbn. apply existsb_eqb_not_in. assumption.
    + apply NoDup_map_snoc; [exact Hm|]. eapply new_rowid_fresh; eassumption.
    + apply NoDup_map_snoc; [exact Ht|]. eapply new_rowid_fresh; eassumption.
    + apply NoDup_map_snoc; [exact Hr|]. eapply new_rowid_fresh; eassumption.
    + apply NoDup_map_snoc; [exact Hrt|]. apply not_in_link_keys. assumption.
    + rewrite map_map_same; [exact Hr | apply update_record_id].
    + apply NoDup_map_filter. exact Hr.
    + apply NoDup_map_filter. exact Hrt.
    + apply NoDup_map_filter. exact Hc.
    + rewrite map_map_same; [exact Hc | apply add_quantity_key].
    + apply NoDup_map_snoc; [exact Hc|]. apply not_in_cart_keys. assumption.
    + rewrite map_map_same; [exact Hc | apply set_quantity_key].
    + apply NoDup_map_filter. exact Hc.
Qed.
Lemma existsb_app_true {A} (p : A -> bool) l l' :
  existsb p l = true -> existsb p (l ++ l') = true.
Proof. intros H. rewrite existsb_app, H. reflexivity. Qed.

Lemma existsb_map_same {A} (p : A -> bool) (g : A -> A) l :
  (forall x, p (g x) = p x) -> existsb p (map g l) = existsb p l.
Proof.
  intros H. induction l as [|x l IH]; cbn; [reflexivity|]. rewrite H, IH. reflexivity.
Qed.

Lemma existsb_filter_other {A} (key : A -> Z) id x l :
  x <> id ->
  existsb (fun r => key r =? x) (List.filter (fun r => negb (key r =? id)) l)
  = existsb (fun r => key r =? x) l.
Proof.
  intros Hx. induction l as [|r l IH]; cbn; [reflexivity|].
  destruct (key r =? id) eqn:E; cbn.
  - apply Z.eqb_eq in E. rewrite IH.
    destruct (key r =? x) eqn:E'; [apply Z.eqb_eq in E'; congruence | reflexivity].
  - rewrite IH. reflexivity.
Qed.

Lemma add_quantity_user u r q c : cart_user_id (add_quantity u r q c) = cart_user_id c.
Proof. unfold add_quantity. destruct (in_cart u r c); reflexivity. Qed.

Lemma add_quantity_record u r q c : cart_record_id (add_quantity u r q c) = cart_record_id c.
Proof. unfold add_quantity. destruct (in_cart u r c); reflexivity. Qed.

Lemma set_quantity_user u r q c : cart_user_id (set_quantity u r q c) = cart_user_id c.
Proof. unfold set_quantity. destruct (in_cart u r c); reflexivity. Qed.

Lemma set_quantity_record u r q c : cart_record_id (set_quantity u r q c) = cart_record_id c.
Proof. unfold set_quantity. destruct (in_cart u r c); reflexivity. Qed.

Lemma references_hold_invariant : invariant references_hold.
Proof.
  split.
  - constructor; cbn; intros; contradiction.
  - intros db db' Hst [Hme Htm Hte Hlr Hlt Hcu Hcr].
    destruct Hst as [? ? ? ? ? ? ? ? ? ? ? H|? ? ? ? ? ? ? ? H|? ? ? ? ? ? H|? ? ? ? ? ? ? ? H
                    |? ? ? ? ? ? ? ? H|? ? ? ? ? H|? ? ? ? ? H|? ? ? ? ? ? H|? ? ? ? ? H
                    |? ? ? ? ? ? Hq H|? ? ? ? ? ? ? Hq H|? ? ? ? ? ? H];
      open_statement H; constructor; try assumption.
    all: cbn.
    all: try (intros; apply existsb_app_true; eauto; fail).
    all: try (intros; rewrite existsb_map_same;
              [eauto | intros; rewrite ?set_profile_id, ?update_record_id; reflexivity]; fail).
    + intros m0 e0 Hin Hm. apply in_app_or in Hin. destruct Hin as [Hin|[<-|[]]]; [eauto|].
      cbn in Hm. subst e. assumption.
    + intros t0 m0 Hin Hm. apply in_app_or in Hin. destruct Hin as [Hin|[<-|[]]]; [eauto|].
      cbn in Hm. subst m.
      match goal with E : _ && _ = true |- _ => apply andb_true_iff in E; apply E end.
    + intros t0 e0 Hin He. apply in_app_or in Hin. destruct Hin as [Hin|[<-|[]]]; [eauto|].
      cbn in He. subst e.
      match goal with E : _ && _ = true |- _ => apply andb_true_iff in E; apply E end.
    + intros rt Hin. apply in_app_or in Hin. destruct Hin as [Hin|[<-|[]]]; [eauto|].
      match goal with E : _ || _ = true |- _ => cbn in E; apply andb_true_iff in E; apply E end.
    + intros rt Hin. apply in_app_or in Hin. destruct Hin as [Hin|[<-|[]]]; [eauto|].
      match goal with E : _ || _ = true |- _ => cbn in E; apply andb_true_iff in E; apply E end.
    + intros rt Hin. apply filter_In in Hin. destruct Hin as [Hin Hne].
      apply negb_true_iff, Z.eqb_neq in Hne.
      rewrite (existsb_filter_other record_id); [eauto | exact Hne].
    + intros rt Hin. apply filter_In in Hin. destruct Hin as [Hin _]. eauto.
    + intros c Hin. apply filter_In in Hin. destruct Hin as [Hin _]. eauto.
    + intros c Hin. apply filter_In in Hin. destruct Hin as [Hin Hne].
      apply negb_true_iff, Z.eqb_neq in Hne.
      rewrite (existsb_filter_other record_id); [eauto | exact Hne].
    + intros c Hin. apply in_map_iff in Hin. destruct Hin as (c0 & <- & Hin).
      rewrite add_quantity_user. eauto.
    + intros c Hin. apply in_map_iff in Hin. destruct Hin as (c0 & <- & Hin).
      rewrite add_quantity_record. eauto.
    + intros c Hin. apply in_app_or in Hin. destruct Hin as [Hin|[<-|[]]]; [eauto|].
      match goal with E : _ || _ = true |- _ => cbn in E; apply andb_true_iff in E; apply E end.
    + intros c Hin. apply in_app_or in Hin. destruct Hin as [Hin|[<-|[]]]; [eauto|].
      match goal with E : _ || _ = true |- _ => cbn in E; apply andb_true_iff in E; apply E end.
    + intros c Hin. apply in_map_iff in Hin. destruct Hin as (c0 & <- & Hin).
      rewrite set_quantity_user. eauto.
    + intros c Hin. apply in_map_iff in Hin. destruct Hin as (c0 & <- & Hin).
      rewrite set_quantity_record. eauto.
    + intros c Hin. apply filter_In in Hin. destruct Hin as [Hin _]. eauto.
    + intros c Hin. apply filter_In in Hin. destruct Hin as [Hin _]. eauto.
Qed.
Lemma numbered_insert table ids db db' id :
  new_rowid table ids db = Some id ->
  sequence table db' = id ->
  numbered table ids db ->
  numbered table (ids ++ [id]) db'.
Proof.
  intros Hnew Hseq [H0 Hids]. apply new_rowid_above in Hnew. destruct Hnew as [Hs Hlt].
  fold (sequence table db) in Hs. split; [lia|].
  intros x Hx. apply in_app_or in Hx. destruct Hx as [Hx|[<-|[]]].
  - specialize (Hids x Hx). specialize (Hlt x Hx). lia.
  - lia.
Qed.

Lemma numbered_same table ids ids' db db' :
  sequence table db' = sequence table db ->
  (forall id, In id ids' -> In id ids) ->
  numbered table ids db -> numbered table ids' db'.
Proof.
  intros Hseq Hsub [H0 Hids]. split; [lia|]. intros id Hid. rewrite Hseq. auto.
Qed.

Lemma in_map_filter {A B} (f : A -> B) p l x : In x (map f (List.filter p l)) -> In x (map f l).
Proof.
  intros H. apply in_map_iff in H. destruct H as (y & <- & H). apply filter_In in H.
  apply in_map. tauto.
Qed.

Ltac sequence_kept :=
  unfold sequence; cbn;
  first [ reflexivity
        | rewrite lookup_insert_ne by discriminate; reflexivity ].

Ltac sequence_set := unfold sequence; cbn; rewrite lookup_insert_eq; reflexivity.

Lemma rowids_counted_invariant : invariant rowids_counted.
Proof.
  split.
  - constructor; (split; [unfold sequence; cbn; rewrite lookup_empty; cbn; lia
                         | intros id []]).
  - intros db db' Hst [Hu He Hm Ht Hr].
    destruct Hst as [? ? ? ? ? ? ? ? ? ? ? H|? ? ? ? ? ? ? ? H|? ? ? ? ? ? H|? ? ? ? ? ? ? ? H
                    |? ? ? ? ? ? ? ? H|? ? ? ? ? H|? ? ? ? ? H|? ? ? ? ? ? H|? ? ? ? ? H
                    |? ? ? ? ? ? Hq H|? ? ? ? ? ? ? Hq H|? ? ? ? ? ? H];
      open_statement H; constructor; cbn [users ensembles musicians tracks records
        with_users with_ensembles with_musicians with_tracks with_records
        with_record_tracks with_cart_items];
      try (eapply numbered_same; [sequence_kept | intros ? Hin; exact Hin | eassumption]; fail);
      try (rewrite map_app; eapply numbered_insert; [eassumption | sequence_set | eassumption]; fail).
    + eapply numbered_same; [sequence_kept | | exact Hu].
      intros x Hin. rewrite map_map_same in Hin; [exact Hin | apply set_profile_id].
    + eapply numbered_same; [sequence_kept | | exact Hr].
      intros x Hin. rewrite map_map_same in Hin; [exact Hin | apply update_record_id].
    + eapply numbered_same; [sequence_kept | apply in_map_filter | exact Hr].
Qed.

Lemma sqlite_add_positive c q z :
  (forall q0, c = IntegerCell q0 -> 1 <= q0 <= max_int64) ->
  1 <= z ->
  sqlite_add c z = IntegerCell q -> 1 <= q <= max_int64.
Proof.
  intros Hc Hz. unfold sqlite_add. destruct c as [q0|]; [|discriminate].
  destruct (is_int64 (q0 + z)) eqn:E; [|discriminate].
  intros [= <-]. apply is_int64_spec in E. specialize (Hc q0 eq_refl). lia.
Qed.

Lemma quantities_positive_invariant : invariant quantities_positive.
Proof.
  split.
  - intros c q [].
  - intros db db' Hst HP.
    destruct Hst as [? ? ? ? ? ? ? ? ? ? ? H|? ? ? ? ? ? ? ? H|? ? ? ? ? ? H|? ? ? ? ? ? ? ? H
                    |? ? ? ? ? ? ? ? H|? ? ? ? ? H|? ? ? ? ? H|? ? ? ? ? ? H|? ? ? ? ? H
                    |? ? ? ? ? ? Hq H|? ? ? ? ? ? ? Hq H|? ? ? ? ? ? H];
      open_statement H; try exact HP; intros c q0 Hin Hc; cbn in Hin.
    + apply filter_In in Hin. destruct Hin as [Hin _]. eauto.
    + apply in_map_iff in Hin. destruct Hin as (c0 & <- & Hin).
      unfold add_quantity in Hc. destruct (in_cart u r c0); [|eauto].
      cbn in Hc. eapply sqlite_add_positive; [|apply Hq|exact Hc]. intros; eauto.
    + apply in_app_or in Hin. destruct Hin as [Hin|[<-|[]]]; [eauto|].
      cbn in Hc. injection Hc as <-. exact Hq.
    + apply in_map_iff in Hin. destruct Hin as (c0 & <- & Hin).
      unfold set_quantity in Hc. destruct (in_cart u r c0); [|eauto].
      cbn in Hc. injection Hc as <-. exact Hq.
    + apply filter_In in Hin. destruct Hin as [Hin _]. eauto.
Qed.

Lemma nothing_sold_invariant : invariant nothing_sold.
Proof.
  split.
  - intros r [].
  - intros db db' Hst HP.
    destruct Hst as [? ? ? ? ? ? ? ? ? ? ? H|? ? ? ? ? ? ? ? H|? ? ? ? ? ? H|? ? ? ? ? ? ? ? H
                    |? ? ? ? ? ? ? ? H|? ? ? ? ? H|? ? ? ? ? H|? ? ? ? ? ? H|? ? ? ? ? H
                    |? ? ? ? ? ? Hq H|? ? ? ? ? ? ? Hq H|? ? ? ? ? ? H];
      open_statement H; try exact HP; intros r0 Hin; cbn in Hin.
    + apply in_app_or in Hin. destruct Hin as [Hin|[<-|[]]]; [eauto|]. cbn. tauto.
    + apply in_map_iff in Hin. destruct Hin as (r1 & <- & Hin).
      unfold update_record. destruct (_ =? _); cbn; eauto.
    + apply filter_In in Hin. destruct Hin as [Hin _]. eauto.
Qed.

Lemma columns_filled_invariant : invariant columns_filled.
Proof.
  split.
  - split; intros ? [].
  - intros db db' Hst [He Hu].
    destruct Hst as [? ? ? ? ? ? ? ? ? ? ? H|? ? ? ? ? ? ? ? H|? ? ? ? ? ? H|? ? ? ? ? ? ? ? H
                    |? ? ? ? ? ? ? ? H|? ? ? ? ? H|? ? ? ? ? H|? ? ? ? ? ? H|? ? ? ? ? H
                    |? ? ? ? ? ? Hq H|? ? ? ? ? ? ? Hq H|? ? ? ? ? ? H];
      open_statement H; try (split; assumption); split; try assumption; cbn.
    + intros u Hin. apply in_app_or in Hin. destruct Hin as [Hin|[<-|[]]]; [eauto|].
      cbn. split; [discriminate|]. apply negb_false_iff. assumption.
    + intros u Hin. apply in_map_iff in Hin. destruct Hin as (u0 & <- & Hin).
      unfold set_profile. destruct (_ =? _); cbn; [|eauto].
      split; [discriminate | apply Hu; exact Hin].
    + intros e Hin. apply in_app_or in Hin. destruct Hin as [Hin|[<-|[]]]; [eauto|].
      cbn. discriminate.
Qed.

Lemma record_exists_update req id x l :
  existsb (fun r => record_id r =? x) (map (update_record req id) l)
  = existsb (fun r => record_id r =? x) l.
Proof.
  apply existsb_map_same. intros r. rewrite update_record_id. reflexivity.
Qed.

Lemma existsb_filter_false {A} (p q : A -> bool) l :
  existsb p l = false -> existsb p (List.filter q l) = false.
Proof.
  induction l as [|x l IH]; cbn; [reflexivity|].
  intros H. apply orb_false_iff in H. destruct H as [Hx Hl].
  destruct (q x); cbn; [rewrite Hx|]; auto.
Qed.

(** A retired record id stays retired whatever statement follows. *)
Lemma retired_kept id db db' : statement db db' -> retired id db -> retired id db'.
Proof.
  intros Hst [Hgone Hseq]. unfold retired, record_exists in *.
  destruct Hst as [? ? ? ? ? ? ? ? ? ? ? H|? ? ? ? ? ? ? ? H|? ? ? ? ? ? H|? ? ? ? ? ? ? ? H
                  |? ? ? ? ? ? ? ? H|? ? ? ? ? H|? ? ? ? ? H|? ? ? ? ? ? H|? ? ? ? ? H
                  |? ? ? ? ? ? Hq H|? ? ? ? ? ? ? Hq H|? ? ? ? ? ? H];
    open_statement H;
    try (split; [exact Hgone | unfold sequence in *; cbn;
                               rewrite ?lookup_insert_ne by discriminate; exact Hseq]; fail).
  - match goal with E : new_rowid _ _ _ = Some _ |- _ =>
      apply new_rowid_above in E; destruct E as [Hs _] end.
    fold (sequence "records" db) in Hs. split.
    + cbn. rewrite existsb_app, Hgone. cbn.
      rewrite orb_false_r. apply Z.eqb_neq. lia.
    + unfold sequence. cbn. rewrite lookup_insert_eq. cbn. lia.
  - split; [|exact Hseq]. cbn. rewrite record_exists_update. exact Hgone.
  - split; [|exact Hseq]. cbn. apply existsb_filter_false. exact Hgone.
Qed.

Lemma existsb_filter_negb_false {A} (p : A -> bool) l :
  existsb p (List.filter (fun x => negb (p x)) l) = false.
Proof.
  induction l as [|x l IH]; cbn; [reflexivity|].
  destruct (p x) eqn:E; cbn; [exact IH | rewrite E; exact IH].
Qed.

Lemma session_reachable : reachable sample_hash "root" "toor" with_cart.
Proof.
  unfold reachable, with_cart, with_live_set, with_quartet, registered.
  eapply rtc_l; [apply req_Register|].
  eapply rtc_l; [apply req_AddEnsemble|].
  eapply rtc_l; [apply req_AddRecord|].
  apply rtc_once. apply req_AddToCart.
Qed.

Section ReachableStores.

Variable HashPassword : string -> Fallible string.
Variable ADMIN_USERNAME ADMIN_PASSWORD : string.

(** X1.  Whatever requests were served since the tables were created, and
    whatever faults the engine raised in between, every PRIMARY KEY and
    every UNIQUE column of the schema holds distinct values: the ids of the
    five entity tables, user names, e-mail addresses, ensemble names, the
    (record, track) pairs and the (user, record) pairs of the cart. *)
Theorem reachable_keys_unique (db : Store) :
  reachable HashPassword ADMIN_USERNAME ADMIN_PASSWORD db -> keys_unique db.
Proof.
  intros Hreach. destruct keys_unique_invariant as [Hinit Hstep].
  apply (statements_keep keys_unique Hstep empty_store db); [|exact Hinit].
  exact (requests_issue HashPassword ADMIN_USERNAME ADMIN_PASSWORD _ _ Hreach).
Qed.

(** X2.  In every store the requests lead to, every FOREIGN KEY of the
    schema is satisfied: a musician's ensemble, a track's owner, both ends of
    a record-track link and both ends of a cart row exist. *)
Theorem reachable_references_hold (db : Store) :
  reachable HashPassword ADMIN_USERNAME ADMIN_PASSWORD db -> references_hold db.
Proof.
  intros Hreach. destruct references_hold_invariant as [Hinit Hstep].
  apply (statements_keep references_hold Hstep empty_store db); [|exact Hinit].
  exact (requests_issue HashPassword ADMIN_USERNAME ADMIN_PASSWORD _ _ Hreach).
Qed.

(** X3.  In every store the requests lead to, a cart row whose quantity is
    an integer holds at least 1: no request stores a zero or negative
    quantity.  (A sum that left the 64-bit range is stored as a REAL.) *)
Theorem reachable_quantities_positive (db : Store) (c : CartItemRow) (q : Z) :
  reachable HashPassword ADMIN_USERNAME ADMIN_PASSWORD db ->
  In c (cart_items db) -> cart_quantity c = IntegerCell q -> 1 <= q <= max_int64.
Proof.
  intros Hreach. destruct quantities_positive_invariant as [Hinit Hstep].
  apply (statements_keep quantities_positive Hstep empty_store db); [|exact Hinit].
  exact (requests_issue HashPassword ADMIN_USERNAME ADMIN_PASSWORD _ _ Hreach).
Qed.

(** X4.  No handler ever writes a sales counter: in every store the
    requests lead to, [sold_last_year] and [sold_current_year] of every
    record are 0, so the ORDER BY of the best-seller report compares equal
    keys only. *)
Theorem reachable_nothing_sold (db : Store) (r : RecordRow) :
  reachable HashPassword ADMIN_USERNAME ADMIN_PASSWORD db ->
  In r (records db) -> record_sold_last_year r = 0 /\ record_sold_current_year r = 0.
Proof.
  intros Hreach. destruct nothing_sold_invariant as [Hinit Hstep].
  apply (statements_keep nothing_sold Hstep empty_store db); [|exact Hinit].
  exact (requests_issue HashPassword ADMIN_USERNAME ADMIN_PASSWORD _ _ Hreach).
Qed.

Lemma reachable_rowids_counted (db : Store) :
  reachable HashPassword ADMIN_USERNAME ADMIN_PASSWORD db -> rowids_counted db.
Proof.
  intros Hreach. destruct rowids_counted_invariant as [Hinit Hstep].
  apply (statements_keep rowids_counted Hstep empty_store db); [|exact Hinit].
  exact (requests_issue HashPassword ADMIN_USERNAME ADMIN_PASSWORD _ _ Hreach).
Qed.

Lemma reachable_columns_filled (db : Store) :
  reachable HashPassword ADMIN_USERNAME ADMIN_PASSWORD db -> columns_filled db.
Proof.
  intros Hreach. destruct columns_filled_invariant as [Hinit Hstep].
  apply (statements_keep columns_filled Hstep empty_store db); [|exact Hinit].
  exact (requests_issue HashPassword ADMIN_USERNAME ADMIN_PASSWORD _ _ Hreach).
Qed.

(** X5.  The id of a deleted record is never given to another record: once
    [DeleteRecordHandler] has answered that the record was deleted, no
    sequence of later requests makes a record with that id exist again, so a
    cart row or link that was removed with it cannot come to point at a
    different record. *)
Theorem deleted_record_id_never_reused (io : Faults) (id : Z) (db db' : Store) (msg : string) :
  reachable HashPassword ADMIN_USERNAME ADMIN_PASSWORD db ->
  response (DeleteRecordHandler io id db) = respondWithJSON StatusOK msg ->
  rtc (request HashPassword ADMIN_USERNAME ADMIN_PASSWORD)
      (store (DeleteRecordHandler io id db)) db' ->
  record_exists id db' = false.
Proof.
  intros Hreach Hresp Hlater.
  apply reachable_rowids_counted in Hreach. destruct Hreach as [_ _ _ _ [_ Hids]].
  assert (Hretired : retired id (store (DeleteRecordHandler io id db))).
  { revert Hresp. unfold DeleteRecordHandler, DeleteRecord.
    destruct (_ || _); [discriminate|].
    destruct (faulty _); [discriminate|].
    destruct (record_exists id db) eqn:Hex; cbn [response store]; [|discriminate].
    destruct (_ =? 0); [discriminate|]. intros _. cbn [response store]. split.
    - unfold record_exists. cbn. apply existsb_filter_negb_false.
    - apply existsb_exists in Hex. destruct Hex as (r & Hin & Hr). apply Z.eqb_eq in Hr.
      subst id. apply Hids. apply in_map. exact Hin. }
  apply requests_issue in Hlater.
  exact (proj1 (statements_keep (retired id) (retired_kept id) _ _ Hlater Hretired)).
Qed.

End ReachableStores.

Lemma reachable_keys_unique_witness : keys_unique with_cart.
Proof.
  apply (reachable_keys_unique sample_hash "root" "toor").
  exact session_reachable.
Defined.

Lemma reachable_references_hold_witness : references_hold with_cart.
Proof.
  apply (reachable_references_hold sample_hash "root" "toor").
  exact session_reachable.
Defined.

Lemma reachable_quantities_positive_witness :
  In (mkCartItemRow 1 1 (IntegerCell 2)) (cart_items with_cart) /\ 1 <= 2 <= max_int64.
Proof.
  assert (Hin : In (mkCartItemRow 1 1 (IntegerCell 2)) (cart_items with_cart))
    by (left; reflexivity).
  split; [exact Hin|].
  apply (reachable_quantities_positive sample_hash "root" "toor" with_cart
           (mkCartItemRow 1 1 (IntegerCell 2)) 2); [|exact Hin|reflexivity].
  exact session_reachable.
Defined.

Lemma reachable_nothing_sold_witness :
  records with_cart = [sample_record 1 "Live Set" 3]
  /\ record_sold_last_year (sample_record 1 "Live Set" 3) = 0
  /\ record_sold_current_year (sample_record 1 "Live Set" 3) = 0.
Proof.
  assert (Hrecords : records with_cart = [sample_record 1 "Live Set" 3]) by reflexivity.
  split; [exact Hrecords|].
  apply (reachable_nothing_sold sample_hash "root" "toor" with_cart).
  - exact session_reachable.
  - rewrite Hrecords. left. reflexivity.
Defined.

(** The record of the session is deleted, then another record is added: it
    is record 2, and record 1 stays away. *)
Lemma deleted_record_id_never_reused_witness :
  response (DeleteRecordHandler healthy 1 with_cart)
  = respondWithJSON StatusOK "Record deleted successfully"
  /\ map record_id
       (records (committed (AddRecordHandler healthy live_set
                   (store (DeleteRecordHandler healthy 1 with_cart))))) = [2]
  /\ record_exists 1
       (committed (AddRecordHandler healthy live_set
                     (store (DeleteRecordHandler healthy 1 with_cart)))) = false.
Proof.
  split; [reflexivity|]. split; [reflexivity|].
  apply (deleted_record_id_never_reused sample_hash "root" "toor" healthy 1 with_cart _
           "Record deleted successfully").
  - exact session_reachable.
  - reflexivity.
  - apply rtc_once. apply req_AddRecord.
Defined.
Lemma id_rows_seen ids :
  forall st,
    (forall k, idSet st !! k <> None <-> In k (idsSeen st)) ->
    (forall k, idSet (foldl id_row st ids) !! k <> None <-> In k (idsSeen (foldl id_row st ids)))
    /\ (forall x, In x (idsSeen (foldl id_row st ids)) <-> In x (idsSeen st) \/ In x ids).
Proof.
  induction ids as [|id ids IH]; intros st Hst; cbn [foldl].
  - split; [exact Hst|]. intros x. cbn. tauto.
  - assert (Hnext : forall k, idSet (id_row st id) !! k <> None <-> In k (idsSeen (id_row st id))).
    { intros k. unfold id_row. destruct (idSet st !! id) eqn:E; [apply Hst|].
      cbn [idSet idsSeen]. rewrite in_app_iff. destruct (decide (id = k)) as [->|Hne].
      - rewrite lookup_insert_eq. cbn. split; [intros _; right; left; reflexivity|discriminate].
      - rewrite lookup_insert_ne by exact Hne. rewrite Hst. cbn. split; [tauto|].
        intros [H|[H|[]]]; [exact H | contradiction]. }
    destruct (IH _ Hnext) as [Hset Hin]. split; [exact Hset|].
    intros x. rewrite Hin. unfold id_row. destruct (idSet st !! id) eqn:E.
    + cbn. split; [tauto|]. intros [H|[<-|H]]; [tauto| |tauto].
      left. apply Hst. rewrite E. discriminate.
    + cbn [idsSeen]. rewrite in_app_iff. cbn. tauto.
Qed.

Lemma first_occurrences_In ids x : In x (first_occurrences ids) <-> In x ids.
Proof.
  unfold first_occurrences, id_rows.
  destruct (id_rows_seen ids (mkIDRows [] ∅)) as [_ H].
  - intros k. cbn. rewrite lookup_empty. split; [congruence | intros []].
  - rewrite H. cbn. tauto.
Qed.

Lemma filter_same {A} (p q : A -> bool) l :
  (forall x, In x l -> p x = q x) -> List.filter p l = List.filter q l.
Proof.
  induction l as [|x l IH]; cbn; intros H; [reflexivity|].
  rewrite (H x) by (left; reflexivity). rewrite IH; [reflexivity|].
  intros y Hy. apply H. right. exact Hy.
Qed.

Lemma bool_same (a b : bool) : (a = true <-> b = true) -> a = b.
Proof. destruct a, b; intuition congruence. Qed.

Lemma filter_all_false {A} (p : A -> bool) l :
  (forall x, In x l -> p x = false) -> List.filter p l = [].
Proof.
  induction l as [|x l IH]; cbn; intros H; [reflexivity|].
  rewrite (H x) by (left; reflexivity). apply IH. intros y Hy. apply H. right. exact Hy.
Qed.

Lemma raw_report_placeholders (args : list Z) :
  bind (raw_placeholders "reportTrackIDs") args = SqlErr ErrSyntax
  /\ bind (raw_placeholders "bestsellerTrackIDs") args = SqlErr ErrSyntax.
Proof. split; reflexivity. Qed.

Lemma len_positive {A} (l : list A) : l <> [] -> (0 <? len l) = true.
Proof.
  intros H. destruct l; [congruence|]. unfold len. cbn [length]. apply Z.ltb_lt. lia.
Qed.

Section EnsembleReport.

Variable select_distinct : list Z -> list Z.
Hypothesis select_distinct_In : forall l x, In x (select_distinct l) <-> In x l.

Lemma reported_records e db :
  List.filter
    (fun r => mem (record_id r)
       (idsSeen (id_rows (select_distinct
          (map rt_record_id
             (List.filter (fun rt => mem (rt_track_id rt) (ensemble_track_ids e db))
                (record_tracks db)))))))
    (records db)
  = records_of_ensemble e db.
Proof.
  unfold records_of_ensemble. apply filter_same. intros r _. apply bool_same.
  rewrite mem_In. fold (first_occurrences (select_distinct
          (map rt_record_id
             (List.filter (fun rt => mem (rt_track_id rt) (ensemble_track_ids e db))
                (record_tracks db))))).
  rewrite first_occurrences_In, select_distinct_In, in_map_iff.
  unfold carries_track_of. rewrite existsb_exists. split.
  - intros (rt & Hid & Hin). apply filter_In in Hin. destruct Hin as [Hin Hmem].
    exists rt. split; [exact Hin|]. rewrite Hid, Z.eqb_refl, Hmem. reflexivity.
  - intros (rt & Hin & H). apply andb_true_iff in H. destruct H as [Hid Hmem].
    apply Z.eqb_eq in Hid. exists rt. split; [exact Hid|]. apply filter_In. tauto.
Qed.

(** X6.  On a healthy engine the report of the records of an ensemble never
    lists a record, whatever order the engine yields the distinct record ids
    in: for an ensemble that exists, the answer is the empty list when no
    existing record carries a track of the ensemble, and otherwise the
    server error of the tracks query, whose text the engine rejects; an
    unknown ensemble is answered 404 and an id that is no rowid 400. *)
Theorem ensemble_report_lists_no_record (e : Z) (db : Store) :
  let r := GetRecordsByEnsembleHandler select_distinct healthy e db in
  (rowid e -> ensemble_exists e db = true -> records_of_ensemble e db = [] ->
   response r = respondWithJSON StatusOK [])
  /\ (rowid e -> ensemble_exists e db = true -> records_of_ensemble e db <> [] ->
      response r = respondWithError StatusInternalServerError
                     "Database error fetching tracks for report"
      /\ logged r = [Printf "Error querying tracks for ensemble report: %v"
                            [ArgError ErrSyntax]])
  /\ (rowid e -> ensemble_exists e db = false ->
      response r = respondWithError StatusNotFound "Ensemble not found")
  /\ (~ rowid e ->
      response r = respondWithError StatusBadRequest "Invalid ensemble ID in URL").
Proof.
  cbv zeta. unfold GetRecordsByEnsembleHandler.
  destruct (negb (is_int64 e) || (e <=? 0)) eqn:Hvalid.
  { split_and!; try reflexivity; intros He; exfalso.
    all: apply orb_true_iff in Hvalid; destruct Hvalid as [H|H];
      [rewrite (rowid_int64 e He) in H; discriminate
      |rewrite (rowid_positive e He) in H; discriminate]. }
  assert (Hrow : rowid e).
  { apply orb_false_iff in Hvalid. destruct Hvalid as [H1 H2].
    apply negb_false_iff, is_int64_spec in H1. apply Z.leb_gt in H2. unfold rowid. lia. }
  unfold QueryEnsembleExists. rewrite healthy_call. cbn [faulty].
  destruct (ensemble_exists e db) eqn:Hex.
  2:{ split_and!; try reflexivity; try discriminate. intros H. contradiction. }
  unfold QueryEnsembleTrackIDs. rewrite healthy_call. cbn [deliver].
  fold (ensemble_track_ids e db).
  destruct (len (ensemble_track_ids e db) =? 0) eqn:Hlen.
  { apply len_zero in Hlen.
    assert (Hnone : records_of_ensemble e db = []).
    { apply filter_all_false. intros r _. unfold carries_track_of. rewrite Hlen.
      apply not_true_is_false. intros H. apply existsb_exists in H.
      destruct H as (rt & _ & H). apply andb_true_iff in H. destruct H as [_ H]. discriminate. }
    split_and!; try reflexivity; try discriminate; intros; contradiction. }
  assert (Htracks : ensemble_track_ids e db <> []).
  { intros H. rewrite H in Hlen. discriminate. }
  destruct (bind_placeholders _ Htracks) as (in_list & Hp & Hb). rewrite Hp.
  unfold QueryRecordIDsOfTracks. rewrite Hb, healthy_call. cbn [deliver].
  set (ids := idsSeen (id_rows (select_distinct
                (map rt_record_id
                   (List.filter (fun rt => mem (rt_track_id rt) (ensemble_track_ids e db))
                      (record_tracks db)))))).
  pose proof (reported_records e db) as Hrecords. fold ids in Hrecords.
  destruct (len ids =? 0) eqn:Hids.
  { apply len_zero in Hids. rewrite Hids in Hrecords. cbn [mem existsb] in Hrecords.
    assert (Hnone : records_of_ensemble e db = []).
    { rewrite <- Hrecords. apply filter_all_false. reflexivity. }
    split_and!; try reflexivity; try discriminate; intros; contradiction. }
  assert (Hsome : ids <> []).
  { intros H. rewrite H in Hids. discriminate. }
  destruct (bind_placeholders _ Hsome) as (in_list' & Hp' & Hb'). rewrite Hp'.
  unfold QueryRecordsIn. rewrite Hb', healthy_call. cbn [deliver]. rewrite Hrecords.
  destruct (records_of_ensemble e db) as [|rec recs] eqn:Hof.
  { split_and!; try reflexivity; try discriminate; intros; contradiction. }
  cbn [map len length]. replace (Z.of_nat (S (length (map scan_record recs))) =? 0) with false
    by (symmetry; apply Z.eqb_neq; lia).
  set (fetched := Record_ID (scan_record rec) :: map Record_ID (map scan_record recs)).
  assert (Hfetched : fetched <> []) by discriminate.
  destruct (bind_placeholders _ Hfetched) as (in_list'' & Hp'' & Hb'').
  change (Z.of_nat (S (length (map Record_ID (map scan_record recs))))) with (len fetched).
  rewrite Hp''. unfold QueryRecordTracksIn. rewrite Hb'', healthy_call. cbn [deliver].
  set (linkRows := List.filter (fun rt => mem (rt_record_id rt) fetched) (record_tracks db)).
  assert (Hlinked : linkRows <> []).
  { assert (Hrec : In rec (records_of_ensemble e db)) by (rewrite Hof; left; reflexivity).
    apply filter_In in Hrec. destruct Hrec as [_ Hrec]. apply existsb_exists in Hrec.
    destruct Hrec as (rt & Hin & Hrt). apply andb_true_iff in Hrt. destruct Hrt as [Hid _].
    apply Z.eqb_eq in Hid.
    assert (Hrow' : In rt linkRows).
    { apply filter_In. split; [exact Hin|]. apply mem_In. left. cbn. symmetry. exact Hid. }
    intros H. rewrite H in Hrow'. destruct Hrow'. }
  unfold report_tracks.
  rewrite (len_positive _ (trackIDs_link_rows _ Hlinked)).
  unfold QueryTracksIn. rewrite (proj1 (raw_report_placeholders _)).
  split_and!; try reflexivity; try discriminate; intros; try contradiction.
  split; reflexivity.
Qed.

End EnsembleReport.
Lemma attach_all_unlinked place tracksMap records :
  attach_all place ∅ tracksMap records = (no_tracks records, []).
Proof.
  induction records as [|rec records IH]; cbn [attach_all]; [reflexivity|].
  unfold attach_tracks. rewrite lookup_empty, IH. reflexivity.
Qed.

Section BestSellers.

Variable order_by_sold_current_year_desc : list RecordRow -> list RecordRow.

(** X7.  The best-seller report on a healthy engine: when no fetched record
    has a row in [record_tracks] the answer is the rows in the order the
    engine sorted them, each with an empty track list; as soon as one
    fetched record has a linked track the answer is the server error of the
    tracks query and no record is returned. *)
Theorem bestsellers_listed_or_lost (db : Store) :
  let rows := order_by_sold_current_year_desc (records db) in
  let r := GetBestSellersHandler order_by_sold_current_year_desc healthy db in
  ((forall rec, In rec rows -> no_linked_tracks (record_id rec) db) ->
   response r = respondWithJSON StatusOK (no_tracks (map scan_record rows))
   /\ logged r = [])
  /\ ((exists rec rt, In rec rows /\ In rt (record_tracks db)
                      /\ rt_record_id rt = record_id rec) ->
      response r = respondWithError StatusInternalServerError
                     "Database error fetching tracks for bestsellers"
      /\ logged r = [Printf "Error querying tracks for bestsellers: %v"
                            [ArgError ErrSyntax]]).
Proof.
  cbv zeta. unfold GetBestSellersHandler, QueryBestSellers.
  rewrite healthy_call. cbn [deliver].
  set (rows := order_by_sold_current_year_desc (records db)).
  destruct (len (map scan_record rows) =? 0) eqn:Hlen.
  { apply len_zero in Hlen. apply map_eq_nil in Hlen. rewrite Hlen. cbn. split.
    - intros _. split; reflexivity.
    - intros (rec & rt & [] & _). }
  assert (Hrecords : map Record_ID (map scan_record rows) <> []).
  { intros H. apply map_eq_nil in H. rewrite H in Hlen. discriminate. }
  destruct (bind_placeholders _ Hrecords) as (in_list & Hp & Hb). rewrite Hp.
  unfold QueryRecordTracksIn. rewrite Hb, healthy_call. cbn [deliver].
  set (linkRows := List.filter
         (fun rt => mem (rt_record_id rt) (map Record_ID (map scan_record rows)))
         (record_tracks db)).
  assert (Hlink : forall rt, In rt linkRows <->
            In rt (record_tracks db) /\ exists rec, In rec rows /\ rt_record_id rt = record_id rec).
  { intros rt. unfold linkRows. rewrite filter_In, mem_In, map_map, in_map_iff.
    cbn [scan_record Record_ID]. split; intros [Hin (rec & H1 & H2)]; split; trivial;
      exists rec; split; congruence || assumption. }
  unfold report_tracks. split.
  - intros Hfree.
    assert (Hnone : linkRows = []).
    { destruct linkRows as [|rt rest] eqn:E; [reflexivity|]. exfalso.
      destruct (proj1 (Hlink rt) (or_introl eq_refl)) as [Hin (rec & Hrec & Hid)].
      exact (Hfree rec Hrec rt Hin Hid). }
    rewrite Hnone. change (link_rows []) with (mkLinks ∅ [] ∅).
    cbn [trackIDs recordTrackLinks]. change (0 <? len []) with false. cbv beta iota.
    rewrite attach_all_unlinked. split; reflexivity.
  - intros (rec & rt & Hrec & Hin & Hid).
    assert (Hsome : linkRows <> []).
    { intros H. assert (Hrt : In rt linkRows) by (apply Hlink; eauto).
      rewrite H in Hrt. destruct Hrt. }
    rewrite (len_positive _ (trackIDs_link_rows _ Hsome)).
    unfold QueryTracksIn. rewrite (proj2 (raw_report_placeholders _)). split; reflexivity.
Qed.

End BestSellers.

Lemma other_rows_mapped u r (g : CartItemRow -> CartItemRow) l :
  (forall c, in_cart u r (g c) = in_cart u r c) ->
  (forall c, in_cart u r c = false -> g c = c) ->
  List.filter (fun c => negb (in_cart u r c)) (map g l)
  = List.filter (fun c => negb (in_cart u r c)) l.
Proof.
  intros Hkey Hother. induction l as [|c l IH]; cbn; [reflexivity|].
  rewrite Hkey. destruct (in_cart u r c) eqn:E; cbn; [exact IH|].
  rewrite (Hother c E), IH. reflexivity.
Qed.

Lemma add_quantity_in_cart u r q c : in_cart u r (add_quantity u r q c) = in_cart u r c.
Proof. unfold add_quantity. destruct (in_cart u r c) eqn:E; [|exact E]. exact E. Qed.

Lemma set_quantity_in_cart u r q c : in_cart u r (set_quantity u r q c) = in_cart u r c.
Proof. unfold set_quantity. destruct (in_cart u r c) eqn:E; [|exact E]. exact E. Qed.

Lemma filter_twice {A} (p : A -> bool) l : List.filter p (List.filter p l) = List.filter p l.
Proof.
  induction l as [|x l IH]; cbn; [reflexivity|].
  destruct (p x) eqn:E; cbn; [rewrite E, IH|]; auto.
Qed.

Lemma same_but_cart_refl db : same_but_cart db db.
Proof. apply with_cart_items_same. Qed.

Lemma same_but_cart_with db rows : same_but_cart db (with_cart_items db rows).
Proof. destruct db; reflexivity. Qed.

Lemma Upsert_other_rows f u r q db db' :
  UpsertCartItem f u r q db = SqlOk db' ->
  same_but_cart db db' /\ other_rows u r db' = other_rows u r db.
Proof.
  unfold UpsertCartItem, other_rows. destruct (faulty f); [discriminate|].
  destruct (existsb _ _).
  - intros [= <-]. split; [apply same_but_cart_with|]. cbn [cart_items with_cart_items].
    apply other_rows_mapped; [apply add_quantity_in_cart|].
    intros c E. unfold add_quantity. rewrite E. reflexivity.
  - destruct (_ || _); [|discriminate]. intros [= <-].
    split; [apply same_but_cart_with|]. cbn [cart_items with_cart_items].
    rewrite List.filter_app. cbn. rewrite in_cart_row. cbn. apply app_nil_r.
Qed.

Lemma Update_other_rows f q u r db db' n :
  UpdateCartItem f q u r db = SqlOk (db', n) ->
  same_but_cart db db' /\ other_rows u r db' = other_rows u r db.
Proof.
  unfold UpdateCartItem, other_rows. destruct (faulty f); [discriminate|].
  intros [= <- _]. split; [apply same_but_cart_with|]. cbn [cart_items with_cart_items].
  apply other_rows_mapped; [apply set_quantity_in_cart|].
  intros c E. unfold set_quantity. rewrite E. reflexivity.
Qed.

Lemma Delete_other_rows f u r db db' n :
  DeleteCartItem f u r db = SqlOk (db', n) ->
  same_but_cart db db' /\ other_rows u r db' = other_rows u r db.
Proof.
  unfold DeleteCartItem, other_rows. destruct (faulty f); [discriminate|].
  intros [= <- _]. split; [apply same_but_cart_with|]. cbn [cart_items with_cart_items].
  apply filter_twice.
Qed.

(** X8.  Under any faults, a request to add to, update or remove from the
    cart changes at most the row of the calling user for the record named in
    the request: every other cart row stays, in its place, and no other
    table and no counter is changed. *)
Theorem cart_request_touches_one_row (io : Faults) (u r q : Z) (req : CartRequest)
    (db : Store) :
  (same_but_cart db (store (AddToCartHandler io u req db))
   /\ other_rows u (RecordID req) (store (AddToCartHandler io u req db))
      = other_rows u (RecordID req) db)
  /\ (same_but_cart db (store (UpdateCartHandler io u r q db))
      /\ other_rows u r (store (UpdateCartHandler io u r q db)) = other_rows u r db)
  /\ (same_but_cart db (store (RemoveFromCartHandler io u r db))
      /\ other_rows u r (store (RemoveFromCartHandler io u r db)) = other_rows u r db).
Proof.
  assert (Hsame : same_but_cart db db /\ forall r', other_rows u r' db = other_rows u r' db)
    by (split; [apply same_but_cart_refl | reflexivity]).
  destruct Hsame as [Hsame Hrows]. split_and!.
  - unfold AddToCartHandler. destruct (negb _); [exact Hsame|].
    destruct (_ || _); [exact Hsame|].
    destruct (QueryRecordExists _ _ _) as [[|]|e]; try exact Hsame.
    destruct (UpsertCartItem _ _ _ _ _) as [db'|e] eqn:E; [|exact Hsame].
    exact (proj1 (Upsert_other_rows _ _ _ _ _ _ E)).
  - unfold AddToCartHandler. destruct (negb _); [reflexivity|].
    destruct (_ || _); [reflexivity|].
    destruct (QueryRecordExists _ _ _) as [[|]|e]; try reflexivity.
    destruct (UpsertCartItem _ _ _ _ _) as [db'|e] eqn:E; [|reflexivity].
    exact (proj2 (Upsert_other_rows _ _ _ _ _ _ E)).
  - unfold UpdateCartHandler. destruct (_ || _); [exact Hsame|].
    destruct (negb _); [exact Hsame|]. destruct (q <? 0); [exact Hsame|].
    destruct (q =? 0).
    + destruct (DeleteCartItem _ _ _ _) as [[db' n]|e] eqn:E; [|exact Hsame].
      destruct (n =? 0); exact (proj1 (Delete_other_rows _ _ _ _ _ _ E)).
    + destruct (QueryRecordStock _ _ _) as [[stock|]|e]; try exact Hsame.
      destruct (UpdateCartItem _ _ _ _ _) as [[db' n]|e] eqn:E; [|exact Hsame].
      destruct (n =? 0); exact (proj1 (Update_other_rows _ _ _ _ _ _ _ E)).
  - unfold UpdateCartHandler. destruct (_ || _); [reflexivity|].
    destruct (negb _); [reflexivity|]. destruct (q <? 0); [reflexivity|].
    destruct (q =? 0).
    + destruct (DeleteCartItem _ _ _ _) as [[db' n]|e] eqn:E; [|reflexivity].
      destruct (n =? 0); exact (proj2 (Delete_other_rows _ _ _ _ _ _ E)).
    + destruct (QueryRecordStock _ _ _) as [[stock|]|e]; try reflexivity.
      destruct (UpdateCartItem _ _ _ _ _) as [[db' n]|e] eqn:E; [|reflexivity].
      destruct (n =? 0); exact (proj2 (Update_other_rows _ _ _ _ _ _ _ E)).
  - unfold RemoveFromCartHandler. destruct (_ || _); [exact Hsame|].
    destruct (DeleteCartItem _ _ _ _) as [[db' n]|e] eqn:E; [|exact Hsame].
    destruct (n =? 0); exact (proj1 (Delete_other_rows _ _ _ _ _ _ E)).
  - unfold RemoveFromCartHandler. destruct (_ || _); [reflexivity|].
    destruct (DeleteCartItem _ _ _ _) as [[db' n]|e] eqn:E; [|reflexivity].
    destruct (n =? 0); exact (proj2 (Delete_other_rows _ _ _ _ _ _ E)).
Qed.

Lemma untouched_cart u r db :
  existsb (in_cart u r) (cart_items db) = false ->
  (forall q, with_cart_items db (map (set_quantity u r q) (cart_items db)) = db)
  /\ with_cart_items db (List.filter (fun c => negb (in_cart u r c)) (cart_items db)) = db.
Proof.
  intros H. split.
  - intros q. rewrite set_quantity_absent by (apply existsb_false_find; exact H).
    apply with_cart_items_same.
  - rewrite filter_none by exact H. apply with_cart_items_same.
Qed.

(** X9.  Under any faults, a cart request that is answered with an error,
    whichever it is, leaves the store exactly as it was. *)
Theorem cart_error_changes_nothing (io : Faults) (u r q : Z) (req : CartRequest)
    (db : Store) (code : Z) (message : string) :
  (response (AddToCartHandler io u req db) = respondWithError code message ->
   store (AddToCartHandler io u req db) = db)
  /\ (response (UpdateCartHandler io u r q db) = respondWithError code message ->
      store (UpdateCartHandler io u r q db) = db)
  /\ (response (RemoveFromCartHandler io u r db) = respondWithError code message ->
      store (RemoveFromCartHandler io u r db) = db).
Proof.
  split_and!.
  - unfold AddToCartHandler, QueryRecordExists, UpsertCartItem.
    case_all; cbn [response store]; intros H; try reflexivity; discriminate H.
  - unfold UpdateCartHandler, QueryRecordStock, UpdateCartItem, DeleteCartItem.
    destruct (_ || _); [reflexivity|]. destruct (negb _); [reflexivity|].
    destruct (q <? 0); [reflexivity|]. destruct (q =? 0).
    + destruct (faulty _); [reflexivity|]. rewrite len_filter_zero.
      destruct (existsb _ _) eqn:E; cbn [negb response store]; [discriminate|].
      intros _. apply (untouched_cart u r db E).
    + destruct (faulty (io 0%nat)); [reflexivity|].
      destruct (find_record r db); cbn [fmap option_fmap option_map]; [|reflexivity].
      destruct (faulty _); [reflexivity|]. rewrite len_filter_zero.
      destruct (existsb _ _) eqn:E; cbn [negb response store]; [discriminate|].
      intros _. apply (untouched_cart u r db E).
  - unfold RemoveFromCartHandler, DeleteCartItem.
    destruct (_ || _); [reflexivity|]. destruct (faulty _); [reflexivity|].
    rewrite len_filter_zero.
    destruct (existsb _ _) eqn:E; cbn [negb response store]; [discriminate|].
    intros _. apply (untouched_cart u r db E).
Qed.

(** X10.  Removing from the cart on a healthy engine: a present row of the
    user for the record is deleted, the answer is OK, the other rows are
    left as they were and the cart of the user no longer scans an item for
    that record; when there is no such row the answer is 404 and the store
    is unchanged. *)
Theorem remove_from_cart (u r : Z) (db : Store) :
  rowid r ->
  (stored_quantity u r db <> None ->
   response (RemoveFromCartHandler healthy u r db)
   = respondWithJSON StatusOK "Item removed from cart"
   /\ cart_items (store (RemoveFromCartHandler healthy u r db)) = other_rows u r db
   /\ stored_quantity u r (store (RemoveFromCartHandler healthy u r db)) = None
   /\ forall item, In item (scanned_cart u (store (RemoveFromCartHandler healthy u r db))) ->
        CartItem_RecordID item <> r)
  /\ (stored_quantity u r db = None ->
      response (RemoveFromCartHandler healthy u r db)
      = respondWithError StatusNotFound "Item not found in cart"
      /\ store (RemoveFromCartHandler healthy u r db) = db).
Proof.
  intros Hr. unfold RemoveFromCartHandler, DeleteCartItem.
  rewrite (rowid_int64 r Hr), (rowid_positive r Hr), healthy_call.
  cbn [negb orb faulty]. rewrite len_filter_zero. split.
  - intros Hp. apply stored_quantity_present in Hp. destruct Hp as [row Hrow].
    rewrite (find_some_existsb _ _ _ Hrow). cbn [negb response store cart_items with_cart_items].
    split_and!; try reflexivity.
    + unfold stored_quantity, find_cart_item. cbn [cart_items with_cart_items].
      rewrite find_filter_negb. reflexivity.
    + intros item Hin. unfold scanned_cart in Hin. cbn [cart_items with_cart_items] in Hin.
      apply list_elem_of_In, list_elem_of_omap in Hin. destruct Hin as (c & Hc & Hitem).
      apply list_elem_of_In, filter_In in Hc. destruct Hc as [Hc Hu].
      apply filter_In in Hc. destruct Hc as [_ Hc].
      unfold scanned_item in Hitem. destruct (cart_quantity c); [|discriminate].
      injection Hitem as <-. cbn. intros Heq.
      unfold in_cart in Hc. rewrite Hu, Heq, Z.eqb_refl in Hc. discriminate.
  - intros Ha. apply stored_quantity_none in Ha. unfold find_cart_item in Ha.
    rewrite (find_none_existsb _ _ Ha). cbn [negb response store].
    split; [reflexivity|]. apply (untouched_cart u r db). apply find_none_existsb. exact Ha.
Qed.
Lemma ensemble_report_lists_no_record_witness :
  records_of_ensemble 1 with_live_set = [sample_record 1 "Live Set" 3]
  /\ response (GetRecordsByEnsembleHandler first_occurrences healthy 1 with_live_set)
     = respondWithError StatusInternalServerError "Database error fetching tracks for report".
Proof.
  assert (Hrecords : records_of_ensemble 1 with_live_set = [sample_record 1 "Live Set" 3])
    by reflexivity.
  split; [exact Hrecords|].
  refine (proj1 (proj1 (proj2 (ensemble_report_lists_no_record first_occurrences
                  first_occurrences_In 1 with_live_set)) _ _ _)).
  - unfold rowid, max_int64. lia.
  - reflexivity.
  - rewrite Hrecords. discriminate.
Defined.

Lemma remove_from_cart_witness :
  response (RemoveFromCartHandler healthy 1 1 with_cart)
  = respondWithJSON StatusOK "Item removed from cart"
  /\ cart_items (store (RemoveFromCartHandler healthy 1 1 with_cart)) = [].
Proof.
  assert (Hrow : rowid 1) by (unfold rowid, max_int64; lia).
  assert (Hstored : stored_quantity 1 1 with_cart = Some (IntegerCell 2)) by reflexivity.
  destruct (proj1 (remove_from_cart 1 1 with_cart Hrow)) as (Hresp & Hrows & _).
  - rewrite Hstored. discriminate.
  - split; [exact Hresp | exact Hrows].
Defined.


(** X11.  On a healthy engine, creating a record that no row of
    [record_tracks] references yet adds, after the rows that were there, one
    link row for each requested track id that exists, each once however
    often it was listed, and none for an unknown id; apart from these rows
    the store only gains the row of the record and its counter. *)
Theorem add_record_links_existing_tracks (req : AddRecordRequest) (id : Z) (db : Store) :
  AddRecord_Title req <> "" -> 0 <= AddRecord_Stock req ->
  new_rowid "records" (map record_id (records db)) db = Some id ->
  no_linked_tracks id db ->
  exists linked,
    record_tracks (committed (AddRecordHandler healthy req db))
    = record_tracks db ++ map (mkRecordTrackRow id) linked
    /\ List.NoDup linked
    /\ (forall t, In t linked <-> In t (AddRecord_TrackIDs req) /\ track_exists t db = true)
    /\ with_record_tracks (committed (AddRecordHandler healthy req db)) (record_tracks db)
       = with_records db
           (records db ++
              [mkRecordRow id (AddRecord_Title req) (AddRecord_Label req)
                 (AddRecord_WholesaleAddress req) (AddRecord_WholesalePrice req)
                 (AddRecord_RetailPrice req) (AddRecord_ReleaseDate req)
                 0 0 (AddRecord_Stock req)])
           (<["records" := id]> (sqlite_sequence db)).
Proof.
  intros Htitle Hstock Hid Hfree. unfold AddRecordHandler.
  assert (Ht : String.eqb (AddRecord_Title req) "" = false)
    by (apply String.eqb_neq, Htitle).
  assert (Hs : (AddRecord_Stock req <? 0) = false) by (apply Z.ltb_ge, Hstock).
  rewrite Ht, Hs, !healthy_call. cbn [faulty].
  unfold InsertRecord. cbn [faulty]. rewrite Hid.
  set (work := with_records db _ _).
  assert (Hwork : record_exists id work = true).
  { unfold record_exists, work. cbn [records with_records].
    apply existsb_app_last. apply Z.eqb_refl. }
  destruct (0 <? len (AddRecord_TrackIDs req)) eqn:Hlen.
  - destruct (link_tracks_healthy db id (AddRecord_TrackIDs req) 3 work eq_refl Hwork)
      as (Hstopped & _ & _).
    destruct (link_tracks_links db id (record_tracks db) (AddRecord_TrackIDs req) Hfree
                3%nat work [] eq_refl Hwork) as (linked & H1 & H2 & H3 & H4).
    { cbn. rewrite app_nil_r. reflexivity. }
    { constructor. }
    rewrite committed_deferred, Hstopped. unfold Commit. rewrite healthy_call.
    cbn [faulty committed]. exists linked. split_and!; [exact H1 | exact H2 | | exact H4].
    intros t. rewrite H3. cbn. tauto.
  - rewrite committed_deferred. unfold Commit. cbn [faulty committed].
    exists []. split_and!.
    + cbn. rewrite app_nil_r. reflexivity.
    + constructor.
    + intros t. destruct (AddRecord_TrackIDs req); [cbn; tauto | discriminate Hlen].
    + reflexivity.
Qed.

Lemma add_record_links_existing_tracks_witness :
  record_tracks (committed (AddRecordHandler healthy twice_track_1 shop))
  = record_tracks shop ++ [mkRecordTrackRow 7 1].
Proof.
  destruct (add_record_links_existing_tracks twice_track_1 7 shop)
    as (linked & Hrows & _ & _ & _).
  - discriminate.
  - cbn. lia.
  - reflexivity.
  - intros rt [<-|[]]. discriminate.
  - reflexivity.
Defined.
Lemma same_but_tracks_refl db : same_but_tracks db db.
Proof. unfold same_but_tracks. tauto. Qed.

Lemma InsertTrack_same f name duration m e db db' id :
  InsertTrack f name duration m e db = SqlOk (db', id) -> same_but_tracks db db'.
Proof.
  unfold InsertTrack. case_all; try discriminate.
  intros [= <- _]. unfold same_but_tracks. cbn. tauto.
Qed.

(** A loop over the requested tracks that ends without an error has stored
    the valid ones, in their order, with the owner columns it was given. *)
Lemma insert_tracks_done io owner ownerID m e reqs :
  forall k work,
    stopped (insert_tracks io k owner ownerID m e reqs work) = None ->
    exists new,
      tracks (pending_store (insert_tracks io k owner ownerID m e reqs work))
      = tracks work ++ new
      /\ map track_columns new = map (requested_columns m e) (List.filter valid_track reqs)
      /\ same_but_tracks work (pending_store (insert_tracks io k owner ownerID m e reqs work)).
Proof.
  induction reqs as [|q reqs IH]; intros k work; cbn [insert_tracks List.filter].
  - intros _. exists []. cbn [pending_store]. rewrite app_nil_r.
    split_and!; [reflexivity | reflexivity | apply same_but_tracks_refl].
  - unfold valid_track at 1.
    destruct (String.eqb (AddTrack_Name q) "" || (AddTrack_Duration q <=? 0)); cbn [negb].
    + cbn [stopped pending_store]. apply IH.
    + destruct (InsertTrack (io k) _ _ m e work) as [[work' id]|err] eqn:E;
        [|discriminate].
      intros Hstop. destruct (IH (S k) work' Hstop) as (new & Hn & Hcols & Hsame).
      pose proof (InsertTrack_same _ _ _ _ _ _ _ _ E) as Hsame'.
      apply InsertTrack_ok in E. destruct E as [_ Ht].
      exists (mkTrackRow id (AddTrack_Name q) (AddTrack_Duration q) m e :: new).
      rewrite Hn, Ht, <- app_assoc. split_and!.
      * reflexivity.
      * cbn [map]. rewrite Hcols. reflexivity.
      * unfold same_but_tracks in *. intuition congruence.
Qed.

Lemma AddEnsemble_created io req db code payload :
  sent (AddEnsembleHandler io req db) = respondWithJSON code payload ->
  exists work id,
    InsertEnsemble (io 1%nat) (AddEnsemble_Name req) (AddEnsemble_Type req) db
    = SqlOk (work, id)
    /\ stopped (insert_tracks io 2 "ensemble" id None (Some id) (AddEnsemble_Tracks req) work)
       = None
    /\ committed (AddEnsembleHandler io req db)
       = pending_store
           (insert_tracks io 2 "ensemble" id None (Some id) (AddEnsemble_Tracks req) work)
    /\ code = StatusCreated /\ payload = ("Ensemble added successfully", id).
Proof.
  unfold AddEnsembleHandler.
  destruct (String.eqb _ _); [discriminate|].
  destruct (faulty (io 0%nat)); [discriminate|].
  rewrite sent_deferred, committed_deferred.
  destruct (InsertEnsemble _ _ _ db) as [[work id]|e] eqn:E;
    [|destruct (is_unique_violation e); discriminate].
  cbv zeta. destruct (stopped _) eqn:Hs; [discriminate|].
  unfold Commit. destruct (faulty _); [discriminate|]. cbn [sent committed].
  intros [= <- <-]. exists work, id. split_and!; first [reflexivity | assumption].
Qed.

Lemma AddMusician_created io req db code payload :
  sent (AddMusicianHandler io req db) = respondWithJSON code payload ->
  exists work id,
    InsertMusician (io 1%nat) (AddMusician_FirstName req) (AddMusician_LastName req)
      (AddMusician_Role req) (AddMusician_EnsembleID req) db
    = SqlOk (work, id)
    /\ stopped (insert_tracks io 2 "musician" id (Some id) None (AddMusician_Tracks req) work)
       = None
    /\ committed (AddMusicianHandler io req db)
       = pending_store
           (insert_tracks io 2 "musician" id (Some id) None (AddMusician_Tracks req) work)
    /\ code = StatusCreated /\ payload = ("Musician added successfully", id).
Proof.
  unfold AddMusicianHandler.
  destruct (_ || _); [discriminate|].
  destruct (faulty (io 0%nat)); [discriminate|].
  rewrite sent_deferred, committed_deferred.
  destruct (InsertMusician _ _ _ _ _ db) as [[work id]|e] eqn:E; [|discriminate].
  cbv zeta. destruct (stopped _) eqn:Hs; [discriminate|].
  unfold Commit. destruct (faulty _); [discriminate|]. cbn [sent committed].
  intros [= <- <-]. exists work, id. split_and!; first [reflexivity | assumption].
Qed.

Lemma InsertEnsemble_row f name type db db' id :
  InsertEnsemble f name type db = SqlOk (db', id) ->
  new_rowid "ensembles" (map ensemble_id (ensembles db)) db = Some id
  /\ existsb (fun e => String.eqb (ensemble_name e) name) (ensembles db) = false
  /\ db' = with_ensembles db (ensembles db ++ [mkEnsembleRow id name (Some type)])
             (<["ensembles" := id]> (sqlite_sequence db)).
Proof.
  unfold InsertEnsemble. destruct (faulty f); [discriminate|].
  destruct (new_rowid _ _ db) as [n|]; [|discriminate].
  destruct (existsb _ _); [discriminate|]. intros [= <- <-]. tauto.
Qed.

Lemma InsertMusician_row f first last role ens db db' id :
  InsertMusician f first last role ens db = SqlOk (db', id) ->
  new_rowid "musicians" (map musician_id (musicians db)) db = Some id
  /\ reference_ok ensemble_exists ens db = true
  /\ db' = with_musicians db
             (musicians db ++ [mkMusicianRow id first last (Some role) ens])
             (<["musicians" := id]> (sqlite_sequence db)).
Proof.
  unfold InsertMusician. destruct (faulty f); [discriminate|].
  destruct (new_rowid _ _ db) as [n|]; [|discriminate].
  destruct (reference_ok _ _ _); [|discriminate]. intros [= <- <-]. tauto.
Qed.

(** X12.  Under any faults, when the creation of an ensemble or of a
    musician is answered with JSON, the code passed is 201 with the new id,
    the id was not in use, the row of the owner is appended with the
    columns of the request, and the tracks appended are exactly the
    requested tracks that have a name and a positive duration, in the order
    of the request, owned by the new owner alone. *)
Theorem created_owner_has_valid_tracks (io : Faults) (db : Store) :
  (forall req code payload,
     sent (AddEnsembleHandler io req db) = respondWithJSON code payload ->
     exists id new,
       code = StatusCreated /\ payload = ("Ensemble added successfully", id)
       /\ ensemble_exists id db = false
       /\ ensembles (committed (AddEnsembleHandler io req db))
          = ensembles db
              ++ [mkEnsembleRow id (AddEnsemble_Name req) (Some (AddEnsemble_Type req))]
       /\ tracks (committed (AddEnsembleHandler io req db)) = tracks db ++ new
       /\ map track_columns new
          = map (requested_columns None (Some id))
                (List.filter valid_track (AddEnsemble_Tracks req)))
  /\ (forall req code payload,
        sent (AddMusicianHandler io req db) = respondWithJSON code payload ->
        exists id new,
          code = StatusCreated /\ payload = ("Musician added successfully", id)
          /\ musician_exists id db = false
          /\ musicians (committed (AddMusicianHandler io req db))
             = musicians db
                 ++ [mkMusicianRow id (AddMusician_FirstName req) (AddMusician_LastName req)
                       (Some (AddMusician_Role req)) (AddMusician_EnsembleID req)]
          /\ tracks (committed (AddMusicianHandler io req db)) = tracks db ++ new
          /\ map track_columns new
             = map (requested_columns (Some id) None)
                   (List.filter valid_track (AddMusician_Tracks req))).
Proof.
  split; intros req code payload Hsent.
  - destruct (AddEnsemble_created io req db code payload Hsent)
      as (work & id & Hins & Hstop & Hdb & Hcode & Hpay).
    destruct (insert_tracks_done _ _ _ _ _ _ _ _ Hstop) as (new & Hnew & Hcols & Hsame).
    apply InsertEnsemble_row in Hins. destruct Hins as (Hid & _ & ->).
    exists id, new. rewrite Hdb. split_and!; try assumption.
    + unfold ensemble_exists. apply new_rowid_fresh in Hid.
      apply not_true_is_false. intros H. apply Hid. apply existsb_exists in H.
      destruct H as (e & Hin & He). apply Z.eqb_eq in He. subst id. apply in_map. exact Hin.
    + destruct Hsame as (_ & He & _). exact He.
  - destruct (AddMusician_created io req db code payload Hsent)
      as (work & id & Hins & Hstop & Hdb & Hcode & Hpay).
    destruct (insert_tracks_done _ _ _ _ _ _ _ _ Hstop) as (new & Hnew & Hcols & Hsame).
    apply InsertMusician_row in Hins. destruct Hins as (Hid & _ & ->).
    exists id, new. rewrite Hdb. split_and!; try assumption.
    + unfold musician_exists. apply new_rowid_fresh in Hid.
      apply not_true_is_false. intros H. apply Hid. apply existsb_exists in H.
      destruct H as (e & Hin & He). apply Z.eqb_eq in He. subst id. apply in_map. exact Hin.
    + destruct Hsame as (_ & _ & Hm & _). exact Hm.
Qed.
Lemma ensemble_rows_filled rows :
  (forall e, In e rows -> ensemble_type e <> None) ->
  ensemble_rows rows = (map listed rows, []).
Proof.
  induction rows as [|row rows IH]; intros H; cbn [ensemble_rows map]; [reflexivity|].
  rewrite IH by (intros e He; apply H; right; exact He).
  specialize (H row (or_introl eq_refl)).
  destruct (ensemble_type row) eqn:E; [|contradiction].
  assert (Hrow : listed row = mkEnsemble (ensemble_id row) (ensemble_name row) s)
    by (unfold listed; rewrite E; reflexivity).
  rewrite Hrow. reflexivity.
Qed.

Lemma new_rowid_range table ids db id :
  0 <= default 0 (sqlite_sequence db !! table) ->
  new_rowid table ids db = Some id -> 1 <= id <= max_int64.
Proof.
  intros Hseq Hnew. pose proof (new_rowid_above _ _ _ _ Hnew) as [Hlt _].
  unfold new_rowid in Hnew. cbv zeta in Hnew.
  destruct (max_int64 <=? largest_rowid table ids db) eqn:E; [discriminate|].
  injection Hnew as <-. apply Z.leb_gt in E. lia.
Qed.

Lemma owned_columns id new (reqs : list AddTrackRequest) :
  map track_columns new = map (requested_columns None (Some id)) reqs ->
  List.filter (owned_by_ensemble id) new = new /\ length new = length reqs.
Proof.
  revert reqs. induction new as [|t new IH]; intros [|q reqs]; cbn; try discriminate.
  - tauto.
  - intros [= _ _ _ He Hrest]. destruct (IH reqs Hrest) as [IH1 IH2].
    unfold owned_by_ensemble at 1. rewrite He, Z.eqb_refl, IH1, IH2. tauto.
Qed.

Section CreatedEnsemble.

Variable HashPassword : string -> Fallible string.
Variable ADMIN_USERNAME ADMIN_PASSWORD : string.

(** X13.  In a store the requests lead to, an ensemble whose creation was
    answered with JSON is listed by [GetEnsemblesHandler] on a healthy
    engine as the last ensemble, after all the earlier ones, with the name
    and type of the request, and [GetEnsembleTrackCountHandler] for its id
    answers with the number of requested tracks that were valid. *)
Theorem created_ensemble_is_reported (io : Faults) (req : AddEnsembleRequest) (db : Store)
    (code : Z) (payload : string * Z) :
  reachable HashPassword ADMIN_USERNAME ADMIN_PASSWORD db ->
  sent (AddEnsembleHandler io req db) = respondWithJSON code payload ->
  response (GetEnsemblesHandler healthy (committed (AddEnsembleHandler io req db)))
  = respondWithJSON StatusOK
      (map listed (ensembles db)
         ++ [mkEnsemble (snd payload) (AddEnsemble_Name req) (AddEnsemble_Type req)])
  /\ response (GetEnsembleTrackCountHandler healthy (snd payload)
                 (committed (AddEnsembleHandler io req db)))
     = respondWithJSON StatusOK
         (snd payload, len (List.filter valid_track (AddEnsemble_Tracks req))).
Proof.
  intros Hreach Hsent.
  pose proof (reachable_columns_filled _ _ _ _ Hreach) as [Htypes _].
  pose proof (reachable_rowids_counted _ _ _ _ Hreach) as [_ [Hseq _] _ _ _].
  pose proof (reachable_references_hold _ _ _ _ Hreach) as [_ _ Howner _ _ _ _].
  destruct (AddEnsemble_created io req db code payload Hsent)
    as (work & id & Hins & Hstop & Hdb & _ & ->).
  destruct (insert_tracks_done _ _ _ _ _ _ _ _ Hstop) as (new & Hnew & Hcols & Hsame).
  apply InsertEnsemble_row in Hins. destruct Hins as (Hid & _ & ->).
  destruct Hsame as (_ & Hens & _). cbn [ensembles with_ensembles tracks] in Hens, Hnew.
  cbn [snd]. rewrite Hdb. split.
  - unfold GetEnsemblesHandler, QueryEnsembles. rewrite healthy_call. cbn [deliver].
    rewrite Hens, ensemble_rows_filled.
    + cbn [fst]. rewrite map_app. reflexivity.
    + intros e He. apply in_app_or in He. destruct He as [He|[<-|[]]]; [auto | discriminate].
  - pose proof (new_rowid_range _ _ _ _ Hseq Hid) as Hrange.
    unfold GetEnsembleTrackCountHandler, QueryEnsembleExists, QueryTrackCount.
    rewrite (rowid_int64 id Hrange), (rowid_positive id Hrange), !healthy_call.
    cbn [negb orb faulty]. unfold ensemble_exists. rewrite Hens.
    rewrite existsb_app_last by apply Z.eqb_refl.
    rewrite Hnew, List.filter_app.
    destruct (owned_columns id new _ Hcols) as [Hall Hlen].
    rewrite Hall, filter_all_false.
    + cbn [app]. unfold len. rewrite Hlen. reflexivity.
    + intros t Ht. unfold owned_by_ensemble. destruct (track_ensemble_id t) as [e|] eqn:Ee;
        [|reflexivity].
      apply Z.eqb_neq. intros ->. specialize (Howner t id Ht Ee).
      apply new_rowid_fresh in Hid. apply Hid. unfold ensemble_exists in Howner.
      apply existsb_exists in Howner. destruct Howner as (e & Hin & He).
      apply Z.eqb_eq in He. subst id. apply in_map. exact Hin.
Qed.

End CreatedEnsemble.

Lemma created_ensemble_is_reported_witness :
  response (GetEnsemblesHandler healthy with_quartet)
  = respondWithJSON StatusOK [mkEnsemble 1 "Quartet A" "quartet"]
  /\ response (GetEnsembleTrackCountHandler healthy 1 with_quartet)
     = respondWithJSON StatusOK (1, 1).
Proof.
  refine (created_ensemble_is_reported sample_hash "root" "toor" healthy quartet_a registered
            StatusCreated ("Ensemble added successfully", 1) _ _).
  - apply rtc_once. apply req_Register.
  - reflexivity.
Defined.
Lemma find_app_last {A} (p : A -> bool) l x :
  existsb p l = false -> p x = true -> find p (l ++ [x]) = Some x.
Proof.
  intros Hl Hx. rewrite find_app_none by (apply existsb_false_find; exact Hl).
  cbn. rewrite Hx. reflexivity.
Qed.

Section Registration.

Variable HashPassword : string -> Fallible string.
Variable ADMIN_USERNAME ADMIN_PASSWORD : string.

Lemma Register_created io req db code message :
  response (RegisterHandler HashPassword ADMIN_USERNAME ADMIN_PASSWORD io req db)
  = respondWithJSON code message ->
  exists hash id,
    HashPassword (Register_Password req) = Done hash
    /\ new_rowid "users" (map user_id (users db)) db = Some id
    /\ existsb (fun u => String.eqb (user_username u) (Register_Username req)) (users db)
       = false
    /\ existsb (fun u => String.eqb (user_email u) (Register_Email req)) (users db) = false
    /\ Register_Username req <> "" /\ Register_Password req <> ""
    /\ store (RegisterHandler HashPassword ADMIN_USERNAME ADMIN_PASSWORD io req db)
       = with_users db
           (users db ++
              [mkUserRow id (Register_FirstName req) (Register_LastName req)
                 (Register_Username req) (Register_Email req) hash
                 (Some (Register_City req)) (role_of ADMIN_USERNAME ADMIN_PASSWORD req)])
           (<["users" := id]> (sqlite_sequence db))
    /\ code = StatusCreated /\ message = "User registered successfully".
Proof.
  unfold RegisterHandler. fold (role_of ADMIN_USERNAME ADMIN_PASSWORD req).
  destruct (String.eqb (Register_Username req) "" || _ || _ || _ || _) eqn:Hempty;
    [discriminate|]. cbv zeta.
  destruct (HashPassword _) as [hash|] eqn:Hhash; [|discriminate].
  unfold QueryUserExists, InsertUser.
  destruct (faulty (io 0%nat)); [discriminate|].
  destruct (existsb _ (users db)) eqn:Hex; [discriminate|].
  destruct (faulty (io 1%nat)); [discriminate|].
  destruct (new_rowid _ _ db) as [id|]; [|discriminate].
  destruct (negb _); [discriminate|].
  destruct (existsb _ _ || existsb _ _) eqn:Huniq; [discriminate|].
  cbn [response store]. intros [= <- <-].
  apply orb_false_iff in Huniq. destruct Huniq as [Hname Hmail].
  repeat (apply orb_false_iff in Hempty; destruct Hempty as [Hempty ?]).
  exists hash, id. split_and!; try reflexivity; try assumption.
  - apply String.eqb_neq. assumption.
  - apply String.eqb_neq. assumption.
Qed.

(** X14.  Under any faults, a registration that is answered with JSON
    appended one user row with a fresh id, the fields of the request, the
    hash [HashPassword] returned for the password, and the role admin only
    for the administrator's credentials; the profile of that id on a healthy
    engine shows these fields and the role, and an empty password hash. *)
Theorem registered_user_profile (io : Faults) (req : RegisterRequest) (db : Store)
    (code : Z) (message : string) :
  response (RegisterHandler HashPassword ADMIN_USERNAME ADMIN_PASSWORD io req db)
  = respondWithJSON code message ->
  exists id hash,
    HashPassword (Register_Password req) = Done hash
    /\ user_exists id db = false
    /\ users (store (RegisterHandler HashPassword ADMIN_USERNAME ADMIN_PASSWORD io req db))
       = users db
           ++ [mkUserRow id (Register_FirstName req) (Register_LastName req)
                 (Register_Username req) (Register_Email req) hash
                 (Some (Register_City req)) (role_of ADMIN_USERNAME ADMIN_PASSWORD req)]
    /\ response (GetProfileHandler healthy id
                   (store (RegisterHandler HashPassword ADMIN_USERNAME ADMIN_PASSWORD
                             io req db)))
       = respondWithJSON StatusOK
           (mkUser id (Register_FirstName req) (Register_LastName req)
              (Register_Username req) (Register_Email req) "" (Register_City req)
              (role_of ADMIN_USERNAME ADMIN_PASSWORD req)).
Proof.
  intros Hresp.
  destruct (Register_created io req db code message Hresp)
    as (hash & id & Hhash & Hid & _ & _ & _ & _ & Hstore & _).
  assert (Hfresh : user_exists id db = false).
  { unfold user_exists. apply new_rowid_fresh in Hid.
    apply not_true_is_false. intros H. apply Hid. apply existsb_exists in H.
    destruct H as (u & Hin & Hu). apply Z.eqb_eq in Hu. subst id. apply in_map. exact Hin. }
  exists id, hash. rewrite Hstore. cbn [users with_users].
  split_and!; [exact Hhash | exact Hfresh | reflexivity |].
  unfold GetProfileHandler, QueryProfile. rewrite healthy_call. cbn [faulty users with_users].
  rewrite (find_app_last _ _ _ Hfresh) by apply Z.eqb_refl. reflexivity.
Qed.

Lemma RegisterAdminUser_has_user io username password db :
  admin_error (RegisterAdminUser HashPassword io username password db) = None ->
  has_user username (admin_store (RegisterAdminUser HashPassword io username password db)).
Proof.
  unfold RegisterAdminUser, QueryUserByName, has_user.
  destruct (faulty (io 0%nat)); [discriminate|].
  destruct (find _ (users db)) as [row|] eqn:Hfind.
  - destruct (faulty (io 1%nat)); [discriminate|].
    intros _. assert (Hex := find_some_existsb _ _ _ Hfind).
    destruct (String.eqb (user_role row) "admin"); exact Hex.
  - destruct (HashPassword password); [|discriminate].
    destruct (InsertUser _ _ _ _ _ _ _ _ db) as [[db' id]|e] eqn:E; [|discriminate].
    intros _. cbn [admin_store]. revert E. unfold InsertUser. case_all; try discriminate.
    intros [= <- _]. cbn [users with_users]. apply existsb_app_last. apply String.eqb_refl.
Qed.

Lemma has_user_kept username db db' : statement db db' -> has_user username db -> has_user username db'.
Proof.
  unfold has_user. intros Hst H.
  destruct Hst as [? ? ? ? ? ? ? ? ? ? ? H'|? ? ? ? ? ? ? ? H'|? ? ? ? ? ? H'|? ? ? ? ? ? ? ? H'
                  |? ? ? ? ? ? ? ? H'|? ? ? ? ? H'|? ? ? ? ? H'|? ? ? ? ? ? H'|? ? ? ? ? H'
                  |? ? ? ? ? ? Hq H'|? ? ? ? ? ? ? Hq H'|? ? ? ? ? ? H'];
    open_statement H'; try exact H; cbn [users with_users].
  - apply existsb_app_true. exact H.
  - rewrite existsb_map_same; [exact H|]. intros u. rewrite set_profile_username. reflexivity.
Qed.

(** X15.  Once the registration at start-up has returned without an error,
    no registration over HTTP adds a user with the role admin, whatever
    requests were served in between and whatever the faults: the
    administrator's user name is taken from then on. *)
Theorem registration_makes_no_admin (io0 io : Faults) (req : RegisterRequest)
    (db0 db : Store) (u : UserRow) :
  admin_error (RegisterAdminUser HashPassword io0 ADMIN_USERNAME ADMIN_PASSWORD db0) = None ->
  rtc (request HashPassword ADMIN_USERNAME ADMIN_PASSWORD)
      (admin_store (RegisterAdminUser HashPassword io0 ADMIN_USERNAME ADMIN_PASSWORD db0)) db ->
  In u (users (store (RegisterHandler HashPassword ADMIN_USERNAME ADMIN_PASSWORD io req db))) ->
  user_role u = "admin" ->
  In u (users db).
Proof.
  intros Hadmin Hlater Hin Hrole.
  apply RegisterAdminUser_has_user in Hadmin. apply requests_issue in Hlater.
  pose proof (statements_keep (has_user ADMIN_USERNAME) (has_user_kept ADMIN_USERNAME)
                _ _ Hlater Hadmin) as Hhas.
  revert Hin. unfold RegisterHandler.
  destruct (String.eqb (Register_Username req) "" || _ || _ || _ || _); [tauto|]. cbv zeta.
  destruct (HashPassword _) as [hash|]; [|tauto].
  unfold QueryUserExists, InsertUser.
  destruct (faulty (io 0%nat)); [tauto|].
  destruct (existsb _ (users db)) eqn:Hex; [tauto|].
  destruct (faulty (io 1%nat)); [tauto|].
  destruct (new_rowid _ _ db) as [id|]; [|tauto].
  destruct (negb _); [tauto|].
  destruct (existsb _ _ || existsb _ _); [tauto|].
  cbn [store users with_users]. intros Hin. apply in_app_or in Hin.
  destruct Hin as [Hin|[<-|[]]]; [exact Hin|]. exfalso. cbn [user_role] in Hrole.
  destruct (String.eqb (Register_Username req) ADMIN_USERNAME) eqn:Hname;
    cbn [andb] in Hrole; [|discriminate].
  apply String.eqb_eq in Hname.
  unfold has_user in Hhas. apply existsb_exists in Hhas. destruct Hhas as (a & Ha & Hau).
  assert (Htrue : existsb (fun u0 => String.eqb (user_username u0) (Register_Username req)
                                     || String.eqb (user_email u0) (Register_Email req))
                          (users db) = true); [|congruence].
  apply existsb_exists. exists a. split; [exact Ha|]. rewrite Hname, Hau. reflexivity.
Qed.

End Registration.

Lemma set_profile_absent first last city id l :
  existsb (fun u => user_id u =? id) l = false -> map (set_profile first last city id) l = l.
Proof.
  induction l as [|u l IH]; [reflexivity|]. cbn [existsb map]. intros H.
  apply orb_false_iff in H. destruct H as [Hu Hl].
  rewrite (IH Hl). unfold set_profile. rewrite Hu. reflexivity.
Qed.

(** X16.  Under any faults, updating a profile leaves the id, user name,
    e-mail address, password hash and role of every user, the rows of the
    other users and every other table as they were; on a healthy engine the
    answer is always that the profile was updated, also when no user has
    the id, in which case the store is unchanged. *)
Theorem profile_update_keeps_account (io : Faults) (userID : Z) (updatedUser : User)
    (db : Store) :
  map account (users (store (UpdateProfileHandler io userID updatedUser db)))
  = map account (users db)
  /\ with_users (store (UpdateProfileHandler io userID updatedUser db)) (users db)
       (sqlite_sequence db) = db
  /\ (forall u, In u (users db) -> user_id u <> userID ->
        In u (users (store (UpdateProfileHandler io userID updatedUser db))))
  /\ response (UpdateProfileHandler healthy userID updatedUser db)
     = respondWithJSON StatusOK "Profile updated successfully"
  /\ (user_exists userID db = false ->
      store (UpdateProfileHandler healthy userID updatedUser db) = db).
Proof.
  assert (Hdb : with_users db (users db) (sqlite_sequence db) = db) by (destruct db; reflexivity).
  unfold UpdateProfileHandler, UpdateUser. split_and!.
  - destruct (faulty _); [reflexivity|]. destruct (_ =? 0); cbn [store users with_users];
      (rewrite map_map_same; [reflexivity|]);
      intros u; unfold account, set_profile; destruct (_ =? _); reflexivity.
  - destruct (faulty _); [exact Hdb|]. destruct (_ =? 0); cbn [store]; exact Hdb.
  - intros u Hin Hne. destruct (faulty _); [exact Hin|].
    assert (Hkept : In u (map (set_profile (User_FirstName updatedUser)
                                 (User_LastName updatedUser) (User_City updatedUser) userID)
                            (users db))).
    { apply in_map_iff. exists u. split; [|exact Hin]. unfold set_profile.
      destruct (user_id u =? userID) eqn:E; [apply Z.eqb_eq in E; contradiction|reflexivity]. }
    destruct (_ =? 0); exact Hkept.
  - rewrite healthy_call. cbn [faulty]. destruct (_ =? 0); reflexivity.
  - intros Hnone. rewrite healthy_call. cbn [faulty].
    destruct (_ =? 0); cbn [store]; rewrite (set_profile_absent _ _ _ _ _ Hnone); exact Hdb.
Qed.
Lemma registered_user_profile_witness :
  exists id hash,
    sample_hash (Register_Password ann) = Done hash
    /\ user_exists id empty_store = false
    /\ users registered
       = users empty_store
           ++ [mkUserRow id "Ann" "Lee" "ann" "ann@example.com" hash (Some "Oslo")
                 (role_of "root" "toor" ann)]
    /\ response (GetProfileHandler healthy id registered)
       = respondWithJSON StatusOK
           (mkUser id "Ann" "Lee" "ann" "ann@example.com" "" "Oslo"
              (role_of "root" "toor" ann)).
Proof.
  exact (registered_user_profile sample_hash "root" "toor" healthy ann empty_store
           StatusCreated "User registered successfully" eq_refl).
Defined.

Lemma registration_makes_no_admin_witness :
  response (RegisterHandler sample_hash "root" "toor" healthy eve started)
  = respondWithError StatusConflict "Username or email already exists"
  /\ In (mkUserRow 1 "Admin" "User" "root" "root@example.com" "$2a$10$toor" (Some "Unknown")
           "admin")
        (users started).
Proof.
  split; [reflexivity|].
  apply (registration_makes_no_admin sample_hash "root" "toor" healthy healthy eve
           empty_store started).
  - reflexivity.
  - apply rtc_refl.
  - left. reflexivity.
  - reflexivity.
Defined.

Lemma update_record_absent req id l :
  existsb (fun r => record_id r =? id) l = false -> map (update_record req id) l = l.
Proof.
  induction l as [|r l IH]; [reflexivity|]. cbn [existsb map]. intros H.
  apply orb_false_iff in H. destruct H as [Hr Hl].
  rewrite (IH Hl). unfold update_record. rewrite Hr. reflexivity.
Qed.

Lemma find_update_record req id l :
  find (fun r => record_id r =? id) (map (update_record req id) l)
  = update_record req id <$> find (fun r => record_id r =? id) l.
Proof.
  induction l as [|r l IH]; [reflexivity|]. cbn [map find].
  rewrite update_record_id. destruct (record_id r =? id); [reflexivity | exact IH].
Qed.

(** X17.  Under any faults, updating a record changes neither the id nor a
    sales counter of any record, and nothing outside [records]; on a healthy
    engine, for a rowid, a title and a stock that is not negative, a record
    that exists gets the fields of the request and keeps its counters while
    the other records stay, and an id without a record is answered 404 with
    the store unchanged. *)
Theorem update_record_keeps_sales_and_links (io : Faults) (id : Z) (req : AddRecordRequest)
    (db : Store) :
  (map sales (records (store (UpdateRecordHandler io id req db))) = map sales (records db)
   /\ with_records (store (UpdateRecordHandler io id req db)) (records db)
        (sqlite_sequence db) = db)
  /\ (rowid id -> AddRecord_Title req <> "" -> 0 <= AddRecord_Stock req ->
      (forall row, find_record id db = Some row ->
         response (UpdateRecordHandler healthy id req db)
         = respondWithJSON StatusOK "Record updated successfully"
         /\ find_record id (store (UpdateRecordHandler healthy id req db))
            = Some (mkRecordRow id (AddRecord_Title req) (AddRecord_Label req)
                      (AddRecord_WholesaleAddress req) (AddRecord_WholesalePrice req)
                      (AddRecord_RetailPrice req) (AddRecord_ReleaseDate req)
                      (record_sold_last_year row) (record_sold_current_year row)
                      (AddRecord_Stock req))
         /\ forall r, In r (records db) -> record_id r <> id ->
              In r (records (store (UpdateRecordHandler healthy id req db))))
      /\ (find_record id db = None ->
          response (UpdateRecordHandler healthy id req db)
          = respondWithError StatusNotFound "Record not found"
          /\ store (UpdateRecordHandler healthy id req db) = db)).
Proof.
  assert (Hdb : with_records db (records db) (sqlite_sequence db) = db)
    by (destruct db; reflexivity).
  split; [split|].
  - unfold UpdateRecordHandler, UpdateRecord.
    destruct (_ || _); [reflexivity|]. destruct (String.eqb _ _); [reflexivity|].
    destruct (_ <? 0); [reflexivity|]. destruct (faulty _); [reflexivity|].
    destruct (_ =? 0); cbn [store records with_records];
      (rewrite map_map_same; [reflexivity|]);
      intros r; unfold sales, update_record; destruct (_ =? _); reflexivity.
  - unfold UpdateRecordHandler, UpdateRecord.
    destruct (_ || _); [exact Hdb|]. destruct (String.eqb _ _); [exact Hdb|].
    destruct (_ <? 0); [exact Hdb|]. destruct (faulty _); [exact Hdb|].
    destruct (_ =? 0); cbn [store]; exact Hdb.
  - intros Hid Htitle Hstock. unfold UpdateRecordHandler, UpdateRecord.
    rewrite (rowid_int64 id Hid), (rowid_positive id Hid), healthy_call.
    assert (Ht : String.eqb (AddRecord_Title req) "" = false)
      by (apply String.eqb_neq, Htitle).
    assert (Hs : (AddRecord_Stock req <? 0) = false) by (apply Z.ltb_ge, Hstock).
    rewrite Ht, Hs. cbn [negb orb faulty]. rewrite len_filter_zero. split.
    + intros row Hrow. unfold find_record in *.
      rewrite (find_some_existsb _ _ _ Hrow). cbn [negb response store records with_records].
      split_and!; [reflexivity | |].
      * rewrite find_update_record, Hrow. cbn. unfold update_record.
        destruct (find_some _ _ Hrow) as [_ Hr]. rewrite Hr.
        apply Z.eqb_eq in Hr. rewrite Hr. reflexivity.
      * intros r Hin Hne. apply in_map_iff. exists r. split; [|exact Hin].
        unfold update_record.
        destruct (record_id r =? id) eqn:E; [apply Z.eqb_eq in E; contradiction|reflexivity].
    + intros Hnone. unfold find_record in Hnone.
      rewrite (find_none_existsb _ _ Hnone). cbn [negb response store].
      split; [reflexivity|].
      rewrite (update_record_absent _ _ _ (find_none_existsb _ _ Hnone)). exact Hdb.
Qed.
(** X18.  Creating an ensemble under a name that is taken, on a healthy
    engine: the answer is 409, nothing is stored or logged, and the handler
    returns with its transaction neither committed nor rolled back. *)
Theorem taken_ensemble_name_is_refused (req : AddEnsembleRequest) (db : Store) (id : Z) :
  AddEnsemble_Name req <> "" ->
  new_rowid "ensembles" (map ensemble_id (ensembles db)) db = Some id ->
  existsb (fun e => String.eqb (ensemble_name e) (AddEnsemble_Name req)) (ensembles db) = true ->
  sent (AddEnsembleHandler healthy req db)
  = respondWithError StatusConflict "Ensemble name already exists"
  /\ committed (AddEnsembleHandler healthy req db) = db
  /\ tx (AddEnsembleHandler healthy req db) = TxOpen db
  /\ lines (AddEnsembleHandler healthy req db) = [].
Proof.
  intros Hname Hid Htaken. unfold AddEnsembleHandler, InsertEnsemble.
  assert (Hn : String.eqb (AddEnsemble_Name req) "" = false) by (apply String.eqb_neq, Hname).
  rewrite Hn, !healthy_call, Hid, Htaken. cbn. split_and!; reflexivity.
Qed.

Lemma taken_ensemble_name_is_refused_witness :
  sent (AddEnsembleHandler healthy quartet_a with_quartet)
  = respondWithError StatusConflict "Ensemble name already exists"
  /\ committed (AddEnsembleHandler healthy quartet_a with_quartet) = with_quartet
  /\ tx (AddEnsembleHandler healthy quartet_a with_quartet) = TxOpen with_quartet
  /\ lines (AddEnsembleHandler healthy quartet_a with_quartet) = [].
Proof.
  apply (taken_ensemble_name_is_refused quartet_a with_quartet 2).
  - discriminate.
  - reflexivity.
  - reflexivity.
Defined.

(** X19.  Creating a musician as a member of an ensemble that does not
    exist, on a healthy engine with foreign keys enforced: the insert fails
    on the foreign key, the answer is the server error, the transaction is
    rolled back and the store is unchanged. *)
Theorem musician_of_unknown_ensemble_is_refused (req : AddMusicianRequest) (db : Store)
    (id e : Z) :
  AddMusician_FirstName req <> "" -> AddMusician_LastName req <> "" ->
  new_rowid "musicians" (map musician_id (musicians db)) db = Some id ->
  AddMusician_EnsembleID req = Some e -> ensemble_exists e db = false ->
  sent (AddMusicianHandler healthy req db)
  = respondWithError StatusInternalServerError "Failed to add musician"
  /\ committed (AddMusicianHandler healthy req db) = db
  /\ tx (AddMusicianHandler healthy req db) = TxRolledBack
  /\ lines (AddMusicianHandler healthy req db)
     = [Printf "Database error inserting musician: %v" [ArgError ErrForeignKey]].
Proof.
  intros Hfirst Hlast Hid He Hnone. unfold AddMusicianHandler, InsertMusician.
  assert (Hf : String.eqb (AddMusician_FirstName req) "" = false)
    by (apply String.eqb_neq, Hfirst).
  assert (Hl : String.eqb (AddMusician_LastName req) "" = false)
    by (apply String.eqb_neq, Hlast).
  rewrite Hf, Hl, !healthy_call, Hid, He. cbn. rewrite Hnone. cbn. split_and!; reflexivity.
Qed.

Lemma musician_of_unknown_ensemble_is_refused_witness :
  sent (AddMusicianHandler healthy (mkAddMusicianRequest "Mary" "Jones" "piano" (Some 7) [])
          with_quartet)
  = respondWithError StatusInternalServerError "Failed to add musician"
  /\ committed (AddMusicianHandler healthy
                  (mkAddMusicianRequest "Mary" "Jones" "piano" (Some 7) []) with_quartet)
     = with_quartet.
Proof.
  destruct (musician_of_unknown_ensemble_is_refused
              (mkAddMusicianRequest "Mary" "Jones" "piano" (Some 7) []) with_quartet 1 7)
    as (Hsent & Hdb & _).
  - discriminate.
  - discriminate.
  - reflexivity.
  - reflexivity.
  - reflexivity.
  - split; [exact Hsent | exact Hdb].
Defined.

Section Profiles.

Variable HashPassword : string -> Fallible string.
Variable ADMIN_USERNAME ADMIN_PASSWORD : string.

(** X20.  In a store the requests lead to, the profile of a user that
    exists is always shown on a healthy engine, with the id asked for and
    an empty password hash, since no request leaves a NULL city behind; a
    user id without a row is answered 404. *)
Theorem profile_is_shown (userID : Z) (db : Store) :
  reachable HashPassword ADMIN_USERNAME ADMIN_PASSWORD db ->
  (forall row, find (fun u => user_id u =? userID) (users db) = Some row ->
     response (GetProfileHandler healthy userID db) = respondWithJSON StatusOK (profile row)
     /\ User_ID (profile row) = userID
     /\ User_PasswordHash (profile row) = "")
  /\ (find (fun u => user_id u =? userID) (users db) = None ->
      response (GetProfileHandler healthy userID db)
      = respondWithError StatusNotFound "User not found").
Proof.
  intros Hreach. apply reachable_columns_filled in Hreach. destruct Hreach as [_ Hcity].
  unfold GetProfileHandler, QueryProfile. rewrite healthy_call. cbn [faulty]. split.
  - intros row Hrow. rewrite Hrow. destruct (find_some _ _ Hrow) as [Hin Hid].
    destruct (Hcity row Hin) as [Hc _]. unfold profile.
    destruct (user_city row) as [city|]; [|contradiction]. cbn.
    apply Z.eqb_eq in Hid. split_and!; [reflexivity | exact Hid | reflexivity].
  - intros ->. reflexivity.
Qed.

End Profiles.

Lemma profile_is_shown_witness :
  response (GetProfileHandler healthy 1 with_cart)
  = respondWithJSON StatusOK (mkUser 1 "Ann" "Lee" "ann" "ann@example.com" "" "Oslo" "user").
Proof.
  exact (proj1 (proj1 (profile_is_shown sample_hash "root" "toor" 1 with_cart
                         session_reachable)
                  (mkUserRow 1 "Ann" "Lee" "ann" "ann@example.com" "$2a$10$secret"
                     (Some "Oslo") "user")
                  eq_refl)).
Defined.
Section Catalog.

Variable HashPassword : string -> Fallible string.
Variable ADMIN_USERNAME ADMIN_PASSWORD : string.

(** X21.  In a store the requests lead to, the catalog is served on a
    healthy engine exactly as long as [record_tracks] is empty: then every
    record is listed with an empty track list, and from the first linked
    track on the answer is the server error of the tracks query. *)
Theorem catalog_is_served_only_without_links (db : Store) :
  reachable HashPassword ADMIN_USERNAME ADMIN_PASSWORD db ->
  (record_tracks db = [] ->
   response (GetRecordsHandler healthy db)
   = respondWithJSON StatusOK (no_tracks (map scan_record (records db)))
   /\ logged (GetRecordsHandler healthy db) = [])
  /\ (record_tracks db <> [] ->
      response (GetRecordsHandler healthy db)
      = respondWithError StatusInternalServerError "Database error fetching tracks"
      /\ logged (GetRecordsHandler healthy db)
         = [Printf "Error querying tracks: %v" [ArgError ErrSyntax]]).
Proof.
  intros Hreach. apply reachable_references_hold in Hreach.
  destruct Hreach as [_ _ _ Hrecord _ _ _].
  unfold GetRecordsHandler, QueryRecords. rewrite healthy_call. cbn [deliver].
  destruct (len (map scan_record (records db)) =? 0) eqn:Hlen.
  { apply len_zero, map_eq_nil in Hlen. split.
    - intros _. rewrite Hlen. split; reflexivity.
    - intros Hlinks. exfalso. destruct (record_tracks db) as [|rt rest] eqn:E; [congruence|].
      specialize (Hrecord rt (or_introl eq_refl)). unfold record_exists in Hrecord.
      rewrite Hlen in Hrecord. discriminate. }
  assert (Hids : map Record_ID (map scan_record (records db)) <> []).
  { intros H. apply map_eq_nil in H. rewrite H in Hlen. discriminate. }
  destruct (bind_placeholders _ Hids) as (in_list & Hp & Hb). rewrite Hp.
  unfold QueryRecordTracksIn. rewrite Hb, healthy_call. cbn [deliver]. split.
  - intros ->. cbn [List.filter]. change (link_rows []) with (mkLinks ∅ [] ∅).
    cbn [trackIDs]. change (len [] =? 0) with true. cbv iota. split; reflexivity.
  - intros Hlinks.
    set (linkRows := List.filter _ (record_tracks db)).
    assert (Hall : linkRows = record_tracks db).
    { unfold linkRows.
      assert (Hkept : forall l,
                (forall rt, In rt l -> record_exists (rt_record_id rt) db = true) ->
                List.filter
                  (fun rt => mem (rt_record_id rt) (map Record_ID (map scan_record (records db))))
                  l = l).
      { induction l as [|rt rest IH]; intros Hl; [reflexivity|]. cbn [List.filter].
        assert (Hrt : mem (rt_record_id rt) (map Record_ID (map scan_record (records db)))
                      = true).
        { apply mem_In. specialize (Hl rt (or_introl eq_refl)).
          apply existsb_exists in Hl. destruct Hl as (rec & Hin & Hid).
          apply Z.eqb_eq in Hid. rewrite map_map. apply in_map_iff. exists rec.
          split; [exact Hid | exact Hin]. }
        rewrite Hrt. f_equal. apply IH. intros rt' Hin. apply Hl. right. exact Hin. }
      apply Hkept. exact Hrecord. }
    assert (Hsome : linkRows <> []) by (rewrite Hall; exact Hlinks).
    rewrite (len_nonzero _ (trackIDs_link_rows _ Hsome)).
    unfold tracks_fetched, QueryTracksIn. rewrite (proj1 (bind_raw_placeholders _)).
    split; reflexivity.
Qed.

End Catalog.

(** The catalog before and after the record of the session got its track. *)
Lemma catalog_is_served_only_without_links_witness :
  response (GetRecordsHandler healthy with_quartet) = respondWithJSON StatusOK []
  /\ response (GetRecordsHandler healthy with_live_set)
     = respondWithError StatusInternalServerError "Database error fetching tracks".
Proof.
  split.
  - refine (proj1 (proj1 (catalog_is_served_only_without_links sample_hash "root" "toor"
                            with_quartet _) _)).
    + eapply rtc_l; [apply req_Register|]. apply rtc_once. apply req_AddEnsemble.
    + reflexivity.
  - refine (proj1 (proj2 (catalog_is_served_only_without_links sample_hash "root" "toor"
                            with_live_set _) _)).
    + eapply rtc_l; [apply req_Register|].
      eapply rtc_l; [apply req_AddEnsemble|]. apply rtc_once. apply req_AddRecord.
    + discriminate.
Defined.
Lemma filter_the_one {A} (key : A -> Z) (l : list A) (x : A) (k : Z) :
  List.NoDup (map key l) ->
  find (fun y => key y =? k) l = Some x ->
  List.filter (fun y => mem (key y) [k]) l = [x].
Proof.
  induction l as [|y l IH]; [discriminate|]. cbn [map find List.filter].
  intros Hnd Hfind. inversion Hnd as [|? ? Hy Hl]; subst.
  unfold mem at 1. cbn [existsb]. rewrite orb_false_r.
  destruct (key y =? k) eqn:E.
  - injection Hfind as ->. f_equal. apply filter_all_false. intros z Hz.
    unfold mem. cbn [existsb]. rewrite orb_false_r. apply Z.eqb_neq. intros Hk.
    apply Z.eqb_eq in E. apply Hy. rewrite E, <- Hk. apply in_map. exact Hz.
  - apply IH; assumption.
Qed.

Lemma filter_user_none u (l : list CartItemRow) :
  (forall c, In c l -> cart_user_id c <> u) ->
  List.filter (fun c => cart_user_id c =? u) l = [].
Proof.
  intros H. apply filter_all_false. intros c Hc. apply Z.eqb_neq. exact (H c Hc).
Qed.

(** X22.  End to end on a healthy engine: a user whose cart is empty adds
    [q1] and then [q2] copies of an existing record that has no linked
    track, in a store with distinct record ids; the cart is then listed as
    one item, for that record, with quantity [q1 + q2], carrying the record
    with an empty track list. *)
Theorem cart_lists_the_added_quantity (u r q1 q2 : Z) (db : Store) (rec : RecordRow) :
  rowid r -> quantity q1 -> quantity q2 -> q1 + q2 <= max_int64 ->
  List.NoDup (map record_id (records db)) ->
  find_record r db = Some rec ->
  user_exists u db = true ->
  (forall c, In c (cart_items db) -> cart_user_id c <> u) ->
  no_linked_tracks r db ->
  response
    (GetCartHandler healthy u
       (store (AddToCartHandler healthy u (mkCartRequest r q2)
                 (store (AddToCartHandler healthy u (mkCartRequest r q1) db)))))
  = respondWithJSON StatusOK
      [mkCartItem u r (q1 + q2) (Some (set_Tracks (scan_record rec) (Some [])))].
Proof.
  intros Hr Hq1 Hq2 Hsum Hnd Hrec Hu Hempty Hfree.
  assert (Hex : record_exists r db = true) by (apply record_exists_find; eauto).
  assert (Habsent : find_cart_item u r db = None).
  { unfold find_cart_item. apply existsb_false_find. apply not_true_is_false. intros H.
    apply existsb_exists in H. destruct H as (c & Hc & Hin).
    apply andb_true_iff in Hin. destruct Hin as [Hcu _]. apply Z.eqb_eq in Hcu.
    exact (Hempty c Hc Hcu). }
  rewrite (AddToCart_healthy u r q1 db Hr Hq1 Hex), (Upsert_absent u r q1 db Habsent Hu Hex).
  cbn [store].
  set (db1 := with_cart_items db (cart_items db ++ [mkCartItemRow u r (IntegerCell q1)])).
  assert (Hpresent : find_cart_item u r db1 = Some (mkCartItemRow u r (IntegerCell q1))).
  { unfold find_cart_item, db1. cbn [cart_items with_cart_items].
    rewrite find_app_none by exact Habsent. cbn [find]. rewrite in_cart_row. reflexivity. }
  rewrite (AddToCart_healthy u r q2 db1 Hr Hq2 Hex), (Upsert_present u r q2 db1 _ Hpresent).
  cbn [store]. unfold db1. cbn [cart_items with_cart_items]. rewrite map_app.
  rewrite add_quantity_absent by exact Habsent. cbn [map]. unfold add_quantity at 1.
  rewrite in_cart_row. cbn [cart_user_id cart_record_id cart_quantity].
  rewrite sqlite_add_in_range by (unfold quantity, min_int64 in *; lia).
  unfold GetCartHandler, QueryCartItems. rewrite healthy_call.
  cbn [deliver cart_items with_cart_items]. rewrite List.filter_app, filter_user_none by exact Hempty.
  cbn [List.filter cart_user_id app]. rewrite Z.eqb_refl.
  assert (Hcart : cart_rows [mkCartItemRow u r (IntegerCell (q1 + q2))]
                  = mkCartRows [mkCartItem u r (q1 + q2) None] [r] (<[r := true]> ∅) []).
  { unfold cart_rows. cbn [foldl]. unfold cart_row.
    cbn [cart_quantity cart_record_id cart_user_id recordIDSet cartItems recordIDs scanLog].
    rewrite lookup_empty. reflexivity. }
  rewrite Hcart. cbn [cartItems recordIDs scanLog].
  change (len [mkCartItem u r (q1 + q2) None] =? 0) with false. cbv iota.
  change (placeholders (len [r])) with (Some "(?)"). cbv iota.
  unfold QueryRecordsIn. change (bind "(?)" [r]) with (@SqlOk (list Z) [r]).
  rewrite healthy_call. cbn [deliver records with_cart_items].
  rewrite (filter_the_one record_id (records db) rec r Hnd Hrec).
  assert (Hid : Record_ID (scan_record rec) = r).
  { cbn. unfold find_record in Hrec. destruct (find_some _ _ Hrec) as [_ H].
    apply Z.eqb_eq. exact H. }
  assert (Hfetched : record_rows [rec]
                     = mkRecordRows (<[r := scan_record rec]> ∅) [r] (<[r := true]> ∅)).
  { unfold record_rows. cbn [foldl]. unfold record_row.
    cbn [fetchedRecordIDSet fetchedRecordIDs recordsMap]. rewrite lookup_empty, Hid.
    reflexivity. }
  rewrite Hfetched. cbn [fetchedRecordIDs recordsMap].
  change (len [r] =? 0) with false. cbv iota.
  change (placeholders (len [r])) with (Some "(?)"). cbv iota.
  unfold QueryRecordTracksIn. change (bind "(?)" [r]) with (@SqlOk (list Z) [r]).
  rewrite healthy_call. cbn [deliver record_tracks with_cart_items].
  rewrite filter_all_false.
  2:{ intros rt Hrt. unfold mem. cbn [existsb]. rewrite orb_false_r.
      apply Z.eqb_neq. exact (Hfree rt Hrt). }
  change (link_rows []) with (mkLinks ∅ [] ∅). cbn [trackIDs recordTrackLinks].
  change (0 <? len []) with false. cbv iota beta.
  cbn [attach_records]. unfold attach_record. cbn [CartItem_RecordID].
  rewrite lookup_insert_eq. unfold attach_tracks. rewrite Hid, lookup_empty.
  reflexivity.
Qed.

Lemma cart_lists_the_added_quantity_witness :
  response
    (GetCartHandler healthy 1
       (store (AddToCartHandler healthy 1 (mkCartRequest 5 1)
                 (store (AddToCartHandler healthy 1 (mkCartRequest 5 2) shop)))))
  = respondWithJSON StatusOK
      [mkCartItem 1 5 3 (Some (set_Tracks (scan_record (sample_record 5 "Live Set" 0))
                                 (Some [])))].
Proof.
  apply (cart_lists_the_added_quantity 1 5 2 1 shop (sample_record 5 "Live Set" 0)).
  - unfold rowid, max_int64. lia.
  - unfold quantity, max_int64. lia.
  - unfold quantity, max_int64. lia.
  - unfold max_int64. lia.
  - cbn. constructor; [intros [H|[]]; discriminate|]. constructor; [intros []|]. constructor.
  - reflexivity.
  - reflexivity.
  - intros c [].
  - intros rt [<-|[]]. discriminate.
Defined.
Section Wire.

Variable HashPassword : string -> Fallible string.
Variable ADMIN_USERNAME ADMIN_PASSWORD : string.
Variable MarshalMessage : string -> option string.
Variable MarshalCreated : string * Z -> option string.
Variable MarshalError : string -> string.

Lemma served_json {A} (Marshal : A -> option string) code payload :
  status (served Marshal MarshalError (respondWithJSON code payload)) = Some StatusOK
  /\ sentHeader (served Marshal MarshalError (respondWithJSON code payload)) !! "Content-Type"
     = Some "application/json".
Proof.
  unfold served, send, Encode, Write, WriteHeader, HeaderSet, NewWriter.
  destruct (Marshal payload); cbn; split; reflexivity.
Qed.

Lemma served_error {A} (Marshal : A -> option string) code message :
  status (served Marshal MarshalError (respondWithError code message)) = Some code.
Proof. reflexivity. Qed.

(** X23.  No creating handler answers with the status 201: under any
    faults, whatever [RegisterHandler], [AddMusicianHandler],
    [AddEnsembleHandler] and [AddRecordHandler] send, the status written is
    not 201, and where [AddRecordHandler] passes 201 to [respondWithJSON]
    the status written is 200, because [respondWithJSON] never writes the
    code it is given. *)
Theorem created_is_sent_as_ok (io : Faults) (db : Store) :
  (forall req,
     status (served MarshalMessage MarshalError
               (response (RegisterHandler HashPassword ADMIN_USERNAME ADMIN_PASSWORD
                            io req db)))
     <> Some StatusCreated)
  /\ (forall req,
        status (served MarshalCreated MarshalError (sent (AddMusicianHandler io req db)))
        <> Some StatusCreated)
  /\ (forall req,
        status (served MarshalCreated MarshalError (sent (AddEnsembleHandler io req db)))
        <> Some StatusCreated)
  /\ (forall req,
        status (served MarshalCreated MarshalError (sent (AddRecordHandler io req db)))
        <> Some StatusCreated)
  /\ (forall req code payload,
        sent (AddRecordHandler io req db) = respondWithJSON code payload ->
        code = StatusCreated
        /\ status (served MarshalCreated MarshalError (sent (AddRecordHandler io req db)))
           = Some StatusOK).
Proof.
  assert (Hjson : forall A (Marshal : A -> option string) code payload,
            status (served Marshal MarshalError (respondWithJSON code payload))
            <> Some StatusCreated).
  { intros A Marshal code payload. rewrite (proj1 (served_json Marshal code payload)).
    discriminate. }
  split_and!.
  - intros req. unfold RegisterHandler, QueryUserExists, InsertUser. cbv zeta.
    case_all; cbn [response]; first [apply Hjson | rewrite served_error; discriminate].
  - intros req. unfold AddMusicianHandler. rewrite ?sent_deferred.
    unfold Commit. cbv zeta. case_tx; rewrite ?sent_deferred; cbn [sent];
      first [apply Hjson | rewrite served_error; discriminate].
  - intros req. unfold AddEnsembleHandler. rewrite ?sent_deferred.
    unfold Commit. cbv zeta. case_tx; rewrite ?sent_deferred; cbn [sent];
      first [apply Hjson | rewrite served_error; discriminate].
  - intros req. unfold AddRecordHandler. rewrite ?sent_deferred.
    unfold Commit. cbv zeta. case_tx; rewrite ?sent_deferred; cbn [sent];
      first [apply Hjson | rewrite served_error; discriminate].
  - intros req code payload Hsent. rewrite Hsent. split.
    + revert Hsent. unfold AddRecordHandler. rewrite ?sent_deferred.
      unfold Commit. cbv zeta. case_tx; rewrite ?sent_deferred; cbn [sent];
        intros H; try discriminate H; injection H as <- _; reflexivity.
    + apply served_json.
Qed.

End Wire.
Lemma bestsellers_listed_or_lost_witness :
  response (GetBestSellersHandler sort_by_sold healthy three_sellers)
  = respondWithJSON StatusOK
      (no_tracks (map scan_record [sold_record 2 50; sold_record 1 10; sold_record 3 5])).
Proof.
  refine (proj1 (proj1 (bestsellers_listed_or_lost sort_by_sold three_sellers) _)).
  intros rec _ rt [].
Defined.

Lemma cart_error_changes_nothing_witness :
  response (UpdateCartHandler healthy 1 5 2 shop)
  = respondWithError StatusNotFound "Item not found in cart"
  /\ store (UpdateCartHandler healthy 1 5 2 shop) = shop.
Proof.
  split; [reflexivity|].
  exact (proj1 (proj2 (cart_error_changes_nothing healthy 1 5 2 (mkCartRequest 5 2) shop
                         StatusNotFound "Item not found in cart")) eq_refl).
Defined.

Lemma created_owner_has_valid_tracks_witness :
  exists id new,
    StatusCreated = StatusCreated
    /\ ("Ensemble added successfully", 1) = ("Ensemble added successfully", id)
    /\ ensemble_exists id registered = false
    /\ ensembles with_quartet
       = ensembles registered ++ [mkEnsembleRow id "Quartet A" (Some "quartet")]
    /\ tracks with_quartet = tracks registered ++ new
    /\ map track_columns new = [("Intro", 120, None, Some id)].
Proof.
  exact (proj1 (created_owner_has_valid_tracks healthy registered) quartet_a StatusCreated
           ("Ensemble added successfully", 1) eq_refl).
Defined.

Lemma profile_update_keeps_account_witness :
  response (UpdateProfileHandler healthy 9 (mkUser 0 "No" "One" "" "" "" "Nowhere" "") with_cart)
  = respondWithJSON StatusOK "Profile updated successfully"
  /\ store (UpdateProfileHandler healthy 9 (mkUser 0 "No" "One" "" "" "" "Nowhere" "") with_cart)
     = with_cart.
Proof.
  destruct (profile_update_keeps_account healthy 9
              (mkUser 0 "No" "One" "" "" "" "Nowhere" "") with_cart)
    as (_ & _ & _ & Hresp & Hstore).
  split; [exact Hresp | apply Hstore; reflexivity].
Defined.

Lemma update_record_keeps_sales_and_links_witness :
  response (UpdateRecordHandler healthy 6 twice_track_1 shop)
  = respondWithJSON StatusOK "Record updated successfully"
  /\ find_record 6 (store (UpdateRecordHandler healthy 6 twice_track_1 shop))
     = Some (mkRecordRow 6 "Twice" "EMI" "Abbey Road 3" 10%float 15%float "2021-05-01" 0 0 4)
  /\ record_tracks (store (UpdateRecordHandler healthy 6 twice_track_1 shop))
     = [mkRecordTrackRow 6 1].
Proof.
  destruct (update_record_keeps_sales_and_links healthy 6 twice_track_1 shop)
    as [_ Hvalid].
  destruct Hvalid as [Hfound _].
  - unfold rowid, max_int64. lia.
  - discriminate.
  - cbn. lia.
  - destruct (Hfound (sample_record 6 "Studio" 3) eq_refl) as (Hresp & Hrow & _).
    split_and!; [exact Hresp | exact Hrow | reflexivity].
Defined.

Lemma created_is_sent_as_ok_witness :
  sent (AddRecordHandler healthy twice_track_1 shop)
  = respondWithJSON StatusCreated ("Record added successfully", 7)
  /\ StatusCreated = StatusCreated
  /\ status (served (fun _ : string * Z => Some "{}") (fun _ => "{}")
               (sent (AddRecordHandler healthy twice_track_1 shop)))
     = Some StatusOK.
Proof.
  split; [reflexivity|].
  exact (proj2 (proj2 (proj2 (proj2
           (created_is_sent_as_ok sample_hash "root" "toor" (fun _ => Some "{}")
              (fun _ => Some "{}") (fun _ => "{}") healthy shop))))
           twice_track_1 StatusCreated ("Record added successfully", 7) eq_refl).
Defined.
